(** * Watchtower: scan orchestration and change detection

    A shallow embedding of the Go sources of the watchtower scanner
    (packages [scheduler], [healthcheck], [discovery] and [database]) and
    the proofs of the properties its specification states about them.

    Conventions of the embedding:
    - a Go [string] is a Rocq [string], read as its sequence of bytes;
    - a Go [int] / [int64] is a [Z];
    - a [time.Time] is an instant, a [Z];
    - an [error] result is an [option error], [None] standing for [nil];
    - the SQLite tables are lists of rows in insertion order, together
      with the AUTOINCREMENT counters;
    - goroutine scheduling and the outside world (network, driver errors,
      the PATH) are explicit inputs of the functions that depend on them. *)

From Stdlib Require Import ZArith Lia Ascii String List.
From stdpp Require Import base list gmap strings sorting pretty.

(* ===================================================================== *)
(** * Part I: the embedding                                                *)
(* ===================================================================== *)

(** [error] values of the program, by origin. *)
Inductive error : Type :=
| ErrNoRows                              (* sql.ErrNoRows *)
| ErrDriver                              (* the driver failed to run a statement *)
| ErrUnique (table : string)             (* UNIQUE constraint failed *)
| ErrMsg (msg : string)                  (* errors.New / fmt.Errorf *)
| ErrWrap (msg : string) (cause : error). (* fmt.Errorf with %w *)

(** ** Go's [strings] package, as far as the program uses it *)
Module GoStrings.

Definition bytes (s : string) : list ascii := list_ascii_of_string s.
Definition of_bytes (l : list ascii) : string := string_of_list_ascii l.

(** [len(s)] *)
Definition len (s : string) : Z := Z.of_nat (length (bytes s)).

(** [s[i:]] and [s[:i]], for [0 <= i <= len(s)]. *)
Definition slice_from (s : string) (i : Z) : string :=
  of_bytes (drop (Z.to_nat i) (bytes s)).
Definition slice_to (s : string) (i : Z) : string :=
  of_bytes (take (Z.to_nat i) (bytes s)).

(** [strings.HasPrefix] *)
Definition HasPrefix (s prefix : string) : bool :=
  bool_decide (bytes prefix `prefix_of` bytes s).

(** [strings.TrimPrefix]: [s] without the leading [prefix], or [s] itself. *)
Definition TrimPrefix (s prefix : string) : string :=
  if HasPrefix s prefix then slice_from s (len prefix) else s.

(** [strings.Index]: the index of the first instance of [substr] in [s],
    or [-1]. *)
Fixpoint index_bytes (l sub : list ascii) : Z :=
  if bool_decide (sub `prefix_of` l) then 0%Z
  else match l with
       | [] => (-1)%Z
       | _ :: l' =>
           let i := index_bytes l' sub in
           if (i =? -1)%Z then (-1)%Z else (i + 1)%Z
       end.
Definition Index (s substr : string) : Z := index_bytes (bytes s) (bytes substr).

(** [strings.Contains] *)
Definition Contains (s substr : string) : bool := (0 <=? Index s substr)%Z.

(** White space as [unicode.IsSpace] defines it, each rune in its UTF-8
    encoding: U+0009..U+000D, U+0020, U+0085, U+00A0, U+1680,
    U+2000..U+200A, U+2028, U+2029, U+202F, U+205F and U+3000. *)
Definition utf8 (l : list N) : list ascii := map ascii_of_N l.
Definition white_space : list (list ascii) :=
  map utf8
    ([ [0x09]; [0x0A]; [0x0B]; [0x0C]; [0x0D]; [0x20];
       [0xC2; 0x85]; [0xC2; 0xA0];
       [0xE1; 0x9A; 0x80] ]
     ++ map (fun k => [0xE2; 0x80; 0x80 + N.of_nat k]) (seq 0 11)
     ++ [ [0xE2; 0x80; 0xA8]; [0xE2; 0x80; 0xA9]; [0xE2; 0x80; 0xAF];
          [0xE2; 0x81; 0x9F];
          [0xE3; 0x80; 0x80] ])%N.

(** The encoding of a white-space rune that [l] starts with, if any. *)
Definition leading (pats : list (list ascii)) (l : list ascii) : option (list ascii) :=
  List.find (fun p => bool_decide (p `prefix_of` l)) pats.

(** Strip leading runes of [pats], one per unit of [fuel]. *)
Fixpoint strip_leading (pats : list (list ascii)) (fuel : nat) (l : list ascii)
  : list ascii :=
  match fuel with
  | O => l
  | S fuel' =>
      match leading pats l with
      | Some p => strip_leading pats fuel' (drop (length p) l)
      | None => l
      end
  end.

(** [strings.TrimLeftFunc(s, unicode.IsSpace)] and its right counterpart,
    on bytes; the right one works on the reversed string. *)
Definition trim_left (l : list ascii) : list ascii :=
  strip_leading white_space (length l) l.
Definition trim_right (l : list ascii) : list ascii :=
  reverse (strip_leading (map reverse white_space) (length l) (reverse l)).

(** A string no white space starts or ends. *)
Definition trimmed (l : list ascii) : Prop :=
  leading white_space l = None /\
  leading (map reverse white_space) (reverse l) = None.

(** [strings.TrimSpace]: [s] without leading and trailing white space. *)
Definition TrimSpace (s : string) : string :=
  of_bytes (trim_right (trim_left (bytes s))).

End GoStrings.

(** ** Package scheduler: the identity normaliser *)
Module Normalizer.
Import GoStrings.

Definition cleanDomain (domain : string) : string :=
  (* Remove protocol *)
  let domain := TrimPrefix domain "https://" in
  let domain := TrimPrefix domain "http://" in
  (* Remove paths *)
  let domain :=
    let idx := Index domain "/" in
    if negb (idx =? -1)%Z then slice_to domain idx else domain in
  (* Remove ports *)
  let domain :=
    let idx := Index domain ":" in
    if negb (idx =? -1)%Z then slice_to domain idx else domain in
  (* Remove wildcards *)
  let domain := TrimPrefix domain "*." in
  TrimSpace domain.

(** *** The normaliser as the specification words it

    The rules, applied in order, on the bytes of the raw string. *)

(** "Strip a leading [p]". *)
Fixpoint strip (p l : list ascii) : option (list ascii) :=
  match p, l with
  | [], _ => Some l
  | c :: p', d :: l' => if bool_decide (c = d) then strip p' l' else None
  | _ :: _, [] => None
  end.
Definition strip_leading_text (p : string) (l : list ascii) : list ascii :=
  default l (strip (bytes p) l).

(** "Truncate at the first [c]": what stands before it. *)
Fixpoint truncate_at (c : ascii) (l : list ascii) : list ascii :=
  match l with
  | [] => []
  | x :: l' => if bool_decide (x = c) then [] else x :: truncate_at c l'
  end.

(** "Strip a leading https:// or http:// scheme": the scheme the raw
    string starts with, if it starts with one, is removed. *)
Definition strip_one_scheme (l : list ascii) : list ascii :=
  match strip (bytes "https://") l with
  | Some l' => l'
  | None => strip_leading_text "http://" l
  end.

(** The rules in their order, for a scheme rule [scheme]: scheme, path,
    port, wildcard marker, surrounding white space. *)
Definition rules (scheme : list ascii -> list ascii) (raw : string) : string :=
  TrimSpace
    (of_bytes
       (strip_leading_text "*."
          (truncate_at ":"%char (truncate_at "/"%char (scheme (bytes raw)))))).

(** [normalize(raw) -> string | rejected]: the rules as they are worded,
    and the rejection of the empty result. *)
Definition normalize (raw : string) : option string :=
  let s := rules strip_one_scheme raw in
  if bool_decide (s = "") then None else Some s.

(** The scheme rule as [cleanDomain] has it, to compare with the one
    above: a leading https:// is stripped, and then a leading http:// of
    what is left. *)
Definition strip_both_schemes (l : list ascii) : list ascii :=
  strip_leading_text "http://" (strip_leading_text "https://" l).

End Normalizer.

(** ** Package database: the change-tracking store *)
Module Database.

Abbreviation Time := Z (only parsing).

(** The Go structs handed to and from the store. *)
Record Domain := mkDomain {
  Domain_ID : Z;
  Domain_Domain : string;
  Domain_Program : string;
  Domain_Status : string;            (* "up", "down", "unknown" *)
  Domain_DiscoveredAt : Time;
  Domain_LastChecked : Time;
  Domain_IsNew : bool }.

Record Program := mkProgram {
  Program_ID : Z;
  Program_Name : string;
  Program_Handle : string;
  Program_URL : string;
  Program_Domain : string;
  Program_OffersBounties : bool;
  Program_ProgramType : string;      (* "RDP", "VDP", "BOTH", "UNKNOWN" *)
  Program_LastScanned : Time }.

(** Rows of the tables [createTables] declares. *)
Record programs_row := mkProgramsRow {
  p_id : Z;
  p_name : string;
  p_handle : string;                 (* UNIQUE NOT NULL *)
  p_url : string;
  p_domain : string;
  p_offers_bounties : bool;
  p_program_type : string;
  p_last_scanned : Time;
  p_created_at : Time }.

Record domains_row := mkDomainsRow {
  d_id : Z;                          (* INTEGER PRIMARY KEY AUTOINCREMENT *)
  d_domain : string;
  d_program : string;
  d_status : string;
  d_discovered_at : Time;
  d_last_checked : Time;
  d_is_new : bool;
  d_created_at : Time }.             (* UNIQUE(domain, program) *)

Record status_changes_row := mkStatusChangesRow {
  sc_id : Z;
  sc_domain : string;
  sc_program : string;
  sc_old_status : string;
  sc_new_status : string;
  sc_changed_at : Time;
  sc_notified : bool;
  sc_created_at : Time }.

(** The database behind a [*DB]: the three tables the scan writes, their
    AUTOINCREMENT counters, and [faults], the outcome of the statements
    still to come as the driver will report it ([true]: the statement
    fails and changes nothing; past the end of the list nothing fails). *)
Record DB := mkDB {
  programs : list programs_row;
  programs_seq : Z;
  domains : list domains_row;
  domains_seq : Z;
  status_changes : list status_changes_row;
  status_changes_seq : Z;
  faults : list bool }.

(** The database after [createTables] on a new file. *)
Definition empty (fs : list bool) : DB := mkDB [] 0 [] 0 [] 0 fs.

Definition set_faults (db : DB) (fs : list bool) : DB :=
  mkDB (programs db) (programs_seq db) (domains db) (domains_seq db)
       (status_changes db) (status_changes_seq db) fs.
Definition set_programs (db : DB) (rows : list programs_row) (seq : Z) : DB :=
  mkDB rows seq (domains db) (domains_seq db)
       (status_changes db) (status_changes_seq db) (faults db).
Definition set_domains (db : DB) (rows : list domains_row) (seq : Z) : DB :=
  mkDB (programs db) (programs_seq db) rows seq
       (status_changes db) (status_changes_seq db) (faults db).
Definition set_status_changes (db : DB) (rows : list status_changes_row) (seq : Z) : DB :=
  mkDB (programs db) (programs_seq db) (domains db) (domains_seq db)
       rows seq (faults db).

(** Handing a statement to the driver: whether it fails, and the database
    with that outcome consumed. *)
Definition driver (db : DB) : bool * DB :=
  match faults db with
  | [] => (false, db)
  | b :: fs => (b, set_faults db fs)
  end.

(** The row id AUTOINCREMENT gives the next row: one more than the largest
    id the table ever held. *)
Definition next_id (seq : Z) (ids : list Z) : Z :=
  (foldr Z.max seq ids + 1)%Z.

(** The identity key of a [domains] row. *)
Definition key (r : domains_row) : string * string := (d_domain r, d_program r).

(** [SELECT id, is_new, status FROM domains WHERE domain = ? AND program = ?]
    read by [QueryRow(...).Scan]: the first matching row, [sql.ErrNoRows]
    when there is none. *)
Definition find_domain (db : DB) (domain program : string) : option domains_row :=
  List.find (fun r => bool_decide (key r = (domain, program))) (domains db).

Definition select_domain (db : DB) (domain program : string)
  : DB * (error + Z * bool * string) :=
  let '(failed, db) := driver db in
  if failed then (db, inl ErrDriver)
  else match find_domain db domain program with
       | Some r => (db, inr (d_id r, d_is_new r, d_status r))
       | None => (db, inl ErrNoRows)
       end.

(** [INSERT INTO domains (domain, program, status, discovered_at,
    last_checked, is_new) VALUES (?, ?, ?, ?, ?, 1)] *)
Definition insert_domain (db : DB) (domain program status : string)
    (discovered_at last_checked now : Time) : DB * option error :=
  let '(failed, db) := driver db in
  if failed then (db, Some ErrDriver)
  else if existsb (fun r => bool_decide (key r = (domain, program))) (domains db)
  then (db, Some (ErrUnique "domains.domain, domains.program"))
  else
    let id := next_id (domains_seq db) (map d_id (domains db)) in
    (set_domains db
       (domains db ++
        [mkDomainsRow id domain program status discovered_at last_checked true now])
       id,
     None).

(** [INSERT INTO status_changes (domain, program, old_status, new_status,
    changed_at, notified) VALUES (?, ?, ?, ?, ?, 0)] *)
Definition insert_status_change (db : DB) (domain program old_status new_status : string)
    (changed_at now : Time) : DB * option error :=
  let '(failed, db) := driver db in
  if failed then (db, Some ErrDriver)
  else
    let id := next_id (status_changes_seq db) (map sc_id (status_changes db)) in
    (set_status_changes db
       (status_changes db ++
        [mkStatusChangesRow id domain program old_status new_status changed_at false now])
       id,
     None).

(** [UPDATE domains SET status = ?, last_checked = ?, is_new = ? WHERE id = ?] *)
Definition update_row (status : string) (last_checked : Time) (is_new : bool)
    (r : domains_row) : domains_row :=
  mkDomainsRow (d_id r) (d_domain r) (d_program r) status
               (d_discovered_at r) last_checked is_new (d_created_at r).

Definition update_domain (db : DB) (status : string) (last_checked : Time)
    (is_new : bool) (id : Z) : DB * option error :=
  let '(failed, db) := driver db in
  if failed then (db, Some ErrDriver)
  else
    (set_domains db
       (map (fun r => if bool_decide (d_id r = id)
                      then update_row status last_checked is_new r else r)
            (domains db))
       (domains_seq db),
     None).

(** [INSERT OR REPLACE INTO programs (handle, name, url, domain,
    offers_bounties, program_type, last_scanned) VALUES (...)]: a row with
    the same handle is deleted before the new one is inserted. *)
Definition replace_program (db : DB) (program : Program) (now : Time)
  : DB * option error :=
  let '(failed, db) := driver db in
  if failed then (db, Some ErrDriver)
  else
    let id := next_id (programs_seq db) (map p_id (programs db)) in
    (set_programs db
       (List.filter (fun r => negb (bool_decide (p_handle r = Program_Handle program)))
                    (programs db) ++
        [mkProgramsRow id (Program_Name program) (Program_Handle program)
                       (Program_URL program) (Program_Domain program)
                       (Program_OffersBounties program)
                       (Program_ProgramType program) now now])
       id,
     None).

(** [SaveProgram]. The retry with the old column list is taken only when
    the error text says "no such column"; [createTables] and
    [migrateTables] give the table all columns, and a driver fault is not
    such an error, so the first statement's outcome is returned. *)
Definition SaveProgram (db : DB) (program : Program) (now : Time)
  : DB * option error :=
  replace_program db program now.

(** [SaveDomain]; [now] is the instant [time.Now()] and CURRENT_TIMESTAMP
    give during the call. *)
Definition SaveDomain (db : DB) (domain : Domain) (now : Time) : DB * option error :=
  (* Check if domain already exists and get old status *)
  let '(db, found) :=
    select_domain db (Domain_Domain domain) (Domain_Program domain) in
  match found with
  | inl ErrNoRows =>
      (* New domain *)
      insert_domain db (Domain_Domain domain) (Domain_Program domain)
        (Domain_Status domain) (Domain_DiscoveredAt domain)
        (Domain_LastChecked domain) now
  | inl err => (db, Some err)
  | inr (existingID, existingIsNew, oldStatus) =>
      (* Check if status changed (especially down to up) *)
      let db :=
        if negb (bool_decide (oldStatus = Domain_Status domain)) then
          (* Record status change (errors are ignored) *)
          fst (insert_status_change db (Domain_Domain domain) (Domain_Program domain)
                 oldStatus (Domain_Status domain) now now)
        else db in
      (* Update existing domain *)
      update_domain db (Domain_Status domain) (Domain_LastChecked domain) false existingID
  end.

(** *** [SaveDomain] statement by statement

    The call holds no transaction and no lock: between two of its
    statements another call may run its own. [pc] is the statement a call
    is about to run, with the locals it has read so far. *)
Inductive pc : Type :=
| AtSelect
| AtInsert
| AtChange (existingID : Z) (oldStatus : string)
| AtUpdate (existingID : Z)
| Returned (err : option error).

Definition step (now : Time) (domain : Domain) (db : DB) (at_ : pc) : DB * pc :=
  match at_ with
  | AtSelect =>
      let '(db, found) :=
        select_domain db (Domain_Domain domain) (Domain_Program domain) in
      match found with
      | inl ErrNoRows => (db, AtInsert)
      | inl err => (db, Returned (Some err))
      | inr (existingID, _, oldStatus) =>
          if negb (bool_decide (oldStatus = Domain_Status domain))
          then (db, AtChange existingID oldStatus)
          else (db, AtUpdate existingID)
      end
  | AtInsert =>
      let '(db, err) :=
        insert_domain db (Domain_Domain domain) (Domain_Program domain)
          (Domain_Status domain) (Domain_DiscoveredAt domain)
          (Domain_LastChecked domain) now in
      (db, Returned err)
  | AtChange existingID oldStatus =>
      (fst (insert_status_change db (Domain_Domain domain) (Domain_Program domain)
              oldStatus (Domain_Status domain) now now),
       AtUpdate existingID)
  | AtUpdate existingID =>
      let '(db, err) :=
        update_domain db (Domain_Status domain) (Domain_LastChecked domain)
          false existingID in
      (db, Returned err)
  | Returned err => (db, Returned err)
  end.

(** Calls in progress, each with its argument, and a schedule: the index
    of the call that runs its next statement. *)
Definition calls := list (Domain * pc).

Definition schedule_one (now : Time) (st : DB * calls) (i : nat) : DB * calls :=
  match st.2 !! i with
  | Some (domain, at_) =>
      let '(db, at') := step now domain st.1 at_ in
      (db, <[i := (domain, at')]> st.2)
  | None => st
  end.

Definition interleave (now : Time) (db : DB) (cs : calls) (sched : list nat)
  : DB * calls :=
  foldl (schedule_one now) (db, cs) sched.

(** Calls made one after the other, each returning before the next
    starts; the errors are dropped, as [processProgram] drops them. *)
Definition SaveDomains (now : Time) (db : DB) (obs : list Domain) : DB :=
  foldl (fun db domain => fst (SaveDomain db domain now)) db obs.

(** *** What the specification says of the store, in its words *)

(** The identity key and status of an observation. *)
Definition obs_key (domain : Domain) : string * string :=
  (Domain_Domain domain, Domain_Program domain).

(** The status stored for a key. *)
Definition stored_status (db : DB) (k : string * string) : option string :=
  d_status <$> find_domain db k.1 k.2.

(** The transitions of a sequence of observations: an observation whose
    status differs from the status last known for its key. *)
Fixpoint transitions (known : gmap (string * string) string) (obs : list Domain)
  : list (string * string * string * string) :=
  match obs with
  | [] => []
  | o :: obs' =>
      let k := obs_key o in
      match known !! k with
      | Some old =>
          if bool_decide (old = Domain_Status o) then []
          else [(k.1, k.2, old, Domain_Status o)]
      | None => []
      end ++ transitions (<[k := Domain_Status o]> known) obs'
  end.

Definition change_of (sc : status_changes_row) : string * string * string * string :=
  (sc_domain sc, sc_program sc, sc_old_status sc, sc_new_status sc).

(** The domains table as a map from keys to statuses. *)
Definition known_statuses (db : DB) : gmap (string * string) string :=
  foldr (fun r m => <[key r := d_status r]> m) ∅ (domains db).

(** Whether the driver will fail the [n]-th statement from now. *)
Definition fault_at (n : nat) (db : DB) : bool := nth n (faults db) false.

(** The rows of [domains] after the UPDATE of [SaveDomain]. *)
Definition updated (status : string) (last_checked : Time) (id : Z)
    (rows : list domains_row) : list domains_row :=
  map (fun r => if bool_decide (d_id r = id)
                then update_row status last_checked false r else r) rows.

(** Well-formed tables: the constraints of the schema. *)
Definition unique_keys (db : DB) : Prop := NoDup (map key (domains db)).
Definition unique_ids (db : DB) : Prop := NoDup (map d_id (domains db)).

(** A store and observations to try the definitions on. *)
Definition sample_row : domains_row :=
  mkDomainsRow 1 "example.com" "acme" "down" 10 10 true 10.
Definition sample_db : DB := mkDB [] 0 [sample_row] 1 [] 0 [].
Definition sample_up : Domain := mkDomain 0 "example.com" "acme" "up" 20 20 false.
Definition sample_down : Domain := mkDomain 0 "example.com" "acme" "down" 20 20 false.
Definition sample_new : Domain := mkDomain 0 "api.example.com" "acme" "up" 20 20 false.

End Database.

(** ** Package healthcheck: the reachability prober *)
Module Healthcheck.

(** What one pass of the loop of [CheckDomain] meets for a URL, under the
    caller's context and the client's timeout: [http.NewRequestWithContext]
    fails; [client.Do] fails (connection or TLS error, timeout, cancelled
    context); or a response arrives, with its status code. *)
Inductive attempt : Type :=
| RequestError
| TransportError
| Response (StatusCode : Z).

(** The network, as the client sees it. *)
Definition network := string -> attempt.

Record CheckResult := mkCheckResult {
  CheckResult_Domain : string;
  CheckResult_Status : string;       (* "up", "down", "unknown" *)
  CheckResult_Error : option error }.

(** The loop of [CheckDomain] over the URLs still to try; [log] is the
    list of URLs tried so far. *)
Fixpoint try_urls (net : network) (domain : string) (urls log : list string)
  : CheckResult * list string :=
  match urls with
  | [] =>
      (mkCheckResult domain "down" (Some (ErrMsg "domain not reachable")), log)
  | url :: urls' =>
      let log := log ++ [url] in
      match net url with
      | RequestError => try_urls net domain urls' log
      | TransportError => try_urls net domain urls' log
      | Response StatusCode =>
          (* Consider 2xx, 3xx, and even 4xx as "up" (server is responding) *)
          if (StatusCode <? 500)%Z
          then (mkCheckResult domain "up" None, log)
          else try_urls net domain urls' log
      end
  end.

(** Try HTTPS first, then HTTP. *)
Definition urls_of (domain : string) : list string :=
  ["https://" +:+ domain; "http://" +:+ domain].

Definition CheckDomain_run (net : network) (domain : string)
  : CheckResult * list string :=
  try_urls net domain (urls_of domain) [].

Definition CheckDomain (net : network) (domain : string) : CheckResult :=
  fst (CheckDomain_run net domain).

(** The URLs [CheckDomain] tries, in order. *)
Definition attempts (net : network) (domain : string) : list string :=
  snd (CheckDomain_run net domain).

(** A URL answers: a response arrives, with a status code below 500. *)
Definition answers (net : network) (url : string) : bool :=
  match net url with
  | Response StatusCode => (StatusCode <? 500)%Z
  | _ => false
  end.

(** The network in which every server answers 503 Service Unavailable. *)
Definition unavailable : network := fun _ => Response 503.

(** *** The worker pool of [CheckDomains]

    A worker is about to receive from [domainChan] ([Ready]), holds a
    domain it has received and is about to look at [ctx.Done()]
    ([Holding]), is inside [CheckDomain] ([Probing]), or has returned
    ([Exited]). *)
Inductive worker : Type :=
| Ready
| Holding (domain : string)
| Probing (domain : string)
| Exited.

(** [probed] is not a variable of the program: it lists the domains
    [CheckDomain] was called on. *)
Record pool := mkPool {
  domainChan : list string;
  resultChan : list CheckResult;
  ctxDone : bool;
  workers : list worker;
  probed : list string }.

(** The next step of a worker. *)
Definition step_worker (net : network) (p : pool) (w : worker) : pool * worker :=
  match w with
  | Ready =>
      match domainChan p with
      | [] => (p, Exited)             (* the channel is closed and drained *)
      | domain :: rest =>
          (mkPool rest (resultChan p) (ctxDone p) (workers p) (probed p),
           Holding domain)
      end
  | Holding domain =>
      if ctxDone p then (p, Exited)   (* case <-ctx.Done(): return *)
      else (mkPool (domainChan p) (resultChan p) (ctxDone p) (workers p)
                   (probed p ++ [domain]),
            Probing domain)
  | Probing domain =>
      (mkPool (domainChan p) (resultChan p ++ [CheckDomain net domain])
              (ctxDone p) (workers p) (probed p),
       Ready)
  | Exited => (p, Exited)
  end.

Definition set_worker (p : pool) (i : nat) (w : worker) : pool :=
  mkPool (domainChan p) (resultChan p) (ctxDone p) (<[i := w]> (workers p)) (probed p).

(** What the scheduler and the context decide: the context is cancelled
    (or its deadline passes), or worker [i] takes its next step. *)
Inductive event : Type :=
| Cancel
| Run (i : nat).

Definition run_worker (net : network) (p : pool) (i : nat) : pool :=
  match workers p !! i with
  | Some w => let '(p', w') := step_worker net p w in set_worker p' i w'
  | None => p
  end.

Definition pool_event (net : network) (p : pool) (e : event) : pool :=
  match e with
  | Cancel => mkPool (domainChan p) (resultChan p) true (workers p) (probed p)
  | Run i => run_worker net p i
  end.

(** [wg.Wait()]: once the schedule is spent, every worker still running is
    run until it returns, in the order of the pool. A worker needs at most
    three steps per queued domain and three more. A schedule that already
    brings every worker to its return -- any complete run of the pool is
    one -- is left as it is. *)
Definition finish_worker (net : network) (p : pool) (i : nat) : pool :=
  Nat.iter (3 * length (domainChan p) + 3) (fun p => run_worker net p i) p.

Definition wait (net : network) (p : pool) : pool :=
  foldl (finish_worker net) p (seq 0 (length (workers p))).

(** Collect results, then preserve order. *)
Definition collect (domains : list string) (received : list CheckResult)
  : list CheckResult :=
  let resultMap : gmap string CheckResult :=
    foldl (fun m result => <[CheckResult_Domain result := result]> m) ∅ received in
  map (fun domain =>
         match resultMap !! domain with
         | Some result => result
         | None => mkCheckResult domain "unknown" None
         end)
      domains.

(** The pool when [CheckDomains] has started its [workers] goroutines. *)
Definition start (workers : Z) (domains : list string) : pool :=
  mkPool domains [] false (replicate (Z.to_nat workers) Ready) [].

(** The pool when the last worker has returned. *)
Definition run_pool (net : network) (workers : Z) (sched : list event)
    (domains : list string) : pool :=
  wait net (foldl (pool_event net) (start workers domains) sched).

Definition CheckDomains (net : network) (workers : Z) (sched : list event)
    (domains : list string) : list CheckResult :=
  collect domains (resultChan (run_pool net workers sched domains)).

(** The domains whose probe is in flight. *)
Definition in_flight (p : pool) (domain : string) : Prop :=
  exists j, workers p !! j = Some (Probing domain).

(** What holds of a pool at every moment, for the requested [domains]:
    every result received is the result of [CheckDomain] on a probed
    domain; every probed domain has its result received or its probe in
    flight; and only requested domains are queued, held or probed. *)
Definition pool_inv (net : network) (domains : list string) (p : pool) : Prop :=
  (forall r, r ∈ resultChan p ->
     r = CheckDomain net (CheckResult_Domain r) /\ CheckResult_Domain r ∈ probed p) /\
  (forall d, d ∈ probed p ->
     d ∈ map CheckResult_Domain (resultChan p) \/ in_flight p d) /\
  (forall d, d ∈ domainChan p -> d ∈ domains) /\
  (forall j d, workers p !! j = Some (Holding d) -> d ∈ domains) /\
  (forall d, d ∈ probed p -> d ∈ domains) /\
  (forall d, in_flight p d -> d ∈ probed p).

Ltac split_pool_inv := split; [|split; [|split; [|split; [|split]]]].

(** Steps a worker is from returning, the queue apart. *)
Definition rank (w : worker) : nat :=
  match w with
  | Ready => 1
  | Holding _ => 3
  | Probing _ => 2
  | Exited => 0
  end.

(** The domains [CheckDomain] was called on during [CheckDomains]. *)
Definition probed_domains (net : network) (workers : Z) (sched : list event)
    (domains : list string) : list string :=
  probed (run_pool net workers sched domains).

End Healthcheck.

(** ** Package discovery: the asset expansion adapter *)
Module Discovery.
Import GoStrings.

(** [cmd.Output()] of a subfinder run under the 30 s context: what it
    wrote to standard output, the error of the run, and whether the
    context's deadline had passed ([cmdCtx.Err() == context.DeadlineExceeded]). *)
Record cmd_output := mkOutput {
  stdout : string;
  run_err : option error;
  deadline_exceeded : bool }.

(** The machine the scanner runs on: [exec.LookPath] (the path found, or
    [None]) and the subfinder runs, by domain. *)
Record host := mkHost {
  LookPath : string -> option string;
  subfinder : string -> cmd_output }.

(** [bufio.Scanner] with [ScanLines]: the text between newlines; a last
    line without newline counts when it is not empty. *)
Fixpoint split_lines (l cur : list ascii) : list (list ascii) :=
  match l with
  | [] => if bool_decide (cur = []) then [] else [cur]
  | c :: l' =>
      if bool_decide (c = "010"%char) then cur :: split_lines l' []
      else split_lines l' (cur ++ [c])
  end.

Definition MaxScanTokenSize : nat := 64 * 1024.

(** [scanner.Err()]: a line of [MaxScanTokenSize] bytes or more does not
    fit the buffer. *)
Definition scanner_err (output : string) : option error :=
  if existsb (fun ln => MaxScanTokenSize <=? length ln) (split_lines (bytes output) [])
  then Some (ErrMsg "bufio.Scanner: token too long")
  else None.

(** A trailing carriage return is dropped from each line by the scanner. *)
Definition drop_cr (ln : list ascii) : list ascii :=
  match reverse ln with
  | c :: r => if bool_decide (c = "013"%char) then reverse r else ln
  | [] => ln
  end.

Definition scan_lines (output : string) : list string :=
  map (fun ln => of_bytes (drop_cr ln)) (split_lines (bytes output) []).

(** [DiscoverSubdomains]: subfinder on one domain. *)
Definition DiscoverSubdomains (h : host) (domain : string)
  : list string * option error :=
  (* Check if subfinder is available *)
  match LookPath h "subfinder" with
  | None =>
      ([], Some (ErrWrap "subfinder not found in PATH"
                   (ErrMsg "executable file not found in $PATH")))
  | Some _ =>
      let out := subfinder h domain in
      let output := stdout out in
      let parse :=
        (* Parse output *)
        let subdomains :=
          List.filter (fun line => negb (bool_decide (line = "")))
                      (map TrimSpace (scan_lines output)) in
        match scanner_err output with
        | Some err => ([], Some err)
        | None => (subdomains, None)
        end in
      match run_err out with
      | Some err =>
          (* Check if it's a timeout *)
          if deadline_exceeded out
          then ([], Some (ErrMsg ("subfinder timeout for " +:+ domain)))
          (* subfinder might return non-zero exit code but still have results *)
          else if (len output =? 0)%Z
          then ([], Some (ErrWrap "subfinder failed" err))
          else parse
      | None => parse
      end
  end.

(** The deduplication loop of [DiscoverDomains]: keep the first
    occurrence. *)
Fixpoint dedup (unique : gset string) (l : list string) : list string :=
  match l with
  | [] => []
  | x :: l' =>
      if bool_decide (x ∈ unique) then dedup unique l'
      else x :: dedup ({[x]} ∪ unique) l'
  end.

(** [DiscoverDomains]. One goroutine per base domain runs
    [DiscoverSubdomains] and appends what it found under the mutex;
    [finished] lists, by index into [domains], the goroutines that
    appended before the call stopped waiting, in the order they did (all
    of them unless the five-minute context ended the wait). *)
Definition DiscoverDomains (h : host) (finished : list nat) (domains : list string)
  : list string * option error :=
  (* Check if subfinder is available first *)
  match LookPath h "subfinder" with
  | None =>
      (* If subfinder is not available, return empty (will use base domains only) *)
      ([], None)
  | Some _ =>
      let allSubdomains :=
        concat (map (fun i =>
                       match domains !! i with
                       | Some d =>
                           let '(subdomains, err) := DiscoverSubdomains h d in
                           match err with
                           | Some _ => []
                           | None => subdomains
                           end
                       | None => []
                       end)
                    finished) in
      (* Deduplicate *)
      (dedup ∅ allSubdomains, None)
  end.

End Discovery.

(** ** Package scheduler: the program processor and the scan *)
Module Scheduler.
Import GoStrings Normalizer.

(** [hackerone.Program], its attributes flattened. *)
Record Program := mkProgram {
  Name : string;
  Handle : string;
  URL : string;
  Domain : string;
  OffersBounties : bool;
  SubmissionState : string }.

(** What a scan depends on besides the database: the registry
    ([GetAllPrograms], [GetProgramScope]; an error comes with a nil
    slice), the host and the network, the configured number of health
    check workers, the scheduling of the goroutines of each
    [DiscoverDomains] and [CheckDomains] call, and [strings.ToUpper]. *)
Record world := mkWorld {
  GetAllPrograms : error + list Program;
  GetProgramScope : string -> error + list string;
  host : Discovery.host;
  discovery_finished : list string -> list nat;
  net : Healthcheck.network;
  HealthCheckWorkers : Z;
  pool_schedule : list string -> list Healthcheck.event;
  ToUpper : string -> string }.

(** Determine program type (RDP/VDP). *)
Definition programType (w : world) (program : Program) : string :=
  let submissionState := ToUpper w (SubmissionState program) in
  if Contains submissionState "RDP" || Contains submissionState "REMOTE" then "RDP"
  else if Contains submissionState "VDP" || Contains submissionState "VULNERABILITY"
  then "VDP"
  else if OffersBounties program then "RDP" (* If offers bounties, likely RDP *)
  else "VDP".                               (* Otherwise likely VDP *)

(** The deduplication loop of [processProgram]: clean every domain, keep
    the first occurrence of each non-empty result. *)
Fixpoint finalDomains (uniqueDomains : gset string) (allDomains : list string)
  : list string :=
  match allDomains with
  | [] => []
  | domain :: rest =>
      let cleanDomain := cleanDomain domain in
      if negb (bool_decide (cleanDomain = "")) && negb (bool_decide (cleanDomain ∈ uniqueDomains))
      then cleanDomain :: finalDomains ({[cleanDomain]} ∪ uniqueDomains) rest
      else finalDomains uniqueDomains rest
  end.

(** Save domains to database; an error is logged and the loop goes on. *)
Definition save_results (now : Database.Time) (handle : string)
    (db : Database.DB) (healthResults : list Healthcheck.CheckResult) : Database.DB :=
  foldl (fun db result =>
           fst (Database.SaveDomain db
                  (Database.mkDomain 0 (Healthcheck.CheckResult_Domain result) handle
                     (Healthcheck.CheckResult_Status result) now now false)
                  now))
        db healthResults.

(** [processProgram] from the deduplication on, given the base domains
    and what discovery added. *)
Definition probe_and_save (w : world) (now : Database.Time) (handle : string)
    (db : Database.DB) (scopeDomains discoveredDomains : list string) : Database.DB :=
  (* Start with base domains, add discovered subdomains *)
  let allDomains := scopeDomains ++ discoveredDomains in
  (* Deduplicate *)
  let finalDomains := finalDomains ∅ allDomains in
  (* Check health of domains *)
  let healthResults :=
    Healthcheck.CheckDomains (net w) (HealthCheckWorkers w)
      (pool_schedule w finalDomains) finalDomains in
  save_results now handle db healthResults.

(** The record [processProgram] saves for a program. *)
Definition dbProgram (w : world) (program : Program) : Database.Program :=
  Database.mkProgram 0 (Name program) (Handle program) (URL program)
    (Domain program) (OffersBounties program) (programType w program) 0.

(** The base domains of a program: its scope (an error of the registry
    is only logged, and leaves the scope empty); if no scopes are found,
    the program domain; [None] when there is neither. *)
Definition base_scope (w : world) (program : Program) : option (list string) :=
  let scopeDomains :=
    match GetProgramScope w (Handle program) with
    | inl _ => []
    | inr scopeDomains => scopeDomains
    end in
  if bool_decide (scopeDomains = []) then
    if negb (bool_decide (Domain program = "")) then Some [Domain program]
    else None
  else Some scopeDomains.

Definition processProgram (w : world) (now : Database.Time)
    (db : Database.DB) (program : Program) : Database.DB * option error :=
  (* Save program to database *)
  match Database.SaveProgram db (dbProgram w program) now with
  | (db, Some err) => (db, Some err)
  | (db, None) =>
      (* Get program scope; if no scopes found, try to use program domain *)
      match base_scope w program with
      | None => (db, None)            (* Skip this program but don't error *)
      | Some scopeDomains =>
          (* Discover subdomains (will use base domains if subfinder fails) *)
          let discoveredDomains :=
            match Discovery.DiscoverDomains (host w)
                    (discovery_finished w scopeDomains) scopeDomains with
            | (_, Some _) => []
            | (discoveredDomains, None) => discoveredDomains
            end in
          (probe_and_save w now (Handle program) db scopeDomains discoveredDomains,
           None)
      end
  end.

(** [RunScan]. The goroutines, at most five at a time, are taken in the
    order of the program list; what each [processProgram] returns is
    dropped by the goroutine, and is kept here in a log beside the
    database. *)
Definition process_all (w : world) (now : Database.Time) (db : Database.DB)
    (programs : list Program) : Database.DB * list (string * option error) :=
  foldl (fun st p =>
           let '(db, err) := processProgram w now st.1 p in
           (db, st.2 ++ [(Handle p, err)]))
        (db, []) programs.

Definition RunScan_run (w : world) (now : Database.Time) (db : Database.DB)
  : Database.DB * list (string * option error) * option error :=
  (* Fetch all programs from HackerOne *)
  match GetAllPrograms w with
  | inl err => (db, [], Some (ErrWrap "failed to fetch programs" err))
  | inr programs =>
      (* Process programs in parallel *)
      (process_all w now db programs, None)
  end.

Definition RunScan (w : world) (now : Database.Time) (db : Database.DB)
  : Database.DB * option error :=
  let '(db, _, err) := RunScan_run w now db in (db, err).

(** A world to try the definitions on: subfinder is not installed; the
    registry lists three programs, and fails on the scope of the second;
    two servers answer. *)
Definition sample_programs : list Program :=
  [ mkProgram "Acme" "acme" "https://hackerone.com/acme" "acme.example" true "open";
    mkProgram "Globex" "globex" "https://hackerone.com/globex" "" false "open";
    mkProgram "Initech" "initech" "https://hackerone.com/initech" "" false "open" ].

Definition sample_world : world :=
  mkWorld
    (inr sample_programs)
    (fun handle =>
       if bool_decide (handle = "acme")
       then inr ["https://*.acme.example/"; "api.acme.example:8443"; "acme.example"]
       else if bool_decide (handle = "globex") then inl (ErrMsg "HackerOne API error")
       else inr ["http://initech.example/app"])
    (Discovery.mkHost (fun _ => None)
                      (fun _ => Discovery.mkOutput "" None false))
    (fun _ => [])
    (fun url =>
       if bool_decide (url = "https://acme.example") then Healthcheck.Response 200
       else if bool_decide (url = "http://initech.example") then Healthcheck.Response 404
       else Healthcheck.TransportError)
    2
    (fun _ => [])
    (fun s => s).

End Scheduler.

(** ** More of Go's standard library: [strings.Join], [strings.Split],
    [strings.SplitN] and [strconv.Atoi] *)
Module GoStd.
Import GoStrings.

(** [strings.Join(elems, sep)] *)
Fixpoint Join (elems : list string) (sep : string) : string :=
  match elems with
  | [] => ""
  | x :: rest =>
      match rest with
      | [] => x
      | _ :: _ => x +:+ sep +:+ Join rest sep
      end
  end.

(** The pieces of [l] between the instances of the byte [sep]; [cur] is
    the piece being read. *)
Fixpoint split_bytes (sep : ascii) (l cur : list ascii) : list (list ascii) :=
  match l with
  | [] => [cur]
  | c :: l' =>
      if bool_decide (c = sep) then cur :: split_bytes sep l' []
      else split_bytes sep l' (cur ++ [c])
  end.

(** [strings.Split(s, sep)] for a separator of one byte, as the program
    calls it: [Split("", ",")] is the list of one empty string. *)
Definition Split (s : string) (sep : ascii) : list string :=
  map of_bytes (split_bytes sep (bytes s) []).

(** [strings.SplitN(s, sep, 2)] for a separator that is not empty: [s]
    cut at the first instance of [sep], or [s] alone. *)
Definition SplitN2 (s sep : string) : list string :=
  let m := Index s sep in
  if (m <? 0)%Z then [s]
  else [slice_to s m; slice_from s (m + len sep)].

(** *** [strconv.Atoi]

    An optional sign, then decimal digits, nothing else. The value comes
    with the error: [0] on a syntax error, the nearest [int] on a range
    error ([int] has 64 bits). *)
Definition digit (c : ascii) : option Z :=
  let n := Z.of_N (N_of_ascii c) in
  if (48 <=? n)%Z && (n <=? 57)%Z then Some (n - 48)%Z else None.

Fixpoint digits (acc : Z) (l : list ascii) : option Z :=
  match l with
  | [] => Some acc
  | c :: l' =>
      match digit c with
      | Some d => digits (acc * 10 + d) l'
      | None => None
      end
  end.

Definition maxInt : Z := 2 ^ 63 - 1.
Definition minInt : Z := - 2 ^ 63.
Definition ErrSyntax : error := ErrMsg "invalid syntax".
Definition ErrRange : error := ErrMsg "value out of range".

Definition Atoi (s : string) : Z * option error :=
  let '(neg, ds) :=
    match bytes s with
    | c :: rest =>
        if bool_decide (c = "-"%char) then (true, rest)
        else if bool_decide (c = "+"%char) then (false, rest)
        else (false, c :: rest)
    | [] => (false, [])
    end in
  match ds with
  | [] => (0, Some ErrSyntax)
  | _ :: _ =>
      match digits 0 ds with
      | None => (0, Some ErrSyntax)
      | Some n =>
          let v := if neg : bool then (- n)%Z else n in
          if (maxInt <? v)%Z then (maxInt, Some ErrRange)
          else if (v <? minInt)%Z then (minInt, Some ErrRange)
          else (v, None)
      end
  end%Z.

End GoStd.

(** ** Package database: the queries of the web interface *)
Module Queries.
Import Database.

Record StatusChange := mkStatusChange {
  StatusChange_ID : Z;
  StatusChange_Domain : string;
  StatusChange_Program : string;
  StatusChange_OldStatus : string;
  StatusChange_NewStatus : string;
  StatusChange_ChangedAt : Time;
  StatusChange_Notified : bool }.

(** A call leaves the tables as they were. *)
Definition same_tables (db db' : DB) : Prop :=
  programs db' = programs db /\ programs_seq db' = programs_seq db /\
  domains db' = domains db /\ domains_seq db' = domains_seq db /\
  status_changes db' = status_changes db /\
  status_changes_seq db' = status_changes_seq db.

(** [rows.Scan] into the Go structs. *)
Definition scan_domain (r : domains_row) : Domain :=
  mkDomain (d_id r) (d_domain r) (d_program r) (d_status r)
           (d_discovered_at r) (d_last_checked r) (d_is_new r).

Definition scan_program (r : programs_row) : Program :=
  mkProgram (p_id r) (p_name r) (p_handle r) (p_url r) (p_domain r)
            (p_offers_bounties r) (p_program_type r) (p_last_scanned r).

Definition scan_status_change (r : status_changes_row) : StatusChange :=
  mkStatusChange (sc_id r) (sc_domain r) (sc_program r) (sc_old_status r)
                 (sc_new_status r) (sc_changed_at r) (sc_notified r).

(** [ORDER BY at DESC]: the latest first. SQLite leaves the order of rows
    with equal instants open; the sort used here keeps one of them. *)
Definition latest_first {A} (at_ : A -> Time) (a b : A) : Prop := (at_ b <= at_ a)%Z.

#[global] Instance latest_first_dec {A} (at_ : A -> Time) : RelDecision (latest_first at_) :=
  fun a b => decide (at_ b <= at_ a)%Z.

Definition order_by_desc {A} (at_ : A -> Time) (rows : list A) : list A :=
  merge_sort (latest_first at_) rows.

(** [LIMIT ?]: at most [limit] rows; a negative limit is no limit. *)
Definition limit_rows {A} (limit : Z) (rows : list A) : list A :=
  if (limit <? 0)%Z then rows else take (Z.to_nat limit) rows.

(** [SELECT ... FROM domains WHERE cond ORDER BY discovered_at DESC LIMIT ?] *)
Definition select_domains (db : DB) (cond : domains_row -> bool) (limit : Z)
  : DB * (list Domain * option error) :=
  let '(failed, db) := driver db in
  if failed then (db, ([], Some ErrDriver))
  else
    (db,
     (map scan_domain
        (limit_rows limit
           (order_by_desc d_discovered_at (List.filter cond (domains db)))),
      None)).

Definition GetNewDomains (db : DB) (limit : Z) : DB * (list Domain * option error) :=
  select_domains db (fun r => d_is_new r) limit.

Definition GetDomainsByProgram (db : DB) (program : string) (limit : Z)
  : DB * (list Domain * option error) :=
  select_domains db (fun r => bool_decide (d_program r = program)) limit.

(** [SELECT COUNT( * ) FROM table WHERE cond] read by [QueryRow(...).Scan]. *)
Definition count {A} (cond : A -> bool) (rows : list A) : Z :=
  Z.of_nat (length (List.filter cond rows)).

Definition select_count {A} (db : DB) (cond : A -> bool) (rows : DB -> list A)
  : DB * (error + Z) :=
  let '(failed, db) := driver db in
  if failed then (db, inl ErrDriver) else (db, inr (count cond (rows db))).

(** [GetStats]; on an error the map returned is nil. *)
Definition GetStats (db : DB) : DB * (gmap string Z * option error) :=
  let stats : gmap string Z := ∅ in
  (* Total domains *)
  match select_count db (fun _ => true) domains with
  | (db, inl err) => (db, (∅, Some err))
  | (db, inr totalDomains) =>
  let stats := <["total_domains" := totalDomains]> stats in
  (* New domains *)
  match select_count db (fun r => d_is_new r) domains with
  | (db, inl err) => (db, (∅, Some err))
  | (db, inr newDomains) =>
  let stats := <["new_domains" := newDomains]> stats in
  (* Up domains *)
  match select_count db (fun r => bool_decide (d_status r = "up")) domains with
  | (db, inl err) => (db, (∅, Some err))
  | (db, inr upDomains) =>
  let stats := <["up_domains" := upDomains]> stats in
  (* Down domains *)
  match select_count db (fun r => bool_decide (d_status r = "down")) domains with
  | (db, inl err) => (db, (∅, Some err))
  | (db, inr downDomains) =>
  let stats := <["down_domains" := downDomains]> stats in
  (* Total programs *)
  match select_count db (fun _ => true) programs with
  | (db, inl err) => (db, (∅, Some err))
  | (db, inr totalPrograms) =>
  let stats := <["total_programs" := totalPrograms]> stats in
  (db, (stats, None))
  end end end end end.

(** [UPDATE domains SET is_new = 0 WHERE is_new = 1] *)
Definition MarkDomainsAsOld (db : DB) : DB * option error :=
  let '(failed, db) := driver db in
  if failed then (db, Some ErrDriver)
  else
    (set_domains db
       (map (fun r => if d_is_new r
                      then mkDomainsRow (d_id r) (d_domain r) (d_program r) (d_status r)
                             (d_discovered_at r) (d_last_checked r) false (d_created_at r)
                      else r)
            (domains db))
       (domains_seq db),
     None).

(** The loop of [GetStatusChanges] over the rows of its query:
    [rows.Scan] of each row in turn, the change appended to [changes]. A
    Scan the driver fails ends the call with that error and with no
    change ([return nil, err]). *)
Fixpoint scan_status_changes (db : DB) (rows : list status_changes_row)
    (changes : list StatusChange) : DB * (list StatusChange * option error) :=
  match rows with
  | [] => (db, (changes, None))
  | r :: rows =>
      let '(failed, db) := driver db in
      if failed then (db, ([], Some ErrDriver))
      else scan_status_changes db rows (changes ++ [scan_status_change r])
  end.

(** [GetStatusChanges]. The table exists since [createTables]. An error
    of the check for the table or of the query gives an empty list and
    no error; the error of a Scan is returned. *)
Definition GetStatusChanges (db : DB) (limit : Z) (onlyUnnotified : bool)
  : DB * (list StatusChange * option error) :=
  (* Check if status_changes table exists *)
  let '(failed, db) := driver db in
  if failed then (db, ([], None))
  else
    let cond := fun r => if onlyUnnotified then negb (sc_notified r) else true in
    let '(failed, db) := driver db in
    if failed then (db, ([], None)) (* Return empty instead of error *)
    else
      scan_status_changes db
        (limit_rows limit
           (order_by_desc sc_changed_at (List.filter cond (status_changes db))))
        [].

(** [UPDATE status_changes SET notified = 1 WHERE id = ?] *)
Definition MarkStatusChangeNotified (db : DB) (id : Z) : DB * option error :=
  let '(failed, db) := driver db in
  if failed then (db, Some ErrDriver)
  else
    (set_status_changes db
       (map (fun r => if bool_decide (sc_id r = id)
                      then mkStatusChangesRow (sc_id r) (sc_domain r) (sc_program r)
                             (sc_old_status r) (sc_new_status r) (sc_changed_at r)
                             true (sc_created_at r)
                      else r)
            (status_changes db))
       (status_changes_seq db),
     None).

(** *** The programs

    [GetPrograms] asks how many of the columns [domain], [offers_bounties]
    and [program_type] the table has: three, in the table [createTables]
    makes and [migrateTables] completes. It first scans this count into
    the bool [hasNewColumns]; [database/sql] converts an integer to a bool
    only when it is 0 or 1, and any other integer is an error of [Scan]
    that leaves the destination as it was. *)
Definition new_columns : Z := 3.

Definition scan_bool (v : Z) : option bool :=
  if (v =? 0)%Z then Some false
  else if (v =? 1)%Z then Some true
  else None.

Definition GetPrograms (db : DB) : DB * (list Program * option error) :=
  (* Check if new columns exist, if not use old schema *)
  let '(failed, db) := driver db in
  let scanned := if failed then None else scan_bool new_columns in
  let '(hasNewColumns, db) :=
    match scanned with
    | Some _ =>                       (* err == nil *)
        let '(failed, db) := driver db in
        let count := if failed then 0%Z else new_columns in
        ((count =? 3)%Z, db)
    | None => (false, db)
    end in
  let '(failed, db) := driver db in
  if failed then (db, ([], Some ErrDriver))
  else
    (db,
     (map (fun r =>
             if hasNewColumns then scan_program r
             else
               (* Set defaults for old schema *)
               mkProgram (p_id r) (p_name r) (p_handle r) (p_url r)
                         "" false "UNKNOWN" (p_last_scanned r))
          (programs db),
      None)).

(** [SELECT ... FROM programs WHERE cond] *)
Definition select_programs (db : DB) (cond : programs_row -> bool)
  : DB * (list Program * option error) :=
  let '(failed, db) := driver db in
  if failed then (db, ([], Some ErrDriver))
  else (db, (map scan_program (List.filter cond (programs db)), None)).

Definition GetProgramsByType (db : DB) (programType : string)
  : DB * (list Program * option error) :=
  select_programs db (fun r => bool_decide (p_program_type r = programType)).

Definition GetProgramsWithBounties (db : DB) : DB * (list Program * option error) :=
  select_programs db (fun r => p_offers_bounties r).

(** *** The table [domain_info]

    [domain] is UNIQUE: INSERT OR REPLACE deletes the row of the same
    domain, whatever its program. *)
Record DomainInfo := mkDomainInfo {
  DomainInfo_Domain : string;
  DomainInfo_Program : string;
  DomainInfo_Status : string;
  DomainInfo_Title : string;
  DomainInfo_StatusCode : Z;
  DomainInfo_Technologies : list string;
  DomainInfo_LastChecked : Time }.

Record domain_info_row := mkDomainInfoRow {
  di_id : Z;
  di_domain : string;
  di_program : string;
  di_status : string;
  di_title : string;
  di_status_code : Z;
  di_technologies : string;
  di_last_checked : Time;
  di_created_at : Time;
  di_updated_at : Time }.

(** The database with its fourth table. *)
Record InfoDB := mkInfoDB {
  tables : DB;
  domain_info : list domain_info_row;
  domain_info_seq : Z }.

Definition SaveDomainInfo (s : InfoDB) (info : DomainInfo) (now : Time)
  : InfoDB * option error :=
  let techsStr := GoStd.Join (DomainInfo_Technologies info) "," in
  let '(failed, db) := driver (tables s) in
  if failed then (mkInfoDB db (domain_info s) (domain_info_seq s), Some ErrDriver)
  else
    let id := next_id (domain_info_seq s) (map di_id (domain_info s)) in
    (mkInfoDB db
       (List.filter (fun r => negb (bool_decide (di_domain r = DomainInfo_Domain info)))
                    (domain_info s) ++
        [mkDomainInfoRow id (DomainInfo_Domain info) (DomainInfo_Program info)
           (DomainInfo_Status info) (DomainInfo_Title info) (DomainInfo_StatusCode info)
           techsStr (DomainInfo_LastChecked info) now now])
       id,
     None).

(** [GetDomainInfo]: the pointer returned is nil on an error. *)
Definition GetDomainInfo (s : InfoDB) (domain : string)
  : InfoDB * (option DomainInfo * option error) :=
  let '(failed, db) := driver (tables s) in
  let s := mkInfoDB db (domain_info s) (domain_info_seq s) in
  if failed then (s, (None, Some ErrDriver))
  else
    match List.find (fun r => bool_decide (di_domain r = domain)) (domain_info s) with
    | None => (s, (None, Some ErrNoRows))
    | Some r =>
        let techsStr := di_technologies r in
        let Technologies :=
          if negb (bool_decide (techsStr = "")) then GoStd.Split techsStr ","%char
          else [] in
        (s,
         (Some (mkDomainInfo (di_domain r) (di_program r) (di_status r) (di_title r)
                  (di_status_code r) Technologies (di_last_checked r)),
          None))
    end.

End Queries.

(** ** Package config *)
Module Config.
Import GoStrings.

(** The process as [Load] sees it: [os.Getenv] (the empty string for a
    variable that is not set) and [os.ReadFile] ([None] on an error). *)
Record os := mkOs {
  Getenv : string -> string;
  ReadFile : string -> option string }.

(** A [time.Duration] is a number of nanoseconds. *)
Abbreviation Duration := Z (only parsing).
Definition Second : Duration := 1000000000.
Definition Hour : Duration := 3600 * Second.

Record Config := mkConfig {
  HackerOneToken : string;
  DatabasePath : string;
  WebPort : string;
  HealthCheckTimeout : Duration;
  HealthCheckWorkers : Z;
  ScanInterval : Duration;
  SubfinderConfigPath : string }.

Definition getEnv (o : os) (key defaultValue : string) : string :=
  let value := Getenv o key in
  if negb (bool_decide (value = "")) then value else defaultValue.

Definition getIntEnv (o : os) (key : string) (defaultValue : Z) : Z :=
  let value := Getenv o key in
  if negb (bool_decide (value = "")) then
    match GoStd.Atoi value with
    | (intValue, None) => intValue
    | (_, Some _) => defaultValue
    end
  else defaultValue.

Section Load.

(** [time.ParseDuration], taken as given: the duration, or [None] on an
    error. *)
Variable ParseDuration : string -> option Duration.

Definition getDurationEnv (o : os) (key : string) (defaultValue : Duration) : Duration :=
  let value := Getenv o key in
  if negb (bool_decide (value = "")) then
    match ParseDuration value with
    | Some duration => duration
    | None => defaultValue
    end
  else defaultValue.

Definition Load (o : os) : Config * option error :=
  let HackerOneToken := getEnv o "HACKERONE_TOKEN" "" in
  let HackerOneToken :=
    if bool_decide (HackerOneToken = "") then
      (* Try to read from file *)
      match ReadFile o ".hackerone_token" with
      | Some token => TrimSpace token
      | None => HackerOneToken
      end
    else HackerOneToken in
  (* Trim whitespace from token *)
  let HackerOneToken := TrimSpace HackerOneToken in
  (mkConfig HackerOneToken
            (getEnv o "DATABASE_PATH" "./watchtower.db")
            (getEnv o "WEB_PORT" "8080")
            (getDurationEnv o "HEALTH_CHECK_TIMEOUT" (10 * Second))
            (getIntEnv o "HEALTH_CHECK_WORKERS" 50)
            (getDurationEnv o "SCAN_INTERVAL" (24 * Hour))
            (getEnv o "SUBFINDER_CONFIG" ""),
   None).

End Load.

(** The environment of a process with these variables set, in which no
    file can be read. *)
Definition env_of (vars : list (string * string)) : os :=
  mkOs (fun key =>
          match List.find (fun kv => bool_decide (kv.1 = key)) vars with
          | Some kv => kv.2
          | None => ""
          end)
       (fun _ => None).

End Config.

(** ** Package hackerone: the registry client *)
Module Hackerone.
Import GoStrings.

(** The header [setAuth] gives a request. *)
Inductive authorization : Type :=
| NoAuthorization
| BasicAuth (username password : string)   (* req.SetBasicAuth *)
| Bearer (token : string).                 (* Authorization: Bearer token *)

(** What a GET meets: the request cannot be made or sent, or a response
    arrives, with its status code, its body, and what decoding the body
    as JSON gives. *)
Inductive response (A : Type) : Type :=
| Failed (err : error)
| Answer (StatusCode : Z) (body : string) (decoded : error + A).
Arguments Failed {A} err.
Arguments Answer {A} StatusCode body decoded.

Record ProgramsResponse := mkProgramsResponse {
  Data : list Scheduler.Program;
  Next : option string }.                  (* links.next *)

(** The attributes of a structured scope the client reads. *)
Record scope := mkScope {
  AssetIdentifier : string;
  AssetType : string }.

Record included := mkIncluded {
  included_ID : string;
  included_Type : string;
  included_Attributes : scope }.

(** The program with its included scopes: the ids under
    [data.relationships.structured_scopes.data], and [included]. *)
Record programResponse := mkProgramResponse {
  StructuredScopes : list string;
  Included : list included }.

(** The client, with the registry it talks to: each endpoint, by
    authorization and URL. *)
Record Client := mkClient {
  token : string;
  baseURL : string;
  get_programs : authorization -> string -> response ProgramsResponse;
  get_scopes : authorization -> string -> response (list scope);
  get_program : authorization -> string -> response programResponse }.

Definition NewClient (token : string)
    (get_programs : authorization -> string -> response ProgramsResponse)
    (get_scopes : authorization -> string -> response (list scope))
    (get_program : authorization -> string -> response programResponse) : Client :=
  (* Trim whitespace from token *)
  let token := TrimSpace token in
  mkClient token "https://api.hackerone.com/v1" get_programs get_scopes get_program.

Definition setAuth (c : Client) : authorization :=
  if bool_decide (token c = "") then NoAuthorization
  (* Check if token contains a colon (username:token format) *)
  else if Contains (token c) ":" then
    match GoStd.SplitN2 (token c) ":" with
    | [username; password] => BasicAuth username password
    | _ => Bearer (token c)            (* Fallback: use token as Bearer *)
    end
  else Bearer (token c).

(** The loop of [GetAllPrograms], one page per unit of [fuel]; [None]
    when the fuel is spent before the loop ends. *)
Fixpoint fetch_pages (fuel : nat) (c : Client) (url : string)
    (allPrograms : list Scheduler.Program)
  : option (list Scheduler.Program * option error) :=
  if bool_decide (url = "") then Some (allPrograms, None)
  else
    match fuel with
    | O => None
    | S fuel' =>
        match get_programs c (setAuth c) url with
        | Failed err => Some ([], Some err)
        | Answer StatusCode body decoded =>
            if negb (StatusCode =? 200)%Z then
              if (StatusCode =? 401)%Z then
                Some ([], Some (ErrMsg ("HackerOne API authentication failed (401). Please check your API token. Token format should be either 'username:token' for Basic Auth or just the token for Bearer Auth. Error: " +:+ body)))
              else
                Some ([], Some (ErrMsg ("HackerOne API error: " +:+ pretty StatusCode
                                        +:+ " - " +:+ body)))
            else
              match decoded with
              | inl err => Some ([], Some err)
              | inr programsResp =>
                  (* Check for next page *)
                  let url := match Next programsResp with
                             | Some next => next
                             | None => ""
                             end in
                  fetch_pages fuel' c url (allPrograms ++ Data programsResp)
              end
        end
    end.

Definition GetAllPrograms (fuel : nat) (c : Client)
  : option (list Scheduler.Program * option error) :=
  fetch_pages fuel c (baseURL c +:+ "/hackers/programs") [].

(** The pages of the program list as the registry links them: from
    [url], each page answered with status 200 and decoded, up to the page
    that has no next link (or an empty one). *)
Inductive pages_from (c : Client) : string -> list ProgramsResponse -> Prop :=
| pages_end : pages_from c "" []
| pages_next url body page rest :
    url <> "" ->
    get_programs c (setAuth c) url = Answer 200 body (inr page) ->
    pages_from c (default "" (Next page)) rest ->
    pages_from c url (page :: rest).

(** A registry every page of which links to itself. *)
Definition looping : Client :=
  mkClient "token" "https://api.hackerone.com/v1"
    (fun _ url => Answer 200 "" (inr (mkProgramsResponse [] (Some url))))
    (fun _ _ => Answer 404 "" (inr []))
    (fun _ _ => Answer 404 "" (inr (mkProgramResponse [] []))).

(** Include domains, URLs, and wildcards. *)
Definition is_domain_asset (assetType : string) : bool :=
  bool_decide (assetType = "URL") || bool_decide (assetType = "DOMAIN")
  || bool_decide (assetType = "WILDCARD").

Definition getProgramScopesDirect (c : Client) (handle : string)
  : list string * option error :=
  let url := baseURL c +:+ "/hackers/programs/" +:+ handle +:+ "/structured_scopes" in
  match get_scopes c (setAuth c) url with
  | Failed err => ([], Some err)
  | Answer StatusCode _ decoded =>
      if negb (StatusCode =? 200)%Z then ([], None)
      else
        match decoded with
        | inl _ => ([], None)
        | inr scopesResponse =>
            (map AssetIdentifier
               (List.filter (fun scope => is_domain_asset (AssetType scope)) scopesResponse),
             None)
        end
  end.

(** Map scope IDs to actual scope data from included array. *)
Definition scopeMap_of (l : list included) : gmap string scope :=
  foldl (fun m inc =>
           if bool_decide (included_Type inc = "structured-scope")
           then <[included_ID inc := included_Attributes inc]> m
           else m)
        ∅ l.

Definition GetProgramScope (c : Client) (handle : string) : list string * option error :=
  (* Try the direct structured_scopes endpoint first (more reliable) *)
  let '(domains, err) := getProgramScopesDirect c handle in
  if match err with None => true | Some _ => false end && (0 <? length domains)
  then (domains, None)
  else
    (* Fallback: try to get from program endpoint with included scopes *)
    let url := baseURL c +:+ "/hackers/programs/" +:+ handle
               +:+ "?include=structured_scopes" in
    match get_program c (setAuth c) url with
    | Failed err => ([], Some err)
    | Answer StatusCode body decoded =>
        if negb (StatusCode =? 200)%Z then
          if (StatusCode =? 401)%Z then
            ([], Some (ErrMsg ("HackerOne API authentication failed (401) for program scope. Please check your API token. Error: " +:+ body)))
          else ([], None)
        else
          match decoded with
          | inl _ => ([], None)
          | inr programResponse =>
              let scopeMap := scopeMap_of (Included programResponse) in
              (concat
                 (map (fun scopeRef =>
                         match scopeMap !! scopeRef with
                         | Some scope =>
                             if is_domain_asset (AssetType scope)
                             then [AssetIdentifier scope] else []
                         | None => []
                         end)
                      (StructuredScopes programResponse)),
               None)
          end
    end.

End Hackerone.

(** ** The scan and its registry client *)
Module Scan.
Import Database Scheduler.






End Scan.

(** ** Package enrichment: the httpx adapter *)
Module Enrichment.
Import GoStrings.

(** The JSON object httpx prints, as [EnrichDomain] declares it. *)
Record httpxResult := mkHttpxResult {
  httpx_URL : string;
  httpx_StatusCode : Z;
  httpx_Title : string;
  httpx_Technologies : list string;
  httpx_Server : string;
  httpx_ContentType : string;
  httpx_ContentLength : Z }.

Record DomainDetails := mkDomainDetails {
  Domain : string;
  Status : string;
  StatusCode : Z;
  Title : string;
  Technologies : list string;
  Server : string;
  ContentType : string;
  ContentLength : Z }.

(** The machine: [exec.LookPath]; [cmd.Output()] of a httpx run under its
    30 s context, by the URL given with [-u]; and [json.Unmarshal] into
    the struct above ([None] on an error). *)
Record host := mkHost {
  LookPath : string -> option string;
  httpx : string -> string * option error;
  Unmarshal : string -> option httpxResult }.

(** What a run on [url] gives [EnrichDomain] to report: the run succeeds,
    prints something, and what it prints parses. *)
Definition result_of (h : host) (url : string) : option httpxResult :=
  let '(output, err) := httpx h url in
  match err with
  | Some _ => None
  | None => if (len output =? 0)%Z then None else Unmarshal h output
  end.

Definition up (domain : string) (httpxResult : httpxResult) : DomainDetails :=
  mkDomainDetails domain "up" (httpx_StatusCode httpxResult) (httpx_Title httpxResult)
    (httpx_Technologies httpxResult) (httpx_Server httpxResult)
    (httpx_ContentType httpxResult) (httpx_ContentLength httpxResult).

(** [&DomainDetails{Domain: domain, Status: status}] *)
Definition only_status (domain status : string) : DomainDetails :=
  mkDomainDetails domain status 0 "" [] "" "" 0.

Definition enrichDomainHTTP (h : host) (domain : string)
  : option DomainDetails * option error :=
  let '(output, err) := httpx h ("http://" +:+ domain) in
  match err with
  | Some _ => (Some (only_status domain "down"), None)
  | None =>
      if (len output =? 0)%Z then (Some (only_status domain "down"), None)
      else
        match Unmarshal h output with
        | None => (Some (only_status domain "unknown"), None)
        | Some httpxResult => (Some (up domain httpxResult), None)
        end
  end.

Definition EnrichDomain (h : host) (domain : string)
  : option DomainDetails * option error :=
  (* Check if httpx is available *)
  match LookPath h "httpx" with
  | None =>
      (None, Some (ErrWrap "httpx not found in PATH"
                     (ErrMsg "executable file not found in $PATH")))
  | Some _ =>
      let '(output, err) := httpx h ("https://" +:+ domain) in
      match err with
      | Some _ => enrichDomainHTTP h domain     (* Try HTTP if HTTPS fails *)
      | None =>
          if (len output =? 0)%Z then enrichDomainHTTP h domain
          else
            match Unmarshal h output with
            | None => enrichDomainHTTP h domain (* If JSON parsing fails, try HTTP *)
            | Some httpxResult => (Some (up domain httpxResult), None)
            end
      end
  end.

(** [EnrichDomains]. One goroutine per domain; [order] lists them, by
    index into [domains], in the order they take the mutex. [wg.Wait()]
    lets every one of them finish. *)
Definition EnrichDomains (h : host) (order : list nat) (domains : list string)
  : gmap string DomainDetails :=
  foldl (fun results i =>
           match domains !! i with
           | Some d =>
               match EnrichDomain h d with
               | (Some details, None) => <[d := details]> results
               | _ => results
               end
           | None => results
           end)
        ∅ order.

End Enrichment.

(** ** Package server: the handlers of the web interface *)
Module Server.
Import Database Queries.

(** The request as a handler reads it: the query string ([None] for a
    key it does not have) and the parameters of the path. *)
Record Context := mkContext {
  query : string -> option string;
  Param : string -> string }.

Definition Query (c : Context) (key : string) : string := default "" (query c key).
Definition DefaultQuery (c : Context) (key defaultValue : string) : string :=
  default defaultValue (query c key).

(** What a handler answers: [http.StatusOK] with a payload, or
    [http.StatusInternalServerError] with the error. *)
Inductive answer (A : Type) : Type :=
| StatusOK (payload : A)
| StatusInternalServerError (err : error).
Arguments StatusOK {A} payload.
Arguments StatusInternalServerError {A} err.

Definition reply {A} (r : DB * (A * option error)) : DB * answer A :=
  match r with
  | (db, (_, Some err)) => (db, StatusInternalServerError err)
  | (db, (payload, None)) => (db, StatusOK payload)
  end.

(** [limit, err := strconv.Atoi(limitStr); if err != nil { limit = d }] *)
Definition limit_or (c : Context) (defaultStr : string) (d : Z) : Z :=
  match GoStd.Atoi (DefaultQuery c "limit" defaultStr) with
  | (limit, None) => limit
  | (_, Some _) => d
  end.

(** [limit, _ := strconv.Atoi(limitStr)] *)
Definition limit_unchecked (c : Context) (defaultStr : string) : Z :=
  (GoStd.Atoi (DefaultQuery c "limit" defaultStr)).1.

Definition getStats (db : DB) (c : Context) : DB * answer (gmap string Z) :=
  reply (GetStats db).

Definition getNewDomains (db : DB) (c : Context) : DB * answer (list Domain) :=
  let limit := limit_or c "100" 100 in
  reply (GetNewDomains db limit).

Definition getDomains (db : DB) (c : Context) : DB * answer (list Domain) :=
  let limit := limit_or c "100" 100 in
  let program := Query c "program" in
  if negb (bool_decide (program = "")) then reply (GetDomainsByProgram db program limit)
  else reply (GetNewDomains db limit). (* Get new domains by default *)

Definition getDomainsByProgram (db : DB) (c : Context) : DB * answer (list Domain) :=
  let program := Param c "program" in
  let limit := limit_or c "100" 100 in
  reply (GetDomainsByProgram db program limit).

Definition getPrograms (db : DB) (c : Context) : DB * answer (list Program) :=
  reply (GetPrograms db).

(** The page of domains: [Domains], [Programs] and [SelectedProgram]. *)
Definition domainsPage (db : DB) (c : Context)
  : DB * answer (list Domain * list Program * string) :=
  let program := Query c "program" in
  let limit := limit_unchecked c "100" in
  let '(db, (domains, err)) :=
    if negb (bool_decide (program = "")) then GetDomainsByProgram db program limit
    else GetNewDomains db limit in
  match err with
  | Some err => (db, StatusInternalServerError err)
  | None =>
      let '(db, (programs, _)) := GetPrograms db in
      (db, StatusOK (domains, programs, program))
  end.

(** The page of programs: [Programs], [ProgramType] and [BountiesOnly]. *)
Definition programsPage (db : DB) (c : Context)
  : DB * answer (list Program * string * bool) :=
  let programType := Query c "type" in
  let bountiesOnly := bool_decide (Query c "bounties" = "true") in
  let '(db, (programs, err)) :=
    if bool_decide (programType = "RDP") then GetProgramsByType db "RDP"
    else if bool_decide (programType = "VDP") then GetProgramsByType db "VDP"
    else if bountiesOnly then GetProgramsWithBounties db
    else GetPrograms db in
  match err with
  | Some err => (db, StatusInternalServerError err)
  | None => (db, StatusOK (programs, programType, bountiesOnly))
  end.

Definition getStatusChanges (db : DB) (c : Context) : DB * answer (list StatusChange) :=
  let limit := limit_or c "50" 50 in
  reply (GetStatusChanges db limit false).

Definition getUnnotifiedStatusChanges (db : DB) (c : Context)
  : DB * answer (list StatusChange) :=
  let limit := limit_or c "50" 50 in
  reply (GetStatusChanges db limit true).

Definition statusChangesPage (db : DB) (c : Context) : DB * answer (list StatusChange) :=
  let limit := limit_unchecked c "100" in
  reply (GetStatusChanges db limit false).

End Server.

(* ===================================================================== *)
(** * Part II: properties                                                  *)
(* ===================================================================== *)

(** ** Strings *)
Module StringFacts.
Import GoStrings Normalizer.

Lemma bytes_of_bytes l : bytes (of_bytes l) = l.
Proof. apply list_ascii_of_string_of_list_ascii. Qed.

Lemma of_bytes_bytes s : of_bytes (bytes s) = s.
Proof. apply string_of_list_ascii_of_string. Qed.

Lemma bytes_inj s t : bytes s = bytes t -> s = t.
Proof. intros E. rewrite <- (of_bytes_bytes s), <- (of_bytes_bytes t). by rewrite E. Qed.

Lemma of_bytes_nil_iff l : of_bytes l = "" <-> l = [].
Proof.
  split; [|by intros ->].
  intros E. apply (f_equal bytes) in E. by rewrite bytes_of_bytes in E.
Qed.

(** [strip] is the inverse of prepending. *)
Lemma strip_Some p l l' : strip p l = Some l' <-> l = p ++ l'.
Proof.
  revert l. induction p as [|c p IH]; intros [|d l]; simpl.
  - split; [by intros [= <-]|by intros <-].
  - split; [by intros [= <-]|by intros <-].
  - split; [done|discriminate].
  - case_bool_decide as E.
    + subst d. rewrite IH. split; [by intros ->|by intros [= ->]].
    + split; [done|]. intros [= -> _]. by destruct E.
Qed.

Lemma strip_prefix_of p l : is_Some (strip p l) <-> p `prefix_of` l.
Proof.
  split.
  - intros [l' E%strip_Some]. by exists l'.
  - intros [l' ->]. exists l'. by apply strip_Some.
Qed.

(** [TrimPrefix] strips. *)
Lemma TrimPrefix_bytes s p :
  bytes (TrimPrefix s p) = strip_leading_text p (bytes s).
Proof.
  unfold TrimPrefix, HasPrefix, strip_leading_text, slice_from, len.
  case_bool_decide as E.
  - destruct E as [l' E]. rewrite bytes_of_bytes, E, Nat2Z.id, drop_app_length.
    by rewrite (proj2 (strip_Some _ _ l') eq_refl).
  - destruct (strip (bytes p) (bytes s)) as [l'|] eqn:S; [|done].
    destruct E. apply strip_prefix_of. by rewrite S.
Qed.

Lemma index_bytes_lower l sub : (-1 <= index_bytes l sub)%Z.
Proof.
  induction l as [|x l IH]; simpl; case_bool_decide; try lia.
  destruct (Z.eqb_spec (index_bytes l sub) (-1)); lia.
Qed.

(** Cutting at the index of a byte, when there is one, truncates at its
    first occurrence. *)
Lemma cut_at_index c l :
  let idx := index_bytes l [c] in
  (if negb (idx =? -1)%Z then take (Z.to_nat idx) l else l) = truncate_at c l.
Proof.
  induction l as [|x l IH]; simpl in *.
  - done.
  - case_bool_decide as E.
    + apply prefix_cons_inv_1 in E as ->. simpl. by rewrite bool_decide_eq_true_2.
    + rewrite bool_decide_eq_false_2
        by (intros ->; apply E, prefix_cons, prefix_nil).
      pose proof (index_bytes_lower l [c]) as Hlow.
      destruct (Z.eqb_spec (index_bytes l [c]) (-1)) as [Ei|Ei]; simpl in *.
      * by rewrite <- IH.
      * destruct (Z.eqb_spec (index_bytes l [c] + 1) (-1)) as [|_]; [lia|]. simpl.
        replace (Z.to_nat (index_bytes l [c] + 1)) with (S (Z.to_nat (index_bytes l [c])))
          by lia.
        simpl. by rewrite IH.
Qed.

Lemma slice_at_Index s c :
  let idx := Index s (String c "") in
  bytes (if negb (idx =? -1)%Z then slice_to s idx else s) = truncate_at c (bytes s).
Proof.
  simpl. rewrite <- cut_at_index. unfold Index, slice_to. simpl.
  destruct (negb _); [apply bytes_of_bytes|done].
Qed.

Lemma truncate_at_not_elem c l : c ∉ truncate_at c l.
Proof.
  induction l as [|x l IH]; simpl; [apply not_elem_of_nil|].
  case_bool_decide; [apply not_elem_of_nil|].
  rewrite not_elem_of_cons. split; [congruence|done].
Qed.

Lemma truncate_at_prefix c l : truncate_at c l `prefix_of` l.
Proof.
  induction l as [|x l IH]; simpl; [done|].
  case_bool_decide; [apply prefix_nil|by apply prefix_cons].
Qed.

Lemma truncate_at_id c l : c ∉ l -> truncate_at c l = l.
Proof.
  induction l as [|x l IH]; simpl; [done|].
  rewrite not_elem_of_cons. intros [? ?].
  rewrite bool_decide_eq_false_2 by congruence. f_equal. auto.
Qed.

(** *** Trimming *)

Lemma leading_Some pats l p :
  leading pats l = Some p -> p ∈ pats /\ p `prefix_of` l.
Proof.
  intros [Hin Hp]%find_some. split; [by apply list_elem_of_In|].
  by apply bool_decide_eq_true in Hp.
Qed.

Lemma leading_None pats l :
  leading pats l = None <-> forall p, p ∈ pats -> ~ p `prefix_of` l.
Proof.
  unfold leading. split.
  - intros Hnone p Hin%list_elem_of_In Hp.
    pose proof (find_none _ _ Hnone p Hin) as Hf. simpl in Hf.
    by apply bool_decide_eq_false in Hf.
  - intros Hno. induction pats as [|q pats IH]; simpl; [done|].
    rewrite bool_decide_eq_false_2 by (apply Hno; left).
    apply IH. intros p Hin. apply Hno. by right.
Qed.

Lemma leading_None_prefix pats l l' :
  l' `prefix_of` l -> leading pats l = None -> leading pats l' = None.
Proof.
  rewrite !leading_None. intros Hpre Hno p Hin Hp.
  apply (Hno p Hin). by etrans.
Qed.

Lemma strip_leading_suffix pats n l : strip_leading pats n l `suffix_of` l.
Proof.
  revert l. induction n as [|n IH]; intros l; simpl; [done|].
  destruct (leading pats l) as [p|]; [|done].
  etrans; [apply IH|apply suffix_drop].
Qed.

Lemma strip_leading_id pats n l :
  leading pats l = None -> strip_leading pats n l = l.
Proof. destruct n; simpl; [done|]. by intros ->. Qed.

(** With a unit of fuel per byte, nothing of [pats] is left in front. *)
Lemma strip_leading_done pats n l :
  Forall (fun p => p <> []) pats -> length l <= n ->
  leading pats (strip_leading pats n l) = None.
Proof.
  intros Hne. revert l. induction n as [|n IH]; intros l Hlen; simpl.
  - apply leading_None. intros p Hin Hp.
    destruct l; [|simpl in Hlen; lia].
    apply prefix_nil_inv in Hp. by apply (proj1 (Forall_forall _ _) Hne p).
  - destruct (leading pats l) as [p|] eqn:E; [|done].
    apply leading_Some in E as [Hin Hp]. apply IH.
    pose proof (proj1 (Forall_forall _ _) Hne p Hin) as Hp0.
    apply prefix_length in Hp. rewrite length_drop.
    destruct p; [done|]. simpl in *. lia.
Qed.

Lemma white_space_nonempty : Forall (fun p => p <> []) white_space.
Proof. apply Forall_forall. intros p Hp. by repeat (apply elem_of_cons in Hp as [->|Hp]; [done|]);
  apply elem_of_nil in Hp. Qed.

Lemma white_space_rev_nonempty : Forall (fun p => p <> []) (map reverse white_space).
Proof. apply Forall_forall. intros p Hp. by repeat (apply elem_of_cons in Hp as [->|Hp]; [done|]);
  apply elem_of_nil in Hp. Qed.

Lemma trim_left_suffix l : trim_left l `suffix_of` l.
Proof. apply strip_leading_suffix. Qed.

Lemma trim_right_prefix l : trim_right l `prefix_of` l.
Proof.
  unfold trim_right. apply prefix_suffix_reverse.
  rewrite reverse_involutive. apply strip_leading_suffix.
Qed.

Lemma trim_trimmed l : trimmed (trim_right (trim_left l)).
Proof.
  split.
  - apply leading_None_prefix with (trim_left l); [apply trim_right_prefix|].
    by apply strip_leading_done; [apply white_space_nonempty|].
  - unfold trim_right. rewrite reverse_involutive.
    apply strip_leading_done; [apply white_space_rev_nonempty|].
    by rewrite length_reverse.
Qed.

Lemma trimmed_id l : trimmed l -> trim_right (trim_left l) = l.
Proof.
  intros [Hl Hr]. unfold trim_left. rewrite strip_leading_id by done.
  unfold trim_right. rewrite strip_leading_id by done. apply reverse_involutive.
Qed.

Lemma trim_length l : length (trim_right (trim_left l)) <= length l.
Proof.
  etrans; [apply prefix_length, trim_right_prefix|].
  apply suffix_length, trim_left_suffix.
Qed.

Lemma trim_elem_of c l : c ∈ trim_right (trim_left l) -> c ∈ l.
Proof.
  intros Hc. destruct (trim_right_prefix (trim_left l)) as [k1 E1].
  destruct (trim_left_suffix l) as [k2 E2].
  rewrite E2, E1. rewrite !elem_of_app. auto.
Qed.

Lemma TrimSpace_bytes s : bytes (TrimSpace s) = trim_right (trim_left (bytes s)).
Proof. apply bytes_of_bytes. Qed.

End StringFacts.

(** ** The identity normaliser *)
Module NormalizerFacts.
Import GoStrings Normalizer StringFacts.

(** The bytes of [cleanDomain x], rule by rule. *)
Lemma cleanDomain_bytes x :
  bytes (cleanDomain x) =
  trim_right (trim_left
    (strip_leading_text "*."
       (truncate_at ":"%char (truncate_at "/"%char (strip_both_schemes (bytes x)))))).
Proof.
  unfold cleanDomain, strip_both_schemes.
  rewrite TrimSpace_bytes, TrimPrefix_bytes.
  rewrite (slice_at_Index _ ":"%char), (slice_at_Index _ "/"%char).
  by rewrite !TrimPrefix_bytes.
Qed.

Lemma strip_leading_text_suffix p l : strip_leading_text p l `suffix_of` l.
Proof.
  unfold strip_leading_text. destruct (strip (bytes p) l) as [l'|] eqn:E; [|done].
  apply strip_Some in E as ->. by exists (bytes p).
Qed.

Lemma strip_leading_text_id p l :
  ~ bytes p `prefix_of` l -> strip_leading_text p l = l.
Proof.
  intros Hp. unfold strip_leading_text.
  destruct (strip (bytes p) l) as [l'|] eqn:E; [|done].
  destruct Hp. apply strip_prefix_of. by rewrite E.
Qed.

Lemma elem_of_suffix {A} (x : A) l1 l2 : l1 `suffix_of` l2 -> x ∈ l1 -> x ∈ l2.
Proof. intros [k ->] ?. apply elem_of_app. by right. Qed.

Lemma elem_of_prefix {A} (x : A) l1 l2 : l1 `prefix_of` l2 -> x ∈ l1 -> x ∈ l2.
Proof. intros [k ->] ?. apply elem_of_app. by left. Qed.

(** A cleaned domain holds no slash and no colon, and is trimmed. *)
Lemma cleanDomain_shape x :
  (("/"%char) ∉ bytes (cleanDomain x)) /\
  ((":"%char) ∉ bytes (cleanDomain x)) /\
  trimmed (bytes (cleanDomain x)).
Proof.
  rewrite cleanDomain_bytes. split; [|split]; [| |apply trim_trimmed].
  - intros H%trim_elem_of.
    apply (elem_of_suffix _ _ _ (strip_leading_text_suffix _ _)) in H.
    apply (elem_of_prefix _ _ _ (truncate_at_prefix _ _)) in H.
    by apply truncate_at_not_elem in H.
  - intros H%trim_elem_of.
    apply (elem_of_suffix _ _ _ (strip_leading_text_suffix _ _)) in H.
    by apply truncate_at_not_elem in H.
Qed.

(** Cleaning a string of that shape only strips a leading wildcard marker
    and trims what follows it. *)
Lemma cleanDomain_of_shape y :
  ("/"%char) ∉ bytes y -> (":"%char) ∉ bytes y ->
  bytes (cleanDomain y) = trim_right (trim_left (strip_leading_text "*." (bytes y))).
Proof.
  intros Hslash Hcolon. rewrite cleanDomain_bytes. unfold strip_both_schemes.
  rewrite (strip_leading_text_id "https://").
  2:{ intros Hp. apply Hcolon, (elem_of_prefix _ _ _ Hp). set_solver. }
  rewrite (strip_leading_text_id "http://").
  2:{ intros Hp. apply Hcolon, (elem_of_prefix _ _ _ Hp). set_solver. }
  rewrite (truncate_at_id "/"%char) by done.
  by rewrite (truncate_at_id ":"%char).
Qed.

Lemma HasPrefix_false s p : HasPrefix s p = false <-> ~ bytes p `prefix_of` bytes s.
Proof. unfold HasPrefix. apply bool_decide_eq_false. Qed.

(** C6, as the code has it: normalisation is idempotent exactly on the raw
    strings whose cleaned form does not start with the wildcard marker. *)
Theorem cleanDomain_idempotent_iff (x : string) :
  cleanDomain (cleanDomain x) = cleanDomain x <->
  HasPrefix (cleanDomain x) "*." = false.
Proof.
  destruct (cleanDomain_shape x) as (Hslash & Hcolon & Htrim).
  pose proof (cleanDomain_of_shape _ Hslash Hcolon) as Hb.
  rewrite HasPrefix_false. split.
  - intros Heq Hp. rewrite Heq in Hb.
    assert (length (bytes (cleanDomain x)) <=
            length (strip_leading_text "*." (bytes (cleanDomain x)))) as Hlen.
    { rewrite Hb at 1. apply trim_length. }
    destruct Hp as [k Hk]. unfold strip_leading_text in Hlen.
    rewrite (proj2 (strip_Some _ _ k) Hk) in Hlen.
    rewrite Hk, length_app in Hlen.
    change (length (bytes "*.")) with 2 in Hlen.
    cbv [default from_option id] in Hlen. lia.
  - intros Hp. apply bytes_inj. rewrite Hb, strip_leading_text_id by done.
    by apply trimmed_id.
Qed.

(** C6: nested wildcard markers are stripped one per pass. *)
Lemma cleanDomain_not_idempotent :
  cleanDomain "*.*.example.com" = "*.example.com" /\
  cleanDomain (cleanDomain "*.*.example.com") = "example.com" /\
  cleanDomain (cleanDomain "*.*.example.com") <> cleanDomain "*.*.example.com".
Proof. by vm_compute. Qed.

Lemma cleanDomain_as_rules x : cleanDomain x = rules strip_both_schemes x.
Proof.
  apply bytes_inj. rewrite cleanDomain_bytes. unfold rules.
  by rewrite TrimSpace_bytes, bytes_of_bytes.
Qed.

(** The two scheme rules part only on a raw string that starts with both
    schemes, https:// first. *)
Lemma strip_scheme_one l :
  ~ bytes "https://http://" `prefix_of` l -> strip_both_schemes l = strip_one_scheme l.
Proof.
  intros Hno. unfold strip_both_schemes, strip_one_scheme, strip_leading_text at 2.
  destruct (strip (bytes "https://") l) as [l'|] eqn:E; [|done].
  apply strip_Some in E as ->. apply strip_leading_text_id.
  intros [k ->]. apply Hno. by exists k.
Qed.

Lemma cleanDomain_one_scheme x :
  ~ bytes "https://http://" `prefix_of` bytes x ->
  cleanDomain x = rules strip_one_scheme x.
Proof.
  intros Hno. rewrite cleanDomain_as_rules. unfold rules.
  by rewrite strip_scheme_one.
Qed.

(** On such a string the rules as they are worded strip https://, cut
    what is left at the slash of http:// and then at its colon. *)
Lemma rules_two_schemes x :
  bytes "https://http://" `prefix_of` bytes x -> rules strip_one_scheme x = "http".
Proof.
  intros [k Hk]. unfold rules, strip_one_scheme. rewrite Hk.
  assert (strip (bytes "https://") (bytes "https://http://" ++ k) =
          Some (bytes "http://" ++ k)) as -> by (by apply strip_Some).
  assert (truncate_at "/"%char (bytes "http://" ++ k) = bytes "http:") as ->
    by reflexivity.
  by vm_compute.
Qed.

(** C7, as the code has it: [cleanDomain] applies the rules in their
    order -- scheme, path, port, wildcard marker, white space -- with its
    own scheme rule: a leading https:// is stripped and then a leading
    http:// as well. It gives what the rules as the specification words
    them give ("a leading https:// or http:// scheme": one scheme) on
    every raw string that does not start with https://http://, and on a
    string that does only when it cleans to "http". On the former
    [normalize] rejects exactly when [cleanDomain] is empty and yields
    [cleanDomain] otherwise. The example of the specification evaluates
    to "Example.com". *)
Theorem cleanDomain_rules (x : string) :
  cleanDomain x = rules strip_both_schemes x /\
  (cleanDomain x = rules strip_one_scheme x <->
   HasPrefix x "https://http://" = false \/ cleanDomain x = "http") /\
  (HasPrefix x "https://http://" = false ->
   normalize x = if bool_decide (cleanDomain x = "") then None else Some (cleanDomain x)) /\
  cleanDomain "https://*.Example.com:8080/path" = "Example.com" /\
  normalize "https://*.Example.com:8080/path" = Some "Example.com".
Proof.
  split; [apply cleanDomain_as_rules|]. split; [|split; [|by vm_compute]].
  - destruct (HasPrefix x "https://http://") eqn:Hp.
    + apply bool_decide_eq_true in Hp. rewrite (rules_two_schemes x Hp).
      split; [by right|]. by intros [?|?].
    + apply HasPrefix_false in Hp. split; [by left|]. intros _.
      by apply cleanDomain_one_scheme.
  - intros Hp%HasPrefix_false. unfold normalize.
    by rewrite <- cleanDomain_one_scheme.
Qed.

(** C7: a raw string with both schemes. [cleanDomain] strips the two of
    them and keeps the host; the rules as they are worded strip the
    first only, and what they keep is the name of the second. *)
Lemma cleanDomain_two_schemes :
  cleanDomain "https://http://example.com" = "example.com" /\
  rules strip_one_scheme "https://http://example.com" = "http" /\
  normalize "https://http://example.com" = Some "http" /\
  cleanDomain "https://http://example.com" <>
  rules strip_one_scheme "https://http://example.com".
Proof. by vm_compute. Qed.

End NormalizerFacts.

(** ** The change-tracking store *)
Module DatabaseFacts.
Import Database.

(** *** The statements, one by one *)

(** The driver touches no table. *)
Lemma driver_tables db :
  programs (driver db).2 = programs db /\
  domains (driver db).2 = domains db /\
  domains_seq (driver db).2 = domains_seq db /\
  status_changes (driver db).2 = status_changes db /\
  status_changes_seq (driver db).2 = status_changes_seq db.
Proof. unfold driver. by destruct (faults db). Qed.

Lemma driver_no_fault db : faults db = [] -> driver db = (false, db).
Proof. unfold driver. by intros ->. Qed.

Lemma find_domain_driver db d p :
  find_domain (driver db).2 d p = find_domain db d p.
Proof. unfold find_domain. by rewrite (proj1 (proj2 (driver_tables db))). Qed.

Lemma find_domain_Some db d p r :
  find_domain db d p = Some r -> r ∈ domains db /\ key r = (d, p).
Proof.
  intros [Hin Hk]%find_some. split; [by apply list_elem_of_In|].
  by apply bool_decide_eq_true in Hk.
Qed.

Lemma find_domain_None db d p :
  find_domain db d p = None <-> (d, p) ∉ map key (domains db).
Proof.
  unfold find_domain. induction (domains db) as [|r rows IH]; simpl.
  - split; [intros _; apply not_elem_of_nil|done].
  - case_bool_decide as E.
    + split; [done|]. intros []. rewrite E. left.
    + rewrite IH, not_elem_of_cons.
      split; [intros H; split; [congruence|done]|by intros [_ H]].
Qed.

(** What a SELECT gives: the tables as they were, and the first row of
    the key, [sql.ErrNoRows] or a driver error. *)
Lemma select_domain_spec db d p :
  let '(db', found) := select_domain db d p in
  programs db' = programs db /\ domains db' = domains db /\
  domains_seq db' = domains_seq db /\
  status_changes db' = status_changes db /\
  status_changes_seq db' = status_changes_seq db /\
  match found with
  | inr (id, is_new, status) =>
      exists r, find_domain db d p = Some r /\
                id = d_id r /\ is_new = d_is_new r /\ status = d_status r
  | inl ErrNoRows => find_domain db d p = None
  | inl err => err = ErrDriver
  end.
Proof.
  unfold select_domain.
  pose proof (driver_tables db) as (? & ? & ? & ? & ?).
  pose proof (find_domain_driver db d p) as Hf.
  destruct (driver db) as [[] db1]; simpl in *; [done|].
  rewrite Hf. destruct (find_domain db d p) as [r|]; [|done].
  repeat split; try done. by exists r.
Qed.

Lemma select_domain_no_fault db d p :
  faults db = [] ->
  select_domain db d p =
  (db, match find_domain db d p with
       | Some r => inr (d_id r, d_is_new r, d_status r)
       | None => inl ErrNoRows
       end).
Proof.
  intros Hf. unfold select_domain. rewrite (driver_no_fault _ Hf).
  by destruct (find_domain db d p).
Qed.

(** An INSERT into [domains] either fails and changes nothing, or appends
    one row of a key the table did not hold, under a fresh id. *)
Lemma insert_domain_spec db d p s t1 t2 now :
  let '(db', err) := insert_domain db d p s t1 t2 now in
  status_changes db' = status_changes db /\
  ((err <> None /\ domains db' = domains db) \/
   (err = None /\ find_domain db d p = None /\
    domains db' =
    domains db ++
    [mkDomainsRow (next_id (domains_seq db) (map d_id (domains db))) d p s t1 t2 true now])).
Proof.
  unfold insert_domain.
  pose proof (driver_tables db) as (? & Hd & Hs & ? & ?).
  destruct (driver db) as [[] db1]; simpl in *; [by split; [|left]|].
  rewrite Hd, Hs.
  destruct (existsb _ (domains db)) eqn:E; simpl; [by split; [|left]|].
  split; [done|]. right. split; [done|]. split; [|done].
  unfold find_domain. destruct (List.find _ (domains db)) as [r|] eqn:Ef; [|done].
  apply find_some in Ef as [Hin Hk].
  assert (existsb (fun r => bool_decide (key r = (d, p))) (domains db) = true) as Hex
    by (apply existsb_exists; eauto).
  congruence.
Qed.

Lemma insert_domain_no_fault db d p s t1 t2 now :
  faults db = [] -> find_domain db d p = None ->
  insert_domain db d p s t1 t2 now =
  (set_domains db
     (domains db ++
      [mkDomainsRow (next_id (domains_seq db) (map d_id (domains db))) d p s t1 t2 true now])
     (next_id (domains_seq db) (map d_id (domains db))),
   None).
Proof.
  intros Hf Hnone. unfold insert_domain. rewrite (driver_no_fault _ Hf).
  destruct (existsb _ (domains db)) eqn:E; [|done].
  apply existsb_exists in E as (r & Hin & Hk).
  unfold find_domain in Hnone. by rewrite (find_none _ _ Hnone r Hin) in Hk.
Qed.

(** An INSERT into [status_changes] leaves [domains] alone. *)
Lemma insert_status_change_spec db d p old new t now :
  let db' := (insert_status_change db d p old new t now).1 in
  domains db' = domains db /\ domains_seq db' = domains_seq db /\
  (status_changes db' = status_changes db \/
   status_changes db' =
   status_changes db ++
   [mkStatusChangesRow (next_id (status_changes_seq db) (map sc_id (status_changes db)))
                       d p old new t false now]).
Proof.
  unfold insert_status_change.
  pose proof (driver_tables db) as (? & ? & ? & Hc & Hs).
  destruct (driver db) as [[] db1]; simpl in *; [by repeat split; [..|left]|].
  repeat split; [done..|]. right. by rewrite Hc, Hs.
Qed.

Lemma insert_status_change_no_fault db d p old new t now :
  faults db = [] ->
  insert_status_change db d p old new t now =
  (set_status_changes db
     (status_changes db ++
      [mkStatusChangesRow (next_id (status_changes_seq db) (map sc_id (status_changes db)))
                          d p old new t false now])
     (next_id (status_changes_seq db) (map sc_id (status_changes db))),
   None).
Proof. intros Hf. unfold insert_status_change. by rewrite (driver_no_fault _ Hf). Qed.

(** An UPDATE rewrites three columns of the rows of the given id. *)
Lemma update_domain_spec db s t id :
  let db' := (update_domain db s t false id).1 in
  status_changes db' = status_changes db /\
  (domains db' = domains db \/ domains db' = updated s t id (domains db)).
Proof.
  unfold update_domain.
  pose proof (driver_tables db) as (? & Hd & ? & ? & ?).
  destruct (driver db) as [[] db1]; simpl in *; [by split; [|left]|].
  split; [done|]. right. by rewrite Hd.
Qed.

Lemma update_domain_no_fault db s t id :
  faults db = [] ->
  update_domain db s t false id =
  (set_domains db (updated s t id (domains db)) (domains_seq db), None).
Proof. intros Hf. unfold update_domain. by rewrite (driver_no_fault _ Hf). Qed.

(** *** [SaveDomain] as a whole *)

Lemma find_domain_ext db1 db2 d p :
  domains db1 = domains db2 -> find_domain db1 d p = find_domain db2 d p.
Proof. unfold find_domain. by intros ->. Qed.

(** When no statement fails. *)
Lemma SaveDomain_no_fault db o now :
  faults db = [] ->
  SaveDomain db o now =
  match find_domain db (Domain_Domain o) (Domain_Program o) with
  | None =>
      (set_domains db
         (domains db ++
          [mkDomainsRow (next_id (domains_seq db) (map d_id (domains db)))
             (Domain_Domain o) (Domain_Program o) (Domain_Status o)
             (Domain_DiscoveredAt o) (Domain_LastChecked o) true now])
         (next_id (domains_seq db) (map d_id (domains db))),
       None)
  | Some r =>
      let db1 :=
        if bool_decide (d_status r = Domain_Status o) then db
        else set_status_changes db
               (status_changes db ++
                [mkStatusChangesRow
                   (next_id (status_changes_seq db) (map sc_id (status_changes db)))
                   (Domain_Domain o) (Domain_Program o) (d_status r) (Domain_Status o)
                   now false now])
               (next_id (status_changes_seq db) (map sc_id (status_changes db))) in
      (set_domains db1
         (updated (Domain_Status o) (Domain_LastChecked o) (d_id r) (domains db))
         (domains_seq db),
       None)
  end.
Proof.
  intros Hf. unfold SaveDomain. rewrite (select_domain_no_fault _ _ _ Hf).
  destruct (find_domain db _ _) as [r|] eqn:E.
  - case_bool_decide; simpl.
    + by rewrite update_domain_no_fault.
    + rewrite insert_status_change_no_fault by done. simpl.
      by rewrite update_domain_no_fault.
  - by rewrite insert_domain_no_fault.
Qed.

(** Whatever fails: the [domains] table is left as it was, gains one row
    of a key it did not hold, or has the row found for the key updated. *)
Lemma SaveDomain_domains db o now :
  let db' := (SaveDomain db o now).1 in
  domains db' = domains db \/
  (find_domain db (Domain_Domain o) (Domain_Program o) = None /\
   exists row, key row = obs_key o /\
               d_id row = next_id (domains_seq db) (map d_id (domains db)) /\
               d_is_new row = true /\
               domains db' = domains db ++ [row]) \/
  (exists r, find_domain db (Domain_Domain o) (Domain_Program o) = Some r /\
             domains db' =
             updated (Domain_Status o) (Domain_LastChecked o) (d_id r) (domains db)).
Proof.
  unfold SaveDomain.
  pose proof (select_domain_spec db (Domain_Domain o) (Domain_Program o)) as Hsel.
  destruct (select_domain db _ _) as [db1 found].
  destruct Hsel as (_ & Hd & Hs & _ & _ & Hfound).
  destruct found as [err|[[id is_new] status]].
  - destruct err; simpl; try (by left).
    pose proof (insert_domain_spec db1 (Domain_Domain o) (Domain_Program o)
                  (Domain_Status o) (Domain_DiscoveredAt o) (Domain_LastChecked o) now)
      as Hins.
    destruct (insert_domain db1 _ _ _ _ _ _) as [db2 err]. simpl.
    destruct Hins as [_ [[_ E]|(_ & Hnone & E)]]; [left; congruence|].
    right; left. split; [done|]. rewrite Hd, Hs in E.
    eexists. split; [|split; [|split; [|exact E]]]; done.
  - destruct Hfound as (r & Hr & -> & _ & ->).
    set (db2 := if negb _ then _ else db1).
    assert (domains db2 = domains db) as Hd2.
    { subst db2. destruct (negb _); [|done].
      pose proof (insert_status_change_spec db1 (Domain_Domain o) (Domain_Program o)
                    (d_status r) (Domain_Status o) now now) as (E & _). simpl in E.
      congruence. }
    pose proof (update_domain_spec db2 (Domain_Status o) (Domain_LastChecked o) (d_id r))
      as [_ [E|E]]; simpl in E; rewrite Hd2 in E; [by left|].
    right; right. eauto.
Qed.

(** *** The changes a call records *)

Lemma fault_at_driver n db : fault_at n (driver db).2 = fault_at (S n) db.
Proof.
  unfold fault_at, driver. destruct (faults db) as [|b fs] eqn:Hf; simpl; [|done].
  rewrite Hf. by destruct n.
Qed.

Lemma driver_fault db : (driver db).1 = fault_at 0 db.
Proof. unfold fault_at, driver. by destruct (faults db). Qed.

Lemma select_domain_cases db d p :
  select_domain db d p =
  ((driver db).2,
   if fault_at 0 db then inl ErrDriver
   else match find_domain db d p with
        | Some r => inr (d_id r, d_is_new r, d_status r)
        | None => inl ErrNoRows
        end).
Proof.
  unfold select_domain. rewrite <- driver_fault, <- (find_domain_driver db d p).
  destruct (driver db) as [[] db1]; simpl; [done|].
  by destruct (find_domain db1 d p).
Qed.

Lemma insert_domain_changes db d p s t1 t2 now :
  status_changes (insert_domain db d p s t1 t2 now).1 = status_changes db.
Proof.
  pose proof (insert_domain_spec db d p s t1 t2 now) as H.
  destruct (insert_domain db d p s t1 t2 now) as [db' err]. by destruct H.
Qed.

Lemma update_domain_changes db s t id :
  status_changes (update_domain db s t false id).1 = status_changes db.
Proof. by destruct (update_domain_spec db s t id). Qed.

Lemma insert_status_change_changes db d p old new t now :
  status_changes (insert_status_change db d p old new t now).1 =
  status_changes db ++
  if fault_at 0 db then []
  else [mkStatusChangesRow (next_id (status_changes_seq db) (map sc_id (status_changes db)))
                           d p old new t false now].
Proof.
  unfold insert_status_change. rewrite <- driver_fault.
  pose proof (driver_tables db) as (_ & _ & _ & Hc & Hs).
  destruct (driver db) as [[] db1]; simpl in *; [by rewrite app_nil_r|].
  by rewrite Hc, Hs.
Qed.

(** The rows a call appends to [status_changes], whatever fails. *)
Lemma SaveDomain_created db o now :
  status_changes (SaveDomain db o now).1 =
  status_changes db ++
  match find_domain db (Domain_Domain o) (Domain_Program o) with
  | Some r =>
      if bool_decide (d_status r = Domain_Status o) then []
      else if fault_at 0 db || fault_at 1 db then []
      else [mkStatusChangesRow
              (next_id (status_changes_seq db) (map sc_id (status_changes db)))
              (Domain_Domain o) (Domain_Program o) (d_status r) (Domain_Status o)
              now false now]
  | None => []
  end.
Proof.
  unfold SaveDomain. rewrite select_domain_cases.
  pose proof (driver_tables db) as (_ & _ & _ & Hc & Hs).
  destruct (fault_at 0 db) eqn:F0; simpl.
  - rewrite Hc. destruct (find_domain db _ _) as [r|]; [|by rewrite app_nil_r].
    destruct (bool_decide _); by rewrite app_nil_r.
  - destruct (find_domain db _ _) as [r|].
    + rewrite update_domain_changes. case_bool_decide; simpl.
      * by rewrite Hc, app_nil_r.
      * by rewrite insert_status_change_changes, fault_at_driver, Hc, Hs.
    + by rewrite insert_domain_changes, Hc, app_nil_r.
Qed.

(** C1, as the code has it: a call of [SaveDomain] appends to
    [status_changes] the rows [created], and [created] is not empty if and
    only if a row of the key was stored with another status and the
    driver failed neither the SELECT nor the INSERT of the change (the
    first and the second statement of the call; the error of the INSERT
    is ignored). What is created is the one row of the change, not yet
    notified. A key seen for the first time, and a status seen again,
    create nothing. *)
Theorem SaveDomain_status_change_iff (db : DB) (o : Domain) (now : Time) :
  let prior := find_domain db (Domain_Domain o) (Domain_Program o) in
  let db' := (SaveDomain db o now).1 in
  exists created,
    status_changes db' = status_changes db ++ created /\
    (created <> [] <->
     (exists r, prior = Some r /\ d_status r <> Domain_Status o) /\
     fault_at 0 db = false /\ fault_at 1 db = false) /\
    (prior = None -> created = []) /\
    (forall r, prior = Some r -> d_status r = Domain_Status o -> created = []) /\
    (forall sc, sc ∈ created ->
       exists r id,
         prior = Some r /\
         sc = mkStatusChangesRow id (Domain_Domain o) (Domain_Program o)
                (d_status r) (Domain_Status o) now false now /\
         created = [sc]).
Proof.
  intros prior db'. subst db'. rewrite SaveDomain_created. fold prior.
  eexists. split; [reflexivity|].
  destruct prior as [r|].
  - case_bool_decide as E.
    + split; [|split; [|split]]; try done.
      * split; [done|]. by intros [(r' & [= <-] & Hne) _].
      * by intros sc ?%elem_of_nil.
    + destruct (fault_at 0 db), (fault_at 1 db); simpl;
        (split; [|split; [|split]]); try done;
        try (split; [done|]; by intros (_ & ? & ?));
        try (by intros sc ?%elem_of_nil).
      * split; [|done]. intros _. split; [by exists r|done].
      * intros r' [= <-] ?. done.
      * intros sc ->%list_elem_of_singleton.
        exists r. eexists. split; [done|]. split; reflexivity.
  - split; [|split; [|split]]; try done.
    + split; [done|]. by intros [(r' & [=] & _) _].
    + by intros sc ?%elem_of_nil.
Qed.

(** C1: the driver fails the INSERT into [status_changes] of a call that
    observes "up" for a key stored "down". [SaveDomain] ignores the
    error, updates the row and returns nil: the status changed and no
    change is recorded. *)
Lemma SaveDomain_ignores_insert_error :
  let db := set_faults sample_db [false; true] in
  d_status <$> find_domain db "example.com" "acme" = Some "down" /\
  Domain_Status sample_up = "up" /\
  (SaveDomain db sample_up 30).2 = None /\
  map d_status (domains (SaveDomain db sample_up 30).1) = ["up"] /\
  status_changes (SaveDomain db sample_up 30).1 = status_changes db.
Proof. by vm_compute. Qed.

(** When no statement fails, the rule is the specification's: a change
    is recorded if and only if a row was stored with another status. *)
Lemma SaveDomain_status_change_no_fault db o now :
  faults db = [] ->
  status_changes (SaveDomain db o now).1 <> status_changes db <->
  exists r, find_domain db (Domain_Domain o) (Domain_Program o) = Some r /\
            d_status r <> Domain_Status o.
Proof.
  intros Hf. rewrite SaveDomain_created. unfold fault_at. rewrite Hf. simpl.
  destruct (find_domain db _ _) as [r|].
  - case_bool_decide as E.
    + rewrite app_nil_r. split; [done|]. by intros (r' & [= <-] & ?).
    + split; [intros _; by exists r|]. intros _ Heq.
      apply (f_equal length) in Heq. rewrite length_app in Heq. simpl in Heq. lia.
  - rewrite app_nil_r. split; [done|]. by intros (r' & [=] & _).
Qed.

(** *** The constraints of the schema are kept *)

Lemma next_id_fresh seq ids id : id ∈ ids -> (id < next_id seq ids)%Z.
Proof.
  unfold next_id. induction ids as [|x ids IH]; simpl.
  - by intros ?%elem_of_nil.
  - intros [->|Hin]%elem_of_cons; [lia|]. specialize (IH Hin). lia.
Qed.

Lemma updated_keys s t id rows : map key (updated s t id rows) = map key rows.
Proof.
  unfold updated. rewrite map_map. apply map_ext. intros r. by case_bool_decide.
Qed.

Lemma updated_ids s t id rows : map d_id (updated s t id rows) = map d_id rows.
Proof.
  unfold updated. rewrite map_map. apply map_ext. intros r. by case_bool_decide.
Qed.

Lemma SaveDomain_unique_keys db o now :
  unique_keys db -> unique_keys (SaveDomain db o now).1.
Proof.
  unfold unique_keys. intros Hu.
  destruct (SaveDomain_domains db o now)
    as [E|[(Hnone & row & Hk & _ & _ & E)|(r & _ & E)]];
    rewrite E; [done| |by rewrite updated_keys].
  rewrite map_app. apply NoDup_app. split; [done|].
  split; [|apply NoDup_singleton].
  intros k Hin ->%list_elem_of_singleton.
  apply find_domain_None in Hnone. by rewrite Hk in Hin.
Qed.

Lemma SaveDomain_unique_ids db o now :
  unique_ids db -> unique_ids (SaveDomain db o now).1.
Proof.
  unfold unique_ids. intros Hu.
  destruct (SaveDomain_domains db o now)
    as [E|[(Hnone & row & _ & Hid & _ & E)|(r & _ & E)]];
    rewrite E; [done| |by rewrite updated_ids].
  rewrite map_app. apply NoDup_app. split; [done|].
  split; [|apply NoDup_singleton].
  intros id Hin ->%list_elem_of_singleton.
  apply (next_id_fresh (domains_seq db)) in Hin. simpl in Hin. lia.
Qed.

Lemma SaveDomains_cons now db o obs :
  SaveDomains now db (o :: obs) = SaveDomains now (SaveDomain db o now).1 obs.
Proof. done. Qed.

Lemma SaveDomains_unique_ids now db obs :
  unique_ids db -> unique_ids (SaveDomains now db obs).
Proof.
  revert db. induction obs as [|o obs IH]; intros db Hu; [done|].
  rewrite SaveDomains_cons. by apply IH, SaveDomain_unique_ids.
Qed.

Lemma filter_key_absent rows k :
  k ∉ map key rows -> filter (fun r => key r = k) rows = [].
Proof.
  induction rows as [|r rows IH]; simpl; [done|].
  rewrite not_elem_of_cons. intros [Hne Hn].
  rewrite filter_cons_False by congruence. auto.
Qed.

(** Distinct keys: no key has two rows. *)
Lemma unique_keys_count rows k :
  NoDup (map key rows) ->
  length (filter (fun r => key r = k) rows) <= 1.
Proof.
  induction rows as [|r rows IH]; simpl; [lia|].
  intros [Hnotin Hnd]%NoDup_cons. rewrite filter_cons.
  case_decide as E; [|by apply IH].
  rewrite (filter_key_absent rows k) by congruence. simpl. lia.
Qed.

(** C3: from tables with distinct keys, any sequence of [SaveDomain] calls
    -- whatever the driver faults -- leaves tables with distinct keys: no
    (domain, program) pair has more than one row. *)
Theorem SaveDomains_unique_keys (now : Time) (db : DB) (obs : list Domain) :
  unique_keys db ->
  unique_keys (SaveDomains now db obs) /\
  forall d p,
    length (filter (fun r => key r = (d, p)) (domains (SaveDomains now db obs))) <= 1.
Proof.
  intros Hu.
  assert (unique_keys (SaveDomains now db obs)) as Hu'.
  { revert db Hu. induction obs as [|o obs IH]; intros db Hu; [done|].
    rewrite SaveDomains_cons. by apply IH, SaveDomain_unique_keys. }
  split; [done|]. intros d p. by apply unique_keys_count.
Qed.

Lemma SaveDomains_unique_keys_witness :
  unique_keys sample_db /\
  forall d p,
    length (filter (fun r => key r = (d, p))
              (domains (SaveDomains 30 sample_db [sample_up; sample_new; sample_up]))) <= 1.
Proof.
  assert (unique_keys sample_db) as Hu by (apply NoDup_singleton).
  split; [exact Hu|].
  exact (proj2 (SaveDomains_unique_keys 30 sample_db [sample_up; sample_new; sample_up] Hu)).
Defined.

(** The tables of a new database have distinct keys and ids. *)
Lemma empty_unique fs : unique_keys (empty fs) /\ unique_ids (empty fs).
Proof. split; apply NoDup_nil_2. Qed.

(** *** Frame *)

Lemma NoDup_map_inj {A B} (f : A -> B) (l : list A) x y :
  NoDup (map f l) -> x ∈ l -> y ∈ l -> f x = f y -> x = y.
Proof.
  induction l as [|a l IH]; simpl; [by intros _ ?%elem_of_nil|].
  intros [Hnotin Hnd]%NoDup_cons [->|Hx]%elem_of_cons [->|Hy]%elem_of_cons Hf;
    [done| | |by apply IH].
  - destruct Hnotin. rewrite Hf. apply list_elem_of_In, in_map. by apply list_elem_of_In.
  - destruct Hnotin. rewrite <- Hf. apply list_elem_of_In, in_map. by apply list_elem_of_In.
Qed.

Lemma Forall2_map_diag {A} (P : A -> A -> Prop) (f : A -> A) l :
  Forall (fun x => P x (f x)) l -> Forall2 P l (map f l).
Proof. induction 1; simpl; by constructor. Qed.

(** C10: when a row [r] of the key is stored, [SaveDomain] leaves every
    other row of [domains] as it was, and of row [r] it keeps the id, the
    domain, the program, discovered_at and created_at: the rows before
    and after correspond one to one, differing at most in status,
    last_checked and is_new of [r]. *)
Theorem SaveDomain_frame (db : DB) (o : Domain) (now : Time) (r : domains_row) :
  unique_ids db ->
  find_domain db (Domain_Domain o) (Domain_Program o) = Some r ->
  Forall2 (fun old new =>
             d_id new = d_id old /\ d_domain new = d_domain old /\
             d_program new = d_program old /\
             d_discovered_at new = d_discovered_at old /\
             d_created_at new = d_created_at old /\
             (old <> r -> new = old))
          (domains db) (domains (SaveDomain db o now).1).
Proof.
  intros Hu Hr.
  destruct (SaveDomain_domains db o now) as [E|[(Hnone & _)|(r' & Hr' & E)]];
    rewrite ?E; [by apply Forall_Forall2_diag, Forall_forall|congruence|].
  assert (r' = r) as -> by congruence.
  apply find_domain_Some in Hr as [Hin _].
  apply Forall2_map_diag, Forall_forall. intros old Hold.
  case_bool_decide as Hid; [|done].
  repeat split. intros Hne. destruct Hne.
  by apply (NoDup_map_inj d_id (domains db)).
Qed.

Lemma SaveDomain_frame_witness :
  unique_ids sample_db /\
  find_domain sample_db "example.com" "acme" = Some sample_row /\
  Forall2 (fun old new =>
             d_id new = d_id old /\ d_domain new = d_domain old /\
             d_program new = d_program old /\
             d_discovered_at new = d_discovered_at old /\
             d_created_at new = d_created_at old /\
             (old <> sample_row -> new = old))
          (domains sample_db) (domains (SaveDomain sample_db sample_up 30).1).
Proof.
  assert (unique_ids sample_db) as Hu by (apply NoDup_singleton).
  split; [exact Hu|]. split; [reflexivity|].
  exact (SaveDomain_frame sample_db sample_up 30 sample_row Hu eq_refl).
Defined.

(** *** Transitions, one call after the other *)

Lemma find_map_invariant {A} (p : A -> bool) (f : A -> A) l :
  (forall x, p (f x) = p x) -> List.find p (map f l) = f <$> List.find p l.
Proof.
  intros Hp. induction l as [|x l IH]; simpl; [done|].
  rewrite Hp. by destruct (p x).
Qed.

Lemma find_snoc {A} (p : A -> bool) l x :
  List.find p (l ++ [x]) =
  match List.find p l with
  | Some y => Some y
  | None => if p x then Some x else None
  end.
Proof. induction l as [|y l IH]; simpl; [done|]. by destruct (p y). Qed.

Lemma known_statuses_lookup db k : known_statuses db !! k = stored_status db k.
Proof.
  destruct k as [d p]. unfold known_statuses, stored_status, find_domain. simpl.
  induction (domains db) as [|r rows IH]; simpl; [done|].
  rewrite lookup_insert. case_decide as E.
  - by rewrite bool_decide_eq_true_2.
  - by rewrite bool_decide_eq_false_2.
Qed.

Lemma SaveDomain_keeps_no_fault db o now :
  faults db = [] -> faults (SaveDomain db o now).1 = [].
Proof.
  intros Hf. rewrite (SaveDomain_no_fault _ _ _ Hf).
  destruct (find_domain db _ _); simpl; [|done]. by case_bool_decide.
Qed.

(** After a call, the status stored for its key is the observed one, and
    the other keys keep theirs. *)
Lemma SaveDomain_stored_status db o now k :
  faults db = [] -> unique_ids db ->
  stored_status (SaveDomain db o now).1 k =
  if decide (obs_key o = k) then Some (Domain_Status o) else stored_status db k.
Proof.
  intros Hf Hu. rewrite (SaveDomain_no_fault _ _ _ Hf).
  destruct (find_domain db (Domain_Domain o) (Domain_Program o)) as [r|] eqn:Hr;
    destruct k as [d p]; unfold stored_status, find_domain, obs_key in *; simpl.
  - unfold updated.
    rewrite find_map_invariant by (intros x; by destruct (bool_decide (d_id x = d_id r))).
    pose proof (find_some _ _ Hr) as [Hin%list_elem_of_In Hk%bool_decide_eq_true].
    case_decide as E.
    + injection E as <- <-. rewrite Hr. simpl. by rewrite bool_decide_eq_true_2.
    + destruct (List.find (fun r0 => bool_decide (key r0 = (d, p))) (domains db))
        as [x|] eqn:Hx; simpl; [|done].
      pose proof (find_some _ _ Hx) as [Hxin%list_elem_of_In Hxk%bool_decide_eq_true].
      rewrite bool_decide_eq_false_2; [done|].
      intros Hid. apply E. rewrite <- Hk, <- Hxk. f_equal.
      symmetry. by apply (NoDup_map_inj d_id (domains db)).
  - rewrite find_snoc. simpl. case_decide as E.
    + injection E as <- <-. rewrite Hr. by rewrite bool_decide_eq_true_2.
    + destruct (List.find (fun r0 => bool_decide (key r0 = (d, p))) (domains db));
        [done|].
      rewrite bool_decide_eq_false_2; [done|]. unfold key. simpl. congruence.
Qed.

Lemma SaveDomain_known_statuses db o now :
  faults db = [] -> unique_ids db ->
  known_statuses (SaveDomain db o now).1 =
  <[obs_key o := Domain_Status o]> (known_statuses db).
Proof.
  intros Hf Hu. apply map_eq. intros k.
  rewrite known_statuses_lookup, SaveDomain_stored_status by done.
  rewrite lookup_insert. case_decide; [done|]. by rewrite known_statuses_lookup.
Qed.

(** The rows a call appends, read as changes. *)
Lemma SaveDomain_changes db o now :
  faults db = [] ->
  map change_of (status_changes (SaveDomain db o now).1) =
  map change_of (status_changes db) ++
  match known_statuses db !! obs_key o with
  | Some old =>
      if bool_decide (old = Domain_Status o) then []
      else [(Domain_Domain o, Domain_Program o, old, Domain_Status o)]
  | None => []
  end.
Proof.
  intros Hf. rewrite known_statuses_lookup. unfold stored_status, obs_key. simpl.
  rewrite (SaveDomain_no_fault _ _ _ Hf).
  destruct (find_domain db _ _) as [r|]; simpl; [|by rewrite app_nil_r].
  case_bool_decide; simpl; [by rewrite app_nil_r|]. by rewrite map_app.
Qed.

(** C2, as the code has it: when the calls for the observations [obs] are
    made one after the other and meet no driver fault, the changes recorded
    are, in order, exactly the transitions of [obs] from the statuses
    stored at the start -- none lost, none recorded twice. *)
Theorem SaveDomains_transitions (now : Time) (db : DB) (obs : list Domain) :
  faults db = [] -> unique_ids db ->
  map change_of (status_changes (SaveDomains now db obs)) =
  map change_of (status_changes db) ++ transitions (known_statuses db) obs.
Proof.
  revert db. induction obs as [|o obs IH]; intros db Hf Hu.
  - simpl. by rewrite app_nil_r.
  - rewrite SaveDomains_cons.
    rewrite IH by (by apply SaveDomain_keeps_no_fault || by apply SaveDomain_unique_ids).
    rewrite SaveDomain_changes, SaveDomain_known_statuses by done.
    cbn [transitions]. by rewrite <- app_assoc.
Qed.

Lemma SaveDomains_transitions_witness :
  faults sample_db = [] /\ unique_ids sample_db /\
  map change_of (status_changes (SaveDomains 30 sample_db [sample_up; sample_up])) =
  [("example.com", "acme", "down", "up")].
Proof.
  assert (unique_ids sample_db) as Hu by (apply NoDup_singleton).
  split; [reflexivity|]. split; [exact Hu|].
  rewrite (SaveDomains_transitions 30 sample_db [sample_up; sample_up] eq_refl Hu).
  by vm_compute.
Defined.

(** *** Calls that overlap *)

(** X3: a call run alone, statement by statement, is [SaveDomain]. *)
Lemma SaveDomain_by_steps now o db :
  let '(db1, pc1) := step now o db AtSelect in
  let '(db2, pc2) := step now o db1 pc1 in
  let '(db3, pc3) := step now o db2 pc2 in
  (db3, pc3) = ((SaveDomain db o now).1, Returned (SaveDomain db o now).2).
Proof.
  unfold SaveDomain. cbn [step].
  destruct (select_domain db _ _) as [db1 [err|[[id is_new] status]]].
  - destruct err; try done. cbn [step]. by destruct (insert_domain db1 _ _ _ _ _ _).
  - case_bool_decide; cbn [negb step fst].
    + by destruct (update_domain db1 _ _ _ _).
    + by destruct (update_domain _ _ _ _ _).
Qed.

(** C2: two calls observe "up" for a key stored "down", and each runs its
    SELECT before the other writes. Both return nil, and the one
    transition is recorded twice; in either order one after the other it
    is recorded once. *)
Lemma interleaved_records_twice :
  let '(db', cs) :=
    interleave 30 sample_db [(sample_up, AtSelect); (sample_up, AtSelect)]
               [0; 1; 0; 0; 1; 1] in
  map snd cs = [Returned None; Returned None] /\
  map change_of (status_changes db') =
    [("example.com", "acme", "down", "up"); ("example.com", "acme", "down", "up")] /\
  map change_of (status_changes (SaveDomains 30 sample_db [sample_up; sample_up])) =
    [("example.com", "acme", "down", "up")] /\
  transitions (known_statuses sample_db) [sample_up; sample_up] =
    [("example.com", "acme", "down", "up")].
Proof. by vm_compute. Qed.

(** Overlapping calls can lose a transition as well: "down" and "up" are
    observed for the key stored "down"; the stored status goes to "up" and
    back to "down", and only the first change is recorded. *)
Example interleaved_loses_transition :
  let '(db', cs) :=
    interleave 30 sample_db [(sample_down, AtSelect); (sample_up, AtSelect)]
               [0; 1; 1; 1; 0] in
  map snd cs = [Returned None; Returned None] /\
  map d_status (domains db') = ["down"] /\
  map change_of (status_changes db') = [("example.com", "acme", "down", "up")] /\
  map change_of (status_changes (SaveDomains 30 sample_db [sample_up; sample_down])) =
    [("example.com", "acme", "down", "up"); ("example.com", "acme", "up", "down")].
Proof. by vm_compute. Qed.

(** Overlapping calls keep the keys distinct all the same: the UNIQUE
    constraint refuses the second INSERT. *)
Lemma step_unique_keys now o db at_ :
  unique_keys db -> unique_keys (step now o db at_).1.
Proof.
  unfold unique_keys. intros Hu. destruct at_ as [| |id old|id|err]; simpl; [| | | |done].
  - pose proof (select_domain_spec db (Domain_Domain o) (Domain_Program o)) as Hsel.
    destruct (select_domain db _ _) as [db1 [err|[[id is_new] status]]].
    + destruct Hsel as (_ & Hd & _). by destruct err; simpl; rewrite Hd.
    + destruct Hsel as (_ & Hd & _). by destruct (negb _); simpl; rewrite Hd.
  - pose proof (insert_domain_spec db (Domain_Domain o) (Domain_Program o)
                  (Domain_Status o) (Domain_DiscoveredAt o) (Domain_LastChecked o) now)
      as Hins.
    destruct (insert_domain db _ _ _ _ _ _) as [db1 err]. simpl.
    destruct Hins as [_ [[_ ->]|(_ & Hnone & ->)]]; [done|].
    rewrite map_app. apply NoDup_app. split; [done|]. split; [|apply NoDup_singleton].
    intros k Hin ->%list_elem_of_singleton. by apply find_domain_None in Hnone.
  - pose proof (insert_status_change_spec db (Domain_Domain o) (Domain_Program o)
                  old (Domain_Status o) now now) as (E & _). simpl in E. by rewrite E.
  - pose proof (update_domain_spec db (Domain_Status o) (Domain_LastChecked o) id)
      as [_ E]. simpl in E.
    destruct (update_domain db _ _ _ _) as [db1 err]. simpl in *.
    destruct E as [->| ->]; [done|]. by rewrite updated_keys.
Qed.

(** X2: however the statements of overlapping calls interleave, and
    whatever fails, the keys of [domains] stay distinct. *)
Lemma interleave_unique_keys now db cs sched :
  unique_keys db -> unique_keys (interleave now db cs sched).1.
Proof.
  unfold interleave. revert db cs.
  induction sched as [|i sched IH]; intros db cs Hu; [done|].
  simpl. unfold schedule_one at 2. simpl.
  destruct (cs !! i) as [[o at_]|]; [|by apply IH].
  pose proof (step_unique_keys now o db at_ Hu) as Hu'.
  destruct (step now o db at_) as [db1 at']. by apply IH.
Qed.

Lemma interleave_unique_keys_witness :
  unique_keys sample_db /\
  unique_keys
    (interleave 30 sample_db [(sample_new, AtSelect); (sample_new, AtSelect)]
       [0; 1; 0; 1]).1.
Proof.
  assert (unique_keys sample_db) as Hu by (apply NoDup_singleton).
  split; [exact Hu|].
  exact (interleave_unique_keys 30 sample_db
           [(sample_new, AtSelect); (sample_new, AtSelect)] [0; 1; 0; 1] Hu).
Defined.

(** Two overlapping first observations of a key: the second INSERT is
    refused, and its call returns the error. *)
Example interleaved_first_observations :
  let '(db', cs) :=
    interleave 30 sample_db [(sample_new, AtSelect); (sample_new, AtSelect)]
               [0; 1; 0; 1] in
  map snd cs = [Returned None;
                Returned (Some (ErrUnique "domains.domain, domains.program"))] /\
  map key (domains db') = [("example.com", "acme"); ("api.example.com", "acme")].
Proof. by vm_compute. Qed.

(** *** is_new *)

(** X5: whatever fails, a call keeps the rows of [domains] in their places
    with their keys, never turns is_new back to true, and a row it adds is
    new. *)
Theorem SaveDomain_is_new (db : DB) (o : Domain) (now : Time) :
  let db' := (SaveDomain db o now).1 in
  Forall2 (fun old new =>
             key new = key old /\ (d_is_new old = false -> d_is_new new = false))
          (domains db) (take (length (domains db)) (domains db')) /\
  Forall (fun new => d_is_new new = true) (drop (length (domains db)) (domains db')).
Proof.
  simpl.
  destruct (SaveDomain_domains db o now)
    as [E|[(_ & row & _ & _ & Hnew & E)|(r & _ & E)]]; rewrite E.
  - rewrite firstn_all, drop_all. split; [|constructor].
    by apply Forall_Forall2_diag, Forall_forall.
  - rewrite take_app_length, drop_app_length. split; [|by repeat constructor].
    by apply Forall_Forall2_diag, Forall_forall.
  - assert (length (domains db) =
            length (updated (Domain_Status o) (Domain_LastChecked o) (d_id r) (domains db)))
      as -> by (unfold updated; by rewrite length_map).
    rewrite firstn_all, drop_all. split; [|constructor].
    apply Forall2_map_diag, Forall_forall. intros old _.
    by case_bool_decide.
Qed.

End DatabaseFacts.

(** ** The reachability prober *)
Module HealthcheckFacts.
Import Healthcheck.

(** *** One domain *)

Lemma try_urls_domain net domain urls log :
  CheckResult_Domain (try_urls net domain urls log).1 = domain.
Proof.
  revert log. induction urls as [|url urls IH]; intros log; simpl; [done|].
  destruct (net url) as [| |code]; [apply IH..|].
  destruct (code <? 500)%Z; [done|apply IH].
Qed.

Lemma CheckDomain_domain net domain :
  CheckResult_Domain (CheckDomain net domain) = domain.
Proof. apply try_urls_domain. Qed.

(** The run of [CheckDomain], by the answers of the two URLs. *)
Lemma CheckDomain_run_cases net domain :
  let https := "https://" +:+ domain in
  let http := "http://" +:+ domain in
  CheckDomain_run net domain =
  if answers net https then (mkCheckResult domain "up" None, [https])
  else if answers net http then (mkCheckResult domain "up" None, [https; http])
  else (mkCheckResult domain "down" (Some (ErrMsg "domain not reachable")),
        [https; http]).
Proof.
  unfold CheckDomain_run, urls_of, answers. cbn [try_urls app].
  destruct (net ("https://" +:+ domain)) as [| |c1];
    destruct (net ("http://" +:+ domain)) as [| |c2]; try done;
    repeat match goal with |- context [(?c <? 500)%Z] => destruct (c <? 500)%Z end;
    done.
Qed.

Lemma answers_spec net url :
  answers net url = true <-> exists code, net url = Response code /\ (code < 500)%Z.
Proof.
  unfold answers. destruct (net url) as [| |c].
  - split; [done|]. by intros (? & ? & ?).
  - split; [done|]. by intros (? & ? & ?).
  - rewrite Z.ltb_lt. split; [by exists c|]. by intros (? & [= ->] & ?).
Qed.

(** C4, as the code has it: [CheckDomain] tries HTTPS first, and HTTP
    whenever HTTPS did not answer with a status below 500 -- on an error
    and on a 5xx response alike. The domain is "up" if and only if a URL it
    tried answered with a status below 500 (4xx included), and "down"
    otherwise: if and only if each of the two URLs gave an error or a
    status of 500 or more. *)
Theorem CheckDomain_up_down (net : network) (domain : string) :
  let https := "https://" +:+ domain in
  let http := "http://" +:+ domain in
  let r := CheckDomain net domain in
  CheckResult_Domain r = domain /\
  attempts net domain = (if answers net https then [https] else [https; http]) /\
  (CheckResult_Status r = "up" <->
   exists url code,
     url ∈ attempts net domain /\ net url = Response code /\ (code < 500)%Z) /\
  (CheckResult_Status r = "down" <->
   forall url, url ∈ [https; http] ->
     net url = RequestError \/ net url = TransportError \/
     exists code, net url = Response code /\ (500 <= code)%Z) /\
  (CheckResult_Status r = "up" \/ CheckResult_Status r = "down").
Proof.
  intros https http r. subst r. unfold CheckDomain, attempts.
  rewrite CheckDomain_run_cases. fold https http.
  assert (forall url, answers net url = false <->
            net url = RequestError \/ net url = TransportError \/
            exists code, net url = Response code /\ (500 <= code)%Z) as Hno.
  { intros url. unfold answers. destruct (net url) as [| |c].
    - split; [by left|done].
    - split; [by right; left|done].
    - rewrite Z.ltb_ge. split; [intros; right; right; by exists c|].
      intros [|[|(c' & [= ->] & ?)]]; done. }
  destruct (answers net https) eqn:E1; [|destruct (answers net http) eqn:E2]; simpl.
  - apply answers_spec in E1 as (c & Hc & Hlt).
    repeat split; try done; try (by left).
    + intros _. exists https, c. split; [apply list_elem_of_singleton|]; done.
    + intros H. destruct (proj1 (Hno https)) as [|[|(c' & ? & ?)]]; try congruence.
      * apply not_true_iff_false. intros (c' & Hc' & ?)%answers_spec.
        specialize (H https ltac:(left)) as [|[|(c'' & ? & ?)]]; try congruence.
        assert (c'' = c') by congruence. lia.
      * assert (c' = c) by congruence. lia.
  - apply answers_spec in E2 as (c & Hc & Hlt).
    repeat split; try done; try (by left).
    + intros _. exists http, c. split; [|done]. right. left.
    + intros H. specialize (H http ltac:(right; left)) as [|[|(c' & ? & ?)]];
        try congruence. assert (c' = c) by congruence. lia.
  - repeat split; try done; try (by right).
    + intros (url & c & Hin & Hc & Hlt).
      assert (answers net url = true) as Ha by (apply answers_spec; eauto).
      apply elem_of_cons in Hin as [->|Hin]; [congruence|].
      apply list_elem_of_singleton in Hin as ->. congruence.
    + intros _ url Hin. apply Hno.
      apply elem_of_cons in Hin as [->|Hin]; [done|].
      by apply list_elem_of_singleton in Hin as ->.
Qed.

(** C4: both servers answer 503. Each attempt produced a response, and
    the domain is recorded "down"; HTTP was tried although HTTPS had not
    failed. *)
Lemma CheckDomain_down_on_5xx :
  unavailable "https://example.com" = Response 503 /\
  unavailable "http://example.com" = Response 503 /\
  attempts unavailable "example.com" = ["https://example.com"; "http://example.com"] /\
  CheckResult_Status (CheckDomain unavailable "example.com") = "down".
Proof. by vm_compute. Qed.

(** *** The pool *)

Lemma pool_inv_start net workers domains : pool_inv net domains (start workers domains).
Proof.
  unfold pool_inv, in_flight, start. simpl. split_pool_inv.
  - by intros r ?%elem_of_nil.
  - by intros d ?%elem_of_nil.
  - done.
  - intros j d [[=] _]%lookup_replicate.
  - by intros d ?%elem_of_nil.
  - intros d [j [[=] _]%lookup_replicate].
Qed.

Lemma pool_inv_cancel net domains p :
  pool_inv net domains p ->
  pool_inv net domains (mkPool (domainChan p) (resultChan p) true (workers p) (probed p)).
Proof. done. Qed.

(** A worker that was not probing and is not probing now changes nothing
    of what is in flight. *)
Lemma in_flight_insert (ws : list worker) i w w' d :
  ws !! i = Some w -> (forall d', w <> Probing d') ->
  (exists j, ws !! j = Some (Probing d)) ->
  exists j, <[i := w']> ws !! j = Some (Probing d).
Proof.
  intros Hw Hnp [j Hj]. exists j. apply list_lookup_insert_Some. right.
  split; [|done]. intros ->. rewrite Hw in Hj. injection Hj as ->. by eapply Hnp.
Qed.

Lemma pool_inv_run_worker net domains p i :
  pool_inv net domains p -> pool_inv net domains (run_worker net p i).
Proof.
  intros (Hres & Hprobed & Hqueue & Hheld & Hdom & Hfly). unfold run_worker.
  destruct (workers p !! i) as [w|] eqn:Hw; [|done].
  assert (i < length (workers p)) as Hi by (by apply lookup_lt_Some in Hw).
  destruct w as [|d|d|]; simpl.
  - (* Ready *)
    destruct (domainChan p) as [|d rest] eqn:Hq;
      unfold pool_inv, in_flight, set_worker; simpl; split_pool_inv; try (by eauto).
    + intros d Hd. destruct (Hprobed d Hd) as [|Hj]; [by left|].
      right. by eapply in_flight_insert.
    + intros d Hd. rewrite Hq in Hd. by apply elem_of_nil in Hd.
    + intros j d [(_ & [=] & _)|[_ Hj]]%list_lookup_insert_Some. eauto.
    + intros d [j [(_ & [=] & _)|[_ Hj]]%list_lookup_insert_Some].
      apply Hfly. by exists j.
    + intros d' Hd. destruct (Hprobed d' Hd) as [|Hj]; [by left|].
      right. by eapply in_flight_insert.
    + intros d' Hd. apply Hqueue. by right.
    + intros j d' [(_ & [= <-] & _)|[_ Hj]]%list_lookup_insert_Some; [|eauto].
      apply Hqueue. by left.
    + intros d' [j [(_ & [=] & _)|[_ Hj]]%list_lookup_insert_Some].
      apply Hfly. by exists j.
  - (* Holding *)
    destruct (ctxDone p); unfold pool_inv, in_flight, set_worker; simpl;
      split_pool_inv; try (by eauto).
    + intros d' Hd. destruct (Hprobed d' Hd) as [|Hj]; [by left|].
      right. by eapply in_flight_insert.
    + intros j d' [(_ & [=] & _)|[_ Hj]]%list_lookup_insert_Some. eauto.
    + intros d' [j [(_ & [=] & _)|[_ Hj]]%list_lookup_insert_Some].
      apply Hfly. by exists j.
    + intros r Hr. destruct (Hres r Hr). split; [done|].
      apply elem_of_app. by left.
    + intros d' [Hd| ->%list_elem_of_singleton]%elem_of_app.
      * destruct (Hprobed d' Hd) as [|Hj]; [by left|].
        right. by eapply in_flight_insert.
      * right. exists i. apply list_lookup_insert_Some. by left.
    + intros j d' [(_ & [=] & _)|[_ Hj]]%list_lookup_insert_Some. eauto.
    + intros d' [Hd| ->%list_elem_of_singleton]%elem_of_app; eauto.
    + intros d' [j [(_ & [= <-] & _)|[_ Hj]]%list_lookup_insert_Some];
        apply elem_of_app.
      * right. by apply list_elem_of_singleton.
      * left. apply Hfly. by exists j.
  - (* Probing *)
    assert (d ∈ probed p) as Hd by (apply Hfly; by exists i).
    unfold pool_inv, in_flight, set_worker; simpl; split_pool_inv; try (by eauto).
    + intros r [Hr| ->%list_elem_of_singleton]%elem_of_app; [by apply Hres|].
      by rewrite CheckDomain_domain.
    + intros d' Hd'. rewrite map_app, elem_of_app. simpl.
      destruct (Hprobed d' Hd') as [|[j Hj]]; [by left; left|].
      destruct (decide (i = j)) as [<-|Hne].
      * left; right. rewrite CheckDomain_domain.
        apply list_elem_of_singleton. congruence.
      * right. exists j. apply list_lookup_insert_Some. by right.
    + intros j d' [(_ & [=] & _)|[_ Hj]]%list_lookup_insert_Some. eauto.
    + intros d' [j [(_ & [=] & _)|[_ Hj]]%list_lookup_insert_Some].
      apply Hfly. by exists j.
  - (* Exited *)
    unfold pool_inv, in_flight, set_worker; simpl.
    by rewrite list_insert_id.
Qed.

Lemma pool_inv_events net domains p sched :
  pool_inv net domains p -> pool_inv net domains (foldl (pool_event net) p sched).
Proof.
  revert p. induction sched as [|e sched IH]; intros p Hp; [done|].
  simpl. apply IH. destruct e; simpl; [done|]. by apply pool_inv_run_worker.
Qed.

Lemma pool_inv_iter net domains i n p :
  pool_inv net domains p ->
  pool_inv net domains (Nat.iter n (fun p => run_worker net p i) p).
Proof. intros Hp. induction n as [|n IH]; simpl; [done|]. by apply pool_inv_run_worker. Qed.

Lemma pool_inv_wait net domains p :
  pool_inv net domains p -> pool_inv net domains (wait net p).
Proof.
  unfold wait. generalize (seq 0 (length (workers p))). intros js. revert p.
  induction js as [|j js IH]; intros p Hp; [done|].
  simpl. apply IH. by apply pool_inv_iter.
Qed.

(** *** Every worker returns *)

Lemma run_worker_other net p i j :
  j <> i -> workers (run_worker net p i) !! j = workers p !! j.
Proof.
  intros Hne. unfold run_worker. destruct (workers p !! i) as [w|] eqn:Hw; [|done].
  assert (workers (step_worker net p w).1 = workers p) as Hsame.
  { destruct w; simpl; [by destruct (domainChan p)|by destruct (ctxDone p)|done..]. }
  destruct (step_worker net p w) as [p' w']. simpl in *.
  rewrite list_lookup_insert_ne by done. by rewrite Hsame.
Qed.

Lemma run_worker_length net p i :
  length (workers (run_worker net p i)) = length (workers p).
Proof.
  unfold run_worker. destruct (workers p !! i) as [w|] eqn:Hw; [|done].
  assert (workers (step_worker net p w).1 = workers p) as Hsame.
  { destruct w; simpl; [by destruct (domainChan p)|by destruct (ctxDone p)|done..]. }
  destruct (step_worker net p w) as [p' w']. simpl in *.
  by rewrite length_insert, Hsame.
Qed.

(** A worker that has returned stays so. *)
Lemma iter_exited net i n p :
  workers p !! i = Some Exited ->
  workers (Nat.iter n (fun p => run_worker net p i) p) !! i = Some Exited.
Proof.
  intros Hw. induction n as [|n IH]; [done|].
  rewrite Nat.iter_succ. unfold run_worker at 1. rewrite IH. simpl.
  apply list_lookup_insert_eq. by apply lookup_lt_Some in IH.
Qed.

(** Three steps per queued domain, and [rank] more, bring a worker to its
    return. *)
Lemma iter_run_worker_exits net i n p w :
  workers p !! i = Some w ->
  3 * length (domainChan p) + rank w <= n ->
  workers (Nat.iter n (fun p => run_worker net p i) p) !! i = Some Exited.
Proof.
  revert p w. induction n as [|n IH]; intros p w Hw Hn.
  - destruct w; simpl in Hn; try lia. done.
  - rewrite Nat.iter_succ_r.
    assert (i < length (workers p)) as Hi by (by apply lookup_lt_Some in Hw).
    unfold run_worker at 2. rewrite Hw.
    destruct w as [|d|d|]; simpl in *.
    + destruct (domainChan p) as [|d rest] eqn:Hq; simpl in *.
      * apply (IH _ Exited); simpl; rewrite ?Hq; simpl; [|lia].
        by apply list_lookup_insert_eq.
      * apply (IH _ (Holding d)); simpl; [|lia].
        by apply list_lookup_insert_eq.
    + destruct (ctxDone p).
      * apply (IH _ Exited); simpl; [|lia]. by apply list_lookup_insert_eq.
      * apply (IH _ (Probing d)); simpl; [|lia]. by apply list_lookup_insert_eq.
    + apply (IH _ Ready); simpl; [|lia]. by apply list_lookup_insert_eq.
    + apply iter_exited. simpl. by apply list_lookup_insert_eq.
Qed.

Lemma finish_worker_exits net p i :
  i < length (workers p) -> workers (finish_worker net p i) !! i = Some Exited.
Proof.
  intros Hi. destruct (lookup_lt_is_Some_2 _ _ Hi) as [w Hw].
  apply (iter_run_worker_exits _ _ _ _ w); [done|]. destruct w; simpl; lia.
Qed.

Lemma finish_worker_other net p i j :
  j <> i -> workers (finish_worker net p i) !! j = workers p !! j.
Proof.
  intros Hne. unfold finish_worker.
  induction (3 * length (domainChan p) + 3) as [|n IH]; simpl; [done|].
  by rewrite run_worker_other.
Qed.

Lemma finish_worker_length net p i :
  length (workers (finish_worker net p i)) = length (workers p).
Proof.
  unfold finish_worker.
  induction (3 * length (domainChan p) + 3) as [|n IH]; simpl; [done|].
  by rewrite run_worker_length.
Qed.

Lemma finish_all_exited net js p j :
  j < length (workers p) ->
  j ∈ js \/ workers p !! j = Some Exited ->
  workers (foldl (finish_worker net) p js) !! j = Some Exited.
Proof.
  revert p. induction js as [|i js IH]; intros p Hj Hcase; simpl.
  - destruct Hcase as [?%elem_of_nil|]; done.
  - apply IH; [by rewrite finish_worker_length|].
    destruct (decide (j = i)) as [->|Hne].
    + right. by apply finish_worker_exits.
    + rewrite finish_worker_other by done.
      destruct Hcase as [[->|]%elem_of_cons|]; [done|by left|by right].
Qed.

Lemma finish_all_length net js p :
  length (workers (foldl (finish_worker net) p js)) = length (workers p).
Proof.
  revert p. induction js as [|i js IH]; intros p; simpl; [done|].
  by rewrite IH, finish_worker_length.
Qed.

(** When [wg.Wait()] returns, every worker has returned. *)
Lemma wait_all_exited net p j w :
  workers (wait net p) !! j = Some w -> w = Exited.
Proof.
  intros Hw. assert (j < length (workers p)) as Hj.
  { apply lookup_lt_Some in Hw. unfold wait in Hw. by rewrite finish_all_length in Hw. }
  unfold wait in Hw. rewrite finish_all_exited in Hw; [congruence|done|].
  left. apply list_elem_of_In, in_seq. lia.
Qed.

(** X4: [CheckDomains] returns: when it collects, every worker has
    returned, whatever the schedule. *)
Theorem CheckDomains_workers_return (net : network) (workers : Z)
    (sched : list event) (domains : list string) :
  Forall (fun w => w = Exited)
         (Healthcheck.workers (run_pool net workers sched domains)).
Proof.
  apply Forall_forall. intros w [j Hj]%list_elem_of_lookup.
  by apply wait_all_exited in Hj.
Qed.

(** *** Collecting *)

Lemma result_map_lookup received (m0 : gmap string CheckResult) d :
  let m := foldl (fun m result => <[CheckResult_Domain result := result]> m) m0 received in
  (d ∈ map CheckResult_Domain received ->
   exists r, m !! d = Some r /\ r ∈ received /\ CheckResult_Domain r = d) /\
  (d ∉ map CheckResult_Domain received -> m !! d = m0 !! d).
Proof.
  revert m0. induction received as [|r rest IH]; intros m0; simpl.
  - split; [by intros ?%elem_of_nil|done].
  - destruct (IH (<[CheckResult_Domain r := r]> m0)) as [Hin Hout].
    destruct (decide (d ∈ map CheckResult_Domain rest)) as [Hd|Hd].
    + split; [|by intros []%not_elem_of_cons].
      intros _. destruct (Hin Hd) as (r' & ? & ? & ?).
      exists r'. split; [done|]. split; [by right|done].
    + rewrite (Hout Hd). split.
      * intros [->|]%elem_of_cons; [|done].
        exists r. rewrite lookup_insert_eq. split; [done|]. split; [by left|done].
      * intros [Hne _]%not_elem_of_cons. by rewrite lookup_insert_ne.
Qed.

Lemma Forall_map_all {A B} (P : B -> Prop) (f : A -> B) l :
  (forall x, P (f x)) -> Forall P (map f l).
Proof. intros H. induction l; simpl; by constructor. Qed.

(** C5: whatever the network, the number of workers, the scheduling of
    the workers and the moment of a cancellation, [CheckDomains] returns,
    in the order of the request, one result per requested domain; the
    result of a domain [CheckDomain] was called on is the result of that
    call, and the result of a domain it was not called on has status
    "unknown" -- no domain is dropped, and none that was not probed is
    reported "down". *)
Theorem CheckDomains_covers (net : network) (workers : Z) (sched : list event)
    (domains : list string) :
  let results := CheckDomains net workers sched domains in
  let called := probed_domains net workers sched domains in
  map CheckResult_Domain results = domains /\
  length results = length domains /\
  Forall (fun r =>
            if bool_decide (CheckResult_Domain r ∈ called)
            then r = CheckDomain net (CheckResult_Domain r)
            else r = mkCheckResult (CheckResult_Domain r) "unknown" None)
         results /\
  (forall r, r ∈ results -> CheckResult_Domain r ∉ called ->
             CheckResult_Status r = "unknown") /\
  (forall d, d ∈ called -> d ∈ domains).
Proof.
  intros results called. subst results called.
  unfold CheckDomains, probed_domains, collect.
  set (p := run_pool net workers sched domains).
  set (m := foldl _ ∅ (resultChan p)).
  assert (pool_inv net domains p) as (Hres & Hprobed & _ & _ & Hdom & _).
  { apply pool_inv_wait, pool_inv_events, pool_inv_start. }
  assert (forall d, d ∈ probed p -> d ∈ map CheckResult_Domain (resultChan p)) as Hdone.
  { intros d Hd. destruct (Hprobed d Hd) as [|[j Hj]]; [done|].
    by apply wait_all_exited in Hj. }
  assert (forall d,
            match m !! d with
            | Some r => CheckResult_Domain r = d /\ d ∈ probed p /\
                        r = CheckDomain net d
            | None => d ∉ probed p
            end) as Hm.
  { intros d. destruct (result_map_lookup (resultChan p) ∅ d) as [Hin Hout].
    fold m in Hin, Hout.
    destruct (decide (d ∈ map CheckResult_Domain (resultChan p))) as [Hd|Hd].
    - destruct (Hin Hd) as (r & -> & Hr & <-).
      destruct (Hres r Hr). done.
    - rewrite (Hout Hd), lookup_empty. intros ?. by apply Hd, Hdone. }
  assert (Forall (fun r =>
            if bool_decide (CheckResult_Domain r ∈ probed p)
            then r = CheckDomain net (CheckResult_Domain r)
            else r = mkCheckResult (CheckResult_Domain r) "unknown" None)
            (map (fun domain =>
                    match m !! domain with
                    | Some result => result
                    | None => mkCheckResult domain "unknown" None
                    end) domains)) as Hall.
  { apply Forall_map_all. intros d. specialize (Hm d).
    destruct (m !! d) as [r|]; simpl.
    - destruct Hm as (-> & ? & ?). by rewrite bool_decide_eq_true_2.
    - by rewrite bool_decide_eq_false_2. }
  split; [|split; [|split; [|split]]].
  - rewrite map_map. rewrite <- (map_id domains) at 2. apply map_ext.
    intros d. specialize (Hm d). by destruct (m !! d) as [r|]; [destruct Hm|].
  - apply length_map.
  - done.
  - intros r Hr Hnot. apply (proj1 (Forall_forall _ _) Hall) in Hr.
    rewrite bool_decide_eq_false_2 in Hr by done. by rewrite Hr.
  - done.
Qed.

End HealthcheckFacts.

(** ** The program processor and the scan *)
Module SchedulerFacts.
Import Scheduler.

(** X1: the cleaned, deduplicated domains never hold a rejected (empty)
    identity, and hold none twice. *)
Lemma finalDomains_spec unique allDomains :
  ("" ∉ finalDomains unique allDomains) /\
  NoDup (finalDomains unique allDomains) /\
  (forall d, d ∈ finalDomains unique allDomains -> d ∉ unique).
Proof.
  revert unique. induction allDomains as [|x l IH]; intros unique; cbn [finalDomains].
  - split; [apply not_elem_of_nil|]. split; [apply NoDup_nil_2|].
    by intros d ?%elem_of_nil.
  - case_bool_decide as Hempty; cbn [negb andb]; [apply IH|].
    case_bool_decide as Hseen; cbn [negb andb]; [apply IH|].
    destruct (IH ({[Normalizer.cleanDomain x]} ∪ unique)) as (Hne & Hnd & Hfresh).
    split; [|split].
    + apply not_elem_of_cons. split; [congruence|done].
    + apply NoDup_cons. split; [|done]. intros Hin%Hfresh.
      apply Hin, elem_of_union. left. by apply elem_of_singleton.
    + intros d [->|Hin%Hfresh]%elem_of_cons; [done|].
      intros Hd. apply Hin, elem_of_union. by right.
Qed.

(** *** Discovery without the tool *)


(** *** The scan *)

(** The scan of the sample world on a database whose driver fails the
    first statement and the fourth: the first program is not saved, the
    scope of the second cannot be fetched, a domain of the third cannot
    be saved; every program is processed and [RunScan] returns nil. *)
Example RunScan_swallows_failures :
  let '(db, log, err) := RunScan_run sample_world 30 (Database.empty [true; false; false; true]) in
  err = None /\
  log = [("acme", Some ErrDriver); ("globex", None); ("initech", None)] /\
  map Database.p_handle (Database.programs db) = ["globex"; "initech"] /\
  Database.domains db = [].
Proof. by vm_compute. Qed.

(** On a sound database the same scan stores every base domain. *)
Example RunScan_sample :
  let '(db, log, err) := RunScan_run sample_world 30 (Database.empty []) in
  err = None /\
  log = [("acme", None); ("globex", None); ("initech", None)] /\
  map (fun r => (Database.d_domain r, Database.d_program r, Database.d_status r))
      (Database.domains db)
  = [("acme.example", "acme", "up"); ("api.acme.example", "acme", "down");
     ("initech.example", "initech", "up")].
Proof. by vm_compute. Qed.

End SchedulerFacts.

(** ** The queries of the web interface *)
Module QueriesFacts.
Import Database Queries DatabaseFacts.

(** *** Sorting and limiting *)

#[local] Instance latest_first_trans {A} (at_ : A -> Z) : Transitive (latest_first at_).
Proof. unfold latest_first. intros a b c. lia. Qed.

#[local] Instance latest_first_total {A} (at_ : A -> Z) : Total (latest_first at_).
Proof. unfold latest_first. intros a b. lia. Qed.

Lemma order_by_desc_perm {A} (at_ : A -> Z) rows : order_by_desc at_ rows ≡ₚ rows.
Proof. apply merge_sort_Permutation. Qed.

Lemma order_by_desc_sorted {A} (at_ : A -> Z) rows :
  StronglySorted (latest_first at_) (order_by_desc at_ rows).
Proof. apply StronglySorted_merge_sort; apply _. Qed.

Lemma limit_rows_take {A} limit (rows : list A) :
  exists n, limit_rows limit rows = take n rows /\
            ((limit < 0)%Z -> length rows <= n) /\
            ((0 <= limit)%Z -> n = Z.to_nat limit).
Proof.
  unfold limit_rows. destruct (Z.ltb_spec limit 0).
  - exists (length rows). rewrite firstn_all. split; [done|]. split; [done|lia].
  - exists (Z.to_nat limit). split; [done|]. split; [lia|done].
Qed.

Lemma filter_perm {A} (p : A -> bool) l1 l2 :
  l1 ≡ₚ l2 -> List.filter p l1 ≡ₚ List.filter p l2.
Proof.
  induction 1 as [|x l1 l2 _ IH|x y l|l1 l2 l3 _ IH1 _ IH2]; simpl.
  - done.
  - destruct (p x); [by constructor|done].
  - destruct (p x), (p y); try done. apply perm_swap.
  - by etrans.
Qed.

Lemma elem_of_filter_list {A} (p : A -> bool) l x :
  x ∈ List.filter p l <-> x ∈ l /\ p x = true.
Proof. rewrite !list_elem_of_In. apply filter_In. Qed.

(** The rows a query with ORDER BY ... DESC LIMIT ? selects among
    [rows]: they are the latest, the latest first, and at most [limit]
    when the limit is not negative. *)
Lemma top_rows {A} (at_ : A -> Z) limit (rows : list A) :
  let result := limit_rows limit (order_by_desc at_ rows) in
  StronglySorted (latest_first at_) result /\
  exists rest,
    result ++ rest ≡ₚ rows /\
    (forall a b, a ∈ result -> b ∈ rest -> (at_ b <= at_ a)%Z) /\
    ((limit < 0)%Z -> rest = []) /\
    ((0 <= limit)%Z -> length result = Z.to_nat limit `min` length rows).
Proof.
  intros result. subst result.
  destruct (limit_rows_take limit (order_by_desc at_ rows)) as (n & -> & Hneg & Hpos).
  pose proof (order_by_desc_sorted at_ rows) as Hs.
  pose proof (order_by_desc_perm at_ rows) as Hp.
  rewrite <- (take_drop n (order_by_desc at_ rows)) in Hs.
  split; [by apply StronglySorted_app_1_l in Hs|].
  exists (drop n (order_by_desc at_ rows)). split; [by rewrite take_drop|].
  split; [|split].
  - intros a b Ha Hb. by apply (StronglySorted_app_1_elem_of _ _ _ a b Hs).
  - intros Hl. apply drop_ge. auto.
  - intros Hl. rewrite length_take, (Hpos Hl). by rewrite Hp.
Qed.

(** *** The queries on [domains] *)

Lemma select_domains_spec db cond limit :
  select_domains db cond limit =
  ((driver db).2,
   if fault_at 0 db then ([], Some ErrDriver)
   else (map scan_domain
           (limit_rows limit (order_by_desc d_discovered_at (List.filter cond (domains db)))),
         None)).
Proof.
  unfold select_domains. rewrite <- driver_fault.
  pose proof (driver_tables db) as (_ & Hd & _).
  destruct (driver db) as [[] db1]; simpl in *; [done|]. by rewrite Hd.
Qed.

End QueriesFacts.

Module DomainQueryFacts.
Import Database Queries DatabaseFacts QueriesFacts.

Lemma elem_of_map_list {A B} (f : A -> B) l y :
  y ∈ map f l <-> exists x, y = f x /\ x ∈ l.
Proof.
  rewrite list_elem_of_In, in_map_iff. split.
  - intros (x & <- & Hx). exists x. by rewrite list_elem_of_In.
  - intros (x & -> & Hx). exists x. by rewrite <- list_elem_of_In.
Qed.


Lemma filter_map_list {A B} (f : A -> B) (q : B -> bool) l :
  List.filter q (map f l) = map f (List.filter (fun x => q (f x)) l).
Proof. induction l as [|x l IH]; simpl; [done|]. destruct (q (f x)); simpl; by rewrite IH. Qed.

Lemma filter_filter_list {A} (p q : A -> bool) l :
  List.filter p (List.filter q l) = List.filter (fun x => q x && p x) l.
Proof.
  induction l as [|x l IH]; simpl; [done|].
  destruct (q x); simpl; [destruct (p x)|]; by rewrite IH.
Qed.

Lemma filter_unique {A B} `{EqDecision B} (f : A -> B) l x :
  NoDup (map f l) -> x ∈ l ->
  List.filter (fun y => bool_decide (f y = f x)) l = [x].
Proof.
  induction l as [|y l IH]; simpl; [by intros _ ?%elem_of_nil|].
  intros [Hnotin Hnd]%NoDup_cons [->|Hin]%elem_of_cons.
  - rewrite bool_decide_eq_true_2 by done. f_equal.
    clear IH Hnd. induction l as [|z l IH]; simpl; [done|].
    simpl in Hnotin. apply not_elem_of_cons in Hnotin as [Hne Hnotin].
    rewrite bool_decide_eq_false_2 by congruence. auto.
  - rewrite bool_decide_eq_false_2; [by apply IH|].
    intros E. apply Hnotin. rewrite E. apply elem_of_map_list. by exists x.
Qed.


(** X7 -- A domain saved for a program can be read back by
    [GetDomainsByProgram]: when no statement fails, the list of the
    program holds exactly one entry of that domain after [SaveDomain],
    with the status and check time just observed; the entry is flagged as
    new exactly when the domain had not been seen for the program
    before. *)
Theorem SaveDomain_then_GetDomainsByProgram (db : DB) (o : Domain) (now : Time) :
  faults db = [] -> unique_keys db ->
  let db1 := (SaveDomain db o now).1 in
  let '(_, (result, err)) := GetDomainsByProgram db1 (Domain_Program o) (-1) in
  err = None /\
  exists d,
    List.filter (fun d => bool_decide (Domain_Domain d = Domain_Domain o)) result = [d] /\
    Domain_Program d = Domain_Program o /\
    Domain_Status d = Domain_Status o /\
    Domain_LastChecked d = Domain_LastChecked o /\
    (Domain_IsNew d = true <->
     find_domain db (Domain_Domain o) (Domain_Program o) = None).
Proof.
  intros Hf Hk db1.
  assert (faults db1 = []) as Hf1 by by apply SaveDomain_keeps_no_fault.
  assert (unique_keys db1) as Hk1 by by apply SaveDomain_unique_keys.
  unfold GetDomainsByProgram. rewrite select_domains_spec.
  unfold fault_at. rewrite Hf1. simpl. split; [done|].
  (* the row of the key after the call *)
  assert (exists row, row ∈ domains db1 /\ key row = obs_key o /\
                      d_status row = Domain_Status o /\
                      d_last_checked row = Domain_LastChecked o /\
                      (d_is_new row = true <->
                       find_domain db (Domain_Domain o) (Domain_Program o) = None))
    as (row & Hin & Hkey & Hst & Hlc & Hnew).
  { subst db1. rewrite (SaveDomain_no_fault _ _ _ Hf).
    destruct (find_domain db (Domain_Domain o) (Domain_Program o)) as [r|] eqn:Hfind.
    - apply find_domain_Some in Hfind as [Hr Hkr].
      exists (update_row (Domain_Status o) (Domain_LastChecked o) false r).
      split; [|by repeat split].
      cbn zeta. cbn [fst set_domains domains]. unfold updated. apply elem_of_map_list. exists r.
      by rewrite bool_decide_eq_true_2.
    - eexists. split; [simpl; apply elem_of_app; right; apply list_elem_of_singleton;
                       reflexivity|].
      by repeat split. }
  exists (scan_domain row). split; [|by destruct row; inversion Hkey].
  unfold limit_rows. simpl.
  rewrite filter_map_list.
  set (mine := List.filter (fun r => bool_decide (d_program r = Domain_Program o))
                           (domains db1)).
  assert (List.filter (fun r => bool_decide (Domain_Domain (scan_domain r) = Domain_Domain o))
            (order_by_desc d_discovered_at mine) ≡ₚ [row]) as Hp.
  { rewrite (filter_perm _ _ _ (order_by_desc_perm d_discovered_at mine)).
    subst mine. rewrite filter_filter_list.
    rewrite <- (filter_unique key (domains db1) row Hk1 Hin).
    apply reflexive_eq, filter_ext. intros r. rewrite Hkey. unfold key, obs_key. simpl.
    repeat case_bool_decide; simpl; congruence. }
  by apply Permutation_singleton_r in Hp as ->.
Qed.

Lemma SaveDomain_then_GetDomainsByProgram_witness :
  faults sample_db = [] /\ unique_keys sample_db /\
  (GetDomainsByProgram (SaveDomain sample_db sample_up 30).1 "acme" (-1)).2.2 = None.
Proof.
  assert (unique_keys sample_db) as Hk by (apply NoDup_singleton).
  split; [reflexivity|]. split; [exact Hk|].
  pose proof (SaveDomain_then_GetDomainsByProgram sample_db sample_up 30 eq_refl Hk) as H.
  cbv zeta in H. change (Domain_Program sample_up) with "acme" in H.
  destruct (GetDomainsByProgram (SaveDomain sample_db sample_up 30).1 "acme" (-1))
    as [db [result err]].
  exact (proj1 H).
Defined.

End DomainQueryFacts.

Module StoreQueryFacts.
Import Database Queries DatabaseFacts QueriesFacts DomainQueryFacts.

Lemma driver_same db : same_tables db (driver db).2.
Proof. unfold same_tables, driver. by destruct (faults db). Qed.

Lemma same_tables_refl db : same_tables db db.
Proof. by repeat split. Qed.

Lemma same_tables_trans db1 db2 db3 :
  same_tables db1 db2 -> same_tables db2 db3 -> same_tables db1 db3.
Proof. unfold same_tables. intros (?&?&?&?&?&?) (?&?&?&?&?&?). repeat split; congruence. Qed.

Lemma select_count_spec {A} db (cond : A -> bool) (rows : DB -> list A) :
  (forall db', same_tables db db' -> rows db' = rows db) ->
  exists db', select_count db cond rows =
              (db', if fault_at 0 db then inl ErrDriver else inr (count cond (rows db))) /\
              same_tables db db' /\
              forall n, fault_at n db' = fault_at (S n) db.
Proof.
  intros Hrows. exists (driver db).2. unfold select_count.
  rewrite <- driver_fault. pose proof (driver_same db) as Hs.
  pose proof (fun n => fault_at_driver n db) as Hf.
  destruct (driver db) as [[] db1]; simpl in *; [done|].
  by rewrite (Hrows _ Hs).
Qed.


Lemma count_all {A} (l : list A) : count (fun _ => true) l = Z.of_nat (length l).
Proof. unfold count. f_equal. induction l; simpl; congruence. Qed.


(** What [GetStats] returns, statement by statement. *)
Lemma GetStats_cases db :
  exists db', same_tables db db' /\
    (GetStats db = (db', (∅, Some ErrDriver)) \/
     GetStats db =
     (db',
      (<["total_programs" := Z.of_nat (length (programs db))]>
         (<["down_domains" := count (fun r => bool_decide (d_status r = "down")) (domains db)]>
            (<["up_domains" := count (fun r => bool_decide (d_status r = "up")) (domains db)]>
               (<["new_domains" := count (fun r => d_is_new r) (domains db)]>
                  (<["total_domains" := Z.of_nat (length (domains db))]> ∅)))),
       None))).
Proof.
  assert (forall db0 db', same_tables db0 db' -> domains db' = domains db0) as Hd
    by (by intros ?? (?&?&?&?)).
  assert (forall db0 db', same_tables db0 db' -> programs db' = programs db0) as Hp
    by (by intros ?? (?&?)).
  unfold GetStats.
  destruct (select_count_spec db (fun _ => true) domains (Hd db)) as (db1 & -> & H1 & _).
  destruct (fault_at 0 db); [exists db1; split; [done|by left]|].
  destruct (select_count_spec db1 (fun r => d_is_new r) domains (Hd db1))
    as (db2 & -> & H2 & _).
  pose proof (same_tables_trans _ _ _ H1 H2) as H12.
  destruct (fault_at 0 db1); [exists db2; split; [done|by left]|].
  destruct (select_count_spec db2 (fun r => bool_decide (d_status r = "up")) domains (Hd db2))
    as (db3 & -> & H3 & _).
  pose proof (same_tables_trans _ _ _ H12 H3) as H13.
  destruct (fault_at 0 db2); [exists db3; split; [done|by left]|].
  destruct (select_count_spec db3 (fun r => bool_decide (d_status r = "down")) domains
              (Hd db3)) as (db4 & -> & H4 & _).
  pose proof (same_tables_trans _ _ _ H13 H4) as H14.
  destruct (fault_at 0 db3); [exists db4; split; [done|by left]|].
  destruct (select_count_spec db4 (fun _ => true) programs (Hp db4)) as (db5 & -> & H5 & _).
  pose proof (same_tables_trans _ _ _ H14 H5) as H15.
  destruct (fault_at 0 db4); [exists db5; split; [done|by left]|].
  exists db5. split; [done|]. right.
  by rewrite (Hd _ _ H1), (Hd _ _ H12), (Hd _ _ H13), (Hp _ _ H14), !count_all.
Qed.


Lemma MarkDomainsAsOld_spec db :
  MarkDomainsAsOld db =
  if fault_at 0 db then ((driver db).2, Some ErrDriver)
  else (set_domains (driver db).2
          (map (fun r => mkDomainsRow (d_id r) (d_domain r) (d_program r) (d_status r)
                           (d_discovered_at r) (d_last_checked r) false (d_created_at r))
               (domains db))
          (domains_seq db), None).
Proof.
  unfold MarkDomainsAsOld. rewrite <- driver_fault.
  pose proof (driver_same db) as (_ & _ & Hd & Hs & _).
  destruct (driver db) as [[] db1]; simpl in *; [done|].
  rewrite Hd, Hs. do 2 f_equal. apply map_ext. intros [? ? ? ? ? ? [] ?]; done.
Qed.

(** X9 -- [MarkDomainsAsOld] clears the new flag of every domain and
    changes nothing else: after it succeeded [GetNewDomains] returns no
    domain, whatever the limit, and [GetStats] counts no new domain. When
    it fails the table is as it was. *)
Theorem MarkDomainsAsOld_clears_new (db : DB) :
  let '(db1, err) := MarkDomainsAsOld db in
  programs db1 = programs db /\ status_changes db1 = status_changes db /\
  match err with
  | Some _ => domains db1 = domains db
  | None =>
      domains db1 =
      map (fun r => mkDomainsRow (d_id r) (d_domain r) (d_program r) (d_status r)
                      (d_discovered_at r) (d_last_checked r) false (d_created_at r))
          (domains db) /\
      (forall limit, (GetNewDomains db1 limit).2.1 = []) /\
      (forall stats, (GetStats db1).2 = (stats, None) ->
                     stats !! "new_domains" = Some 0%Z)
  end.
Proof.
  rewrite MarkDomainsAsOld_spec.
  pose proof (driver_same db) as (Hp & _ & Hd & _ & Hc & _).
  destruct (fault_at 0 db); [done|].
  split; [done|]. split; [done|]. split; [done|].
  set (db1 := set_domains _ _ _).
  assert (List.filter (fun r => d_is_new r) (domains db1) = []) as Hnone.
  { subst db1. cbn [domains set_domains]. generalize (domains db).
    intros rows. induction rows as [|r rows IH]; simpl; done. }
  split.
  - intros limit. unfold GetNewDomains. rewrite select_domains_spec.
    destruct (fault_at 0 db1); cbn [fst snd]; [done|]. rewrite Hnone.
    unfold limit_rows. by destruct (limit <? 0)%Z, (Z.to_nat limit).
  - intros stats Hstats.
    destruct (GetStats_cases db1) as (db2 & _ & [E | E]); rewrite E in Hstats; [done|].
    apply (f_equal fst) in Hstats. cbn [fst snd] in Hstats. subst stats.
    unfold count. by rewrite Hnone.
Qed.

End StoreQueryFacts.

Module StatusChangeFacts.
Import Database Queries DatabaseFacts QueriesFacts DomainQueryFacts StoreQueryFacts.

(** A statement handed to the driver: its outcome is the next fault, the
    tables stay, the later faults move up. *)
Lemma driver_cases db :
  exists db1, driver db = (fault_at 0 db, db1) /\ same_tables db db1 /\
              forall n, fault_at n db1 = fault_at (S n) db.
Proof.
  exists (driver db).2. split; [|split].
  - rewrite <- driver_fault. by destruct (driver db).
  - apply driver_same.
  - intros n. apply fault_at_driver.
Qed.

Lemma fault_at_lookup n db : fault_at n db = default false (faults db !! n).
Proof. unfold fault_at. apply nth_lookup. Qed.

Lemma scan_status_changes_spec db rows changes :
  exists db', same_tables db db' /\
    scan_status_changes db rows changes =
    (db', if existsb id (take (length rows) (faults db))
          then ([], Some ErrDriver)
          else (changes ++ map scan_status_change rows, None)).
Proof.
  revert db changes. induction rows as [|r rows IH]; intros db changes.
  - exists db. split; [apply same_tables_refl|]. simpl. by rewrite app_nil_r.
  - cbn [scan_status_changes]. pose proof (driver_same db) as Hs.
    unfold driver in *. destruct (faults db) as [|b fs] eqn:Hf.
    + destruct (IH db (changes ++ [scan_status_change r])) as (db' & Hs' & ->).
      exists db'. split; [done|]. rewrite Hf, take_nil. simpl.
      by rewrite <- app_assoc.
    + cbn [fst snd] in Hs. destruct b; [by exists (set_faults db fs)|].
      destruct (IH (set_faults db fs) (changes ++ [scan_status_change r]))
        as (db' & Hs' & ->).
      exists db'. split; [by apply (same_tables_trans _ _ _ Hs)|].
      cbn [length take existsb id orb]. change (faults (set_faults db fs)) with fs.
      by rewrite <- app_assoc.
Qed.

Lemma driver_faults db : faults (driver db).2 = tail (faults db).
Proof. unfold driver. by destruct (faults db) eqn:E; simpl; rewrite ?E. Qed.

(** What [GetStatusChanges] returns: nothing, and no error, when the
    check or the query fails; the error, and nothing, when the Scan of
    one of the rows fails; the rows otherwise. *)
Lemma GetStatusChanges_spec db limit onlyUnnotified :
  exists db', same_tables db db' /\
    GetStatusChanges db limit onlyUnnotified =
    (db',
     if fault_at 0 db || fault_at 1 db then ([], None)
     else
       if existsb id
            (take (length
                     (limit_rows limit
                        (order_by_desc sc_changed_at
                           (List.filter
                              (fun r => if onlyUnnotified then negb (sc_notified r)
                                        else true)
                              (status_changes db)))))
                  (drop 2 (faults db)))
       then ([], Some ErrDriver)
       else (map scan_status_change
               (limit_rows limit
                  (order_by_desc sc_changed_at
                     (List.filter
                        (fun r => if onlyUnnotified then negb (sc_notified r) else true)
                        (status_changes db)))),
             None)).
Proof.
  unfold GetStatusChanges.
  destruct (driver_cases db) as (db1 & Hd1 & Hs1 & Hf1).
  pose proof (driver_faults db) as Hfs1. rewrite Hd1 in *. cbn [snd] in Hfs1.
  destruct (fault_at 0 db); [by exists db1|].
  destruct (driver_cases db1) as (db2 & Hd2 & Hs2 & Hf2).
  pose proof (driver_faults db1) as Hfs2. rewrite Hd2 in *. cbn [snd] in Hfs2.
  rewrite (Hf1 0).
  destruct (fault_at 1 db);
    [exists db2; split; [by apply (same_tables_trans _ _ _ Hs1)|done]|].
  assert (status_changes db2 = status_changes db) as ->.
  { destruct Hs1 as (_ & _ & _ & _ & <- & _). by destruct Hs2 as (_ & _ & _ & _ & <- & _). }
  destruct (scan_status_changes_spec db2
              (limit_rows limit
                 (order_by_desc sc_changed_at
                    (List.filter
                       (fun r => if onlyUnnotified then negb (sc_notified r) else true)
                       (status_changes db)))) []) as (db3 & Hs3 & ->).
  exists db3. split.
  { apply (same_tables_trans _ _ _ Hs1). by apply (same_tables_trans _ _ _ Hs2). }
  assert (faults db2 = drop 2 (faults db)) as ->.
  { rewrite Hfs2, Hfs1. by destruct (faults db) as [|? [|? ?]]. }
  done.
Qed.


Lemma MarkStatusChangeNotified_spec db id :
  exists db1, same_tables db db1 /\
    MarkStatusChangeNotified db id =
    if fault_at 0 db then (db1, Some ErrDriver)
    else (set_status_changes db1
            (map (fun r => if bool_decide (sc_id r = id)
                           then mkStatusChangesRow (sc_id r) (sc_domain r) (sc_program r)
                                  (sc_old_status r) (sc_new_status r) (sc_changed_at r)
                                  true (sc_created_at r)
                           else r)
                 (status_changes db))
            (status_changes_seq db), None).
Proof.
  unfold MarkStatusChangeNotified.
  destruct (driver_cases db) as (db1 & -> & Hs & _). exists db1. split; [done|].
  destruct (fault_at 0 db); [done|].
  by destruct Hs as (_ & _ & _ & _ & -> & ->).
Qed.

(** X11 -- [MarkStatusChangeNotified] sets the notified flag of the
    change with the given id and nothing else; an id no change has is not
    an error and changes nothing. After it succeeded the change is no
    longer among the unnotified ones [GetStatusChanges] lists, and
    marking it once more changes nothing. *)
Theorem MarkStatusChangeNotified_hides (db : DB) (id : Z) :
  let '(db1, err) := MarkStatusChangeNotified db id in
  programs db1 = programs db /\ domains db1 = domains db /\
  match err with
  | Some _ => status_changes db1 = status_changes db
  | None =>
      Forall2 (fun old new =>
                 sc_id new = sc_id old /\ sc_domain new = sc_domain old /\
                 sc_program new = sc_program old /\
                 sc_old_status new = sc_old_status old /\
                 sc_new_status new = sc_new_status old /\
                 sc_changed_at new = sc_changed_at old /\
                 sc_created_at new = sc_created_at old /\
                 sc_notified new = (if bool_decide (sc_id old = id) then true
                                    else sc_notified old))
              (status_changes db) (status_changes db1) /\
      (id ∉ map sc_id (status_changes db) -> status_changes db1 = status_changes db) /\
      (forall limit c, c ∈ (GetStatusChanges db1 limit true).2.1 ->
                       StatusChange_ID c <> id) /\
      status_changes (MarkStatusChangeNotified db1 id).1 = status_changes db1
  end.
Proof.
  destruct (MarkStatusChangeNotified_spec db id) as (db1 & Hs & ->).
  pose proof Hs as (Hp & _ & Hd & _ & Hc & _).
  destruct (fault_at 0 db); [done|].
  split; [done|]. split; [done|].
  set (mark := fun r => if bool_decide (sc_id r = id)
                        then mkStatusChangesRow (sc_id r) (sc_domain r) (sc_program r)
                               (sc_old_status r) (sc_new_status r) (sc_changed_at r)
                               true (sc_created_at r)
                        else r).
  set (db2 := set_status_changes db1 _ _).
  assert (status_changes db2 = map mark (status_changes db)) as Hrows by done.
  rewrite Hrows. split; [|split; [|split]].
  - apply Forall2_map_diag, Forall_forall. intros r _. subst mark. simpl.
    by case_bool_decide.
  - intros Hid. rewrite <- (map_id (status_changes db)) at 2. apply map_ext_in.
    intros r Hr. subst mark. simpl. rewrite bool_decide_eq_false_2; [done|].
    intros <-. apply Hid, elem_of_map_list. exists r. by rewrite list_elem_of_In.
  - intros limit c.
    destruct (GetStatusChanges_spec db2 limit true) as (db3 & _ & ->). cbn [fst snd].
    destruct (fault_at 0 db2 || fault_at 1 db2); [by intros ?%elem_of_nil|].
    destruct (existsb _ _); [by intros ?%elem_of_nil|]. cbn [fst].
    intros (r & -> & Hr)%elem_of_map_list.
    destruct (top_rows sc_changed_at limit
                (List.filter (fun r => negb (sc_notified r)) (status_changes db2)))
      as (_ & rest & Hperm & _).
    assert (r ∈ List.filter (fun r => negb (sc_notified r)) (status_changes db2))
      as [Hin Hn]%elem_of_filter_list.
    { rewrite <- Hperm. apply elem_of_app. by left. }
    rewrite Hrows in Hin. apply elem_of_map_list in Hin as (r0 & -> & _).
    subst mark. simpl in *. by case_bool_decide.
  - destruct (MarkStatusChangeNotified_spec db2 id) as (db3 & Hs3 & ->).
    destruct Hs3 as (_ & _ & _ & _ & Hc3 & _).
    destruct (fault_at 0 db2); cbn [fst set_status_changes status_changes];
      [by rewrite Hc3, Hrows|].
    rewrite Hrows, map_map.
    apply map_ext. intros r. subst mark. cbv beta.
    destruct (bool_decide (sc_id r = id)) eqn:E; simpl; by rewrite E.
Qed.

End StatusChangeFacts.

Module ProgramFacts.
Import Database Queries DatabaseFacts QueriesFacts DomainQueryFacts StoreQueryFacts
       StatusChangeFacts.

Lemma SaveProgram_spec db program now :
  exists db1, same_tables db db1 /\
    SaveProgram db program now =
    if fault_at 0 db then (db1, Some ErrDriver)
    else
      let id := next_id (programs_seq db) (map p_id (programs db)) in
      (set_programs db1
         (List.filter (fun r => negb (bool_decide (p_handle r = Program_Handle program)))
                      (programs db) ++
          [mkProgramsRow id (Program_Name program) (Program_Handle program)
             (Program_URL program) (Program_Domain program)
             (Program_OffersBounties program) (Program_ProgramType program) now now])
         id, None).
Proof.
  unfold SaveProgram, replace_program.
  destruct (driver_cases db) as (db1 & -> & Hs & _). exists db1. split; [done|].
  destruct (fault_at 0 db); [done|].
  by destruct Hs as (-> & -> & _).
Qed.

Lemma select_programs_spec db cond :
  exists db1, same_tables db db1 /\
    select_programs db cond =
    (db1, if fault_at 0 db then ([], Some ErrDriver)
          else (map scan_program (List.filter cond (programs db)), None)).
Proof.
  unfold select_programs.
  destruct (driver_cases db) as (db1 & -> & Hs & _). exists db1. split; [done|].
  destruct (fault_at 0 db); [done|]. by destruct Hs as (-> & _).
Qed.

Lemma filter_none {A} (p : A -> bool) l :
  (forall x, x ∈ l -> p x = false) -> List.filter p l = [].
Proof.
  induction l as [|x l IH]; simpl; [done|]. intros H.
  rewrite (H x) by left. apply IH. intros y Hy. apply H. by right.
Qed.

Lemma NoDup_map_filter {A B} (f : A -> B) (p : A -> bool) l :
  NoDup (map f l) -> NoDup (map f (List.filter p l)).
Proof.
  induction l as [|x l IH]; simpl; [done|].
  intros [Hx Hnd]%NoDup_cons. destruct (p x); [|by apply IH].
  simpl. apply NoDup_cons. split; [|by apply IH].
  intros (y & E & [Hin _]%elem_of_filter_list)%elem_of_map_list.
  apply Hx, elem_of_map_list. by exists y.
Qed.

(** X12 -- [SaveProgram] keeps the handles of the programs table unique
    and touches no other table and no program of another handle. When it
    succeeds the table holds one row of the handle, with the fields
    given and a row id larger than every id it held: a program saved
    again gets a new id. When it fails the table is as it was. *)
Theorem SaveProgram_unique_handle (db : DB) (program : Program) (now : Time) :
  NoDup (map p_handle (programs db)) ->
  let '(db1, err) := SaveProgram db program now in
  domains db1 = domains db /\ status_changes db1 = status_changes db /\
  NoDup (map p_handle (programs db1)) /\
  (forall r, p_handle r <> Program_Handle program ->
             r ∈ programs db1 <-> r ∈ programs db) /\
  match err with
  | Some _ => programs db1 = programs db
  | None =>
      exists r,
        List.filter (fun r => bool_decide (p_handle r = Program_Handle program))
                    (programs db1) = [r] /\
        p_name r = Program_Name program /\ p_url r = Program_URL program /\
        p_domain r = Program_Domain program /\
        p_offers_bounties r = Program_OffersBounties program /\
        p_program_type r = Program_ProgramType program /\
        p_last_scanned r = now /\
        (forall r', r' ∈ programs db -> (p_id r' < p_id r)%Z)
  end.
Proof.
  intros Hnd. destruct (SaveProgram_spec db program now) as (db1 & Hs & ->).
  pose proof Hs as (Hp & _ & Hd & _ & Hc & _).
  destruct (fault_at 0 db).
  { rewrite Hp. by repeat split. }
  cbn zeta. cbn [set_programs programs domains status_changes].
  set (others := List.filter _ (programs db)).
  set (row := mkProgramsRow _ _ _ _ _ _ _ _ _).
  assert (forall r, r ∈ others <-> r ∈ programs db /\ p_handle r <> Program_Handle program)
    as Hothers.
  { intros r. subst others. rewrite elem_of_filter_list, negb_true_iff.
    by rewrite bool_decide_eq_false. }
  split; [done|]. split; [done|]. split; [|split].
  - rewrite map_app. apply NoDup_app. split; [|split].
    + by apply NoDup_map_filter.
    + intros h (r & -> & [_ Hne]%Hothers)%elem_of_map_list Hh.
      by apply list_elem_of_singleton in Hh.
    + apply NoDup_singleton.
  - intros r Hne. rewrite elem_of_app, Hothers, list_elem_of_singleton.
    split; [intros [[? _]| ->]; [done|by destruct Hne]|by left].
  - exists row. split; [|repeat split].
    + rewrite List.filter_app. simpl. rewrite bool_decide_eq_true_2 by done.
      rewrite filter_none; [done|].
      intros r [_ Hne]%Hothers. by apply bool_decide_eq_false.
    + intros r' Hr'. apply next_id_fresh, elem_of_map_list. by exists r'.
Qed.

Lemma SaveProgram_unique_handle_witness :
  let program := mkProgram 0 "Acme" "acme" "https://hackerone.com/acme" "" true "RDP" 0 in
  NoDup (map p_handle (programs sample_db)) /\
  NoDup (map p_handle (programs (SaveProgram sample_db program 30).1)).
Proof.
  intros program. split; [apply NoDup_nil_2|].
  pose proof (SaveProgram_unique_handle sample_db program 30 NoDup_nil_2) as H.
  destruct (SaveProgram sample_db program 30) as [db1 err].
  exact (proj1 (proj2 (proj2 H))).
Defined.

(** X13 -- A program saved can be read back by type and by bounty: when
    no statement fails, after [SaveProgram] the programs of a type that
    [GetProgramsByType] returns hold the saved program, under its handle,
    exactly when the type asked for is its type, and
    [GetProgramsWithBounties] returns it exactly when it offers bounties;
    what is read back is what was saved, with the new row id and the
    instant of the call as scan time. *)
Theorem SaveProgram_then_GetProgramsByType (db : DB) (program : Program) (now : Time) :
  faults db = [] ->
  let db1 := (SaveProgram db program now).1 in
  let saved :=
    mkProgram (next_id (programs_seq db) (map p_id (programs db)))
      (Program_Name program) (Program_Handle program) (Program_URL program)
      (Program_Domain program) (Program_OffersBounties program)
      (Program_ProgramType program) now in
  let mine := fun q => bool_decide (Program_Handle q = Program_Handle program) in
  (forall programType,
     GetProgramsByType db1 programType =
     (db1, (map scan_program
              (List.filter (fun r => bool_decide (p_program_type r = programType))
                           (programs db1)), None)) /\
     List.filter mine (GetProgramsByType db1 programType).2.1 =
     if bool_decide (programType = Program_ProgramType program) then [saved] else []) /\
  List.filter mine (GetProgramsWithBounties db1).2.1 =
  if Program_OffersBounties program then [saved] else [].
Proof.
  intros Hf db1 saved mine.
  assert (db1 =
          set_programs db
            (List.filter (fun r => negb (bool_decide (p_handle r = Program_Handle program)))
                         (programs db) ++
             [mkProgramsRow (next_id (programs_seq db) (map p_id (programs db)))
                (Program_Name program) (Program_Handle program)
                (Program_URL program) (Program_Domain program)
                (Program_OffersBounties program) (Program_ProgramType program) now now])
            (next_id (programs_seq db) (map p_id (programs db)))) as Hdb1.
  { subst db1. unfold SaveProgram, replace_program. by rewrite (driver_no_fault _ Hf). }
  assert (faults db1 = []) as Hf1 by (by rewrite Hdb1).
  assert (forall cond,
            select_programs db1 cond =
            (db1, (map scan_program (List.filter cond (programs db1)), None))) as Hsel.
  { intros cond. unfold select_programs. by rewrite (driver_no_fault _ Hf1). }
  assert (forall cond,
            List.filter mine (map scan_program (List.filter cond (programs db1))) =
            if cond (mkProgramsRow (next_id (programs_seq db) (map p_id (programs db)))
                       (Program_Name program) (Program_Handle program)
                       (Program_URL program) (Program_Domain program)
                       (Program_OffersBounties program) (Program_ProgramType program)
                       now now)
            then [saved] else []) as Hmine.
  { intros cond. rewrite filter_map_list, filter_filter_list, Hdb1.
    cbn [programs set_programs]. rewrite List.filter_app.
    rewrite (filter_none _ (List.filter _ (programs db))).
    - simpl. destruct (cond _); simpl; [|done]. subst mine. simpl.
      by rewrite bool_decide_eq_true_2.
    - intros r [_ Hne%negb_true_iff]%elem_of_filter_list.
      subst mine. simpl. rewrite Hne. apply andb_false_r. }
  split.
  - intros programType. unfold GetProgramsByType. rewrite Hsel. split; [done|].
    cbn [fst snd]. rewrite Hmine. simpl.
    repeat case_bool_decide; congruence.
  - unfold GetProgramsWithBounties. rewrite Hsel. cbn [fst snd]. by rewrite Hmine.
Qed.

Lemma SaveProgram_then_GetProgramsByType_witness :
  let program := mkProgram 0 "Acme" "acme" "https://hackerone.com/acme" "" true "RDP" 0 in
  faults sample_db = [] /\
  List.filter (fun q => bool_decide (Program_Handle q = "acme"))
    (GetProgramsByType (SaveProgram sample_db program 30).1 "VDP").2.1 = [].
Proof.
  intros program. split; [reflexivity|].
  exact (proj2 (proj1 (SaveProgram_then_GetProgramsByType sample_db program 30 eq_refl)
                  "VDP")).
Defined.


End ProgramFacts.

(** ** Joining and splitting *)
Module GoStdFacts.
Import GoStrings GoStd StringFacts DomainQueryFacts.

Lemma bytes_app s t : bytes (s +:+ t) = bytes s ++ bytes t.
Proof. unfold bytes. induction s as [|c s IH]; simpl; [done|]. by rewrite IH. Qed.

Lemma split_bytes_no_sep sep l cur :
  sep ∉ l -> split_bytes sep l cur = [cur ++ l].
Proof.
  revert cur. induction l as [|c l IH]; intros cur Hn; simpl.
  - by rewrite app_nil_r.
  - apply not_elem_of_cons in Hn as [Hne Hn].
    rewrite bool_decide_eq_false_2 by congruence.
    by rewrite IH, <- app_assoc.
Qed.

Lemma split_bytes_app_sep sep x r cur :
  sep ∉ x -> split_bytes sep (x ++ sep :: r) cur = (cur ++ x) :: split_bytes sep r [].
Proof.
  revert cur. induction x as [|c x IH]; intros cur Hn; simpl.
  - rewrite bool_decide_eq_true_2 by done. by rewrite app_nil_r.
  - apply not_elem_of_cons in Hn as [Hne Hn].
    rewrite bool_decide_eq_false_2 by congruence.
    by rewrite IH, <- app_assoc.
Qed.

(** No piece holds the separator. *)
Lemma split_bytes_pieces sep l cur :
  sep ∉ cur -> Forall (fun p => sep ∉ p) (split_bytes sep l cur).
Proof.
  revert cur. induction l as [|c l IH]; intros cur Hn; simpl.
  - by constructor.
  - case_bool_decide as E.
    + constructor; [done|]. apply IH, not_elem_of_nil.
    + apply IH. rewrite elem_of_app, list_elem_of_singleton. intros [?| ->]; [done|].
      by destruct E.
Qed.

Lemma Join_cons x y rest sep :
  Join (x :: y :: rest) sep = x +:+ sep +:+ Join (y :: rest) sep.
Proof. done. Qed.

(** [Split] undoes [Join] on a list that is not empty and whose elements
    do not hold the separator. *)
Lemma Split_Join (sep : ascii) elems :
  elems <> [] -> Forall (fun e => sep ∉ bytes e) elems ->
  Split (Join elems (String sep "")) sep = elems.
Proof.
  unfold Split. induction elems as [|x [|y rest] IH]; intros Hne Hall; [done|..].
  - simpl. apply Forall_cons in Hall as [Hx _].
    rewrite split_bytes_no_sep by done. simpl. by rewrite of_bytes_bytes.
  - rewrite Join_cons, !bytes_app. apply Forall_cons in Hall as [Hx Hall].
    change (bytes (String sep "")) with [sep]. simpl ([sep] ++ _).
    rewrite split_bytes_app_sep by done. simpl (map _ (_ :: _)).
    rewrite of_bytes_bytes. f_equal. by apply IH.
Qed.

Lemma Split_pieces sep s : Forall (fun e => sep ∉ bytes e) (Split s sep).
Proof.
  unfold Split. apply Forall_forall.
  intros e (p & -> & Hp)%elem_of_map_list.
  rewrite bytes_of_bytes.
  pose proof (split_bytes_pieces sep (bytes s) [] (not_elem_of_nil _)) as Hall.
  rewrite Forall_forall in Hall. by apply Hall.
Qed.

Lemma Join_empty (sep : ascii) elems :
  Forall (fun e => sep ∉ bytes e) elems ->
  Join elems (String sep "") = "" <-> elems = [] \/ elems = [""].
Proof.
  intros Hall. split.
  - destruct elems as [|x [|y rest]]; [by left|simpl; intros ->; by right|].
    rewrite Join_cons. intros E%(f_equal bytes). rewrite !bytes_app in E.
    by destruct (bytes x).
  - by intros [-> | ->].
Qed.

End GoStdFacts.

(** ** The table [domain_info] *)
Module DomainInfoFacts.
Import GoStrings GoStd StringFacts GoStdFacts Database Queries DatabaseFacts QueriesFacts
       ProgramFacts.

Lemma find_none_all {A} (p : A -> bool) l :
  (forall x, x ∈ l -> p x = false) -> List.find p l = None.
Proof.
  induction l as [|x l IH]; simpl; [done|]. intros H.
  rewrite (H x) by left. apply IH. intros y Hy. apply H. by right.
Qed.

(** X15 -- What [SaveDomainInfo] stored for a domain, [GetDomainInfo]
    returns, when no statement fails: the program, status, title, status
    code and check time as they were given. The technologies are stored
    joined by commas and split again on reading: they come back as they
    were given exactly when none of them holds a comma and the list is
    not the list of one empty string. The table keeps one row for the
    domain, whatever program earlier rows of the domain had, and the
    rows of other domains are as they were. *)
Theorem SaveDomainInfo_then_GetDomainInfo (s : InfoDB) (info : DomainInfo) (now : Time) :
  faults (tables s) = [] ->
  let s1 := (SaveDomainInfo s info now).1 in
  let '(_, (got, err)) := GetDomainInfo s1 (DomainInfo_Domain info) in
  err = None /\
  (exists info',
     got = Some info' /\
     DomainInfo_Domain info' = DomainInfo_Domain info /\
     DomainInfo_Program info' = DomainInfo_Program info /\
     DomainInfo_Status info' = DomainInfo_Status info /\
     DomainInfo_Title info' = DomainInfo_Title info /\
     DomainInfo_StatusCode info' = DomainInfo_StatusCode info /\
     DomainInfo_LastChecked info' = DomainInfo_LastChecked info /\
     (DomainInfo_Technologies info' = DomainInfo_Technologies info <->
      Forall (fun t => ","%char ∉ bytes t) (DomainInfo_Technologies info) /\
      DomainInfo_Technologies info <> [""])) /\
  length (List.filter (fun r => bool_decide (di_domain r = DomainInfo_Domain info))
                      (domain_info s1)) = 1 /\
  List.filter (fun r => negb (bool_decide (di_domain r = DomainInfo_Domain info)))
              (domain_info s1) =
  List.filter (fun r => negb (bool_decide (di_domain r = DomainInfo_Domain info)))
              (domain_info s).
Proof.
  intros Hf s1.
  set (others := List.filter
                   (fun r => negb (bool_decide (di_domain r = DomainInfo_Domain info)))
                   (domain_info s)).
  set (row := mkDomainInfoRow (next_id (domain_info_seq s) (map di_id (domain_info s)))
                (DomainInfo_Domain info) (DomainInfo_Program info)
                (DomainInfo_Status info) (DomainInfo_Title info) (DomainInfo_StatusCode info)
                (Join (DomainInfo_Technologies info) ",") (DomainInfo_LastChecked info)
                now now).
  assert (s1 = mkInfoDB (tables s) (others ++ [row])
                 (next_id (domain_info_seq s) (map di_id (domain_info s)))) as ->.
  { subst s1. unfold SaveDomainInfo. by rewrite (driver_no_fault _ Hf). }
  assert (forall x, x ∈ others -> bool_decide (di_domain x = DomainInfo_Domain info) = false)
    as Hothers.
  { intros x [_ Hx]%elem_of_filter_list. by apply negb_true_iff. }
  unfold GetDomainInfo. cbn [tables domain_info domain_info_seq].
  rewrite (driver_no_fault _ Hf), find_snoc.
  assert (List.find (fun r => bool_decide (di_domain r = DomainInfo_Domain info)) others
          = None) as ->.
  { by apply find_none_all. }
  cbn [di_domain row]. rewrite bool_decide_eq_true_2 by done.
  split; [done|]. split; [|split].
  - eexists. split; [done|]. cbn. repeat (split; [done|]).
    set (techs := DomainInfo_Technologies info). split.
    + intros E.
      assert (Forall (fun t => ","%char ∉ bytes t) techs) as Hall.
      { rewrite <- E. case_bool_decide; simpl; [constructor|apply Split_pieces]. }
      split; [done|]. intros Hone. rewrite Hone in E. by vm_compute in E.
    + intros [Hall Hone]. case_bool_decide as Hempty; simpl.
      * apply (Join_empty ","%char) in Hempty as [->| ->]; done.
      * apply (Split_Join ","%char); [|done]. by intros ->.
  - rewrite List.filter_app, length_app. simpl.
    rewrite bool_decide_eq_true_2 by done. simpl.
    by rewrite (filter_none _ others).
  - rewrite List.filter_app. simpl. rewrite bool_decide_eq_true_2 by done. simpl.
    rewrite app_nil_r. subst others. clear. induction (domain_info s) as [|r l IH]; simpl; [done|].
    destruct (negb _) eqn:E; simpl; rewrite ?E, IH; done.
Qed.

Lemma SaveDomainInfo_then_GetDomainInfo_witness :
  let s := mkInfoDB sample_db [] 0 in
  let info := mkDomainInfo "example.com" "acme" "up" "Example" 200 ["nginx"; "php"] 20 in
  faults (tables s) = [] /\
  (GetDomainInfo (SaveDomainInfo s info 30).1 "example.com").2.2 = None.
Proof.
  intros s info. split; [reflexivity|].
  pose proof (SaveDomainInfo_then_GetDomainInfo s info 30 eq_refl) as H.
  cbv zeta in H. change (DomainInfo_Domain info) with "example.com" in H.
  destruct (GetDomainInfo (SaveDomainInfo s info 30).1 "example.com") as [s2 [got err]].
  exact (proj1 H).
Defined.

End DomainInfoFacts.

(** ** The configuration *)
Module ConfigFacts.
Import GoStrings GoStd StringFacts Config Healthcheck HealthcheckFacts.

Lemma TrimSpace_idem s : TrimSpace (TrimSpace s) = TrimSpace s.
Proof.
  apply bytes_inj. rewrite !TrimSpace_bytes. apply trimmed_id, trim_trimmed.
Qed.

(** X16 -- The token [Load] returns is the token of the environment, or,
    when that variable is unset or empty, the content of the token file if
    it can be read, with the white space around it removed; no white
    space starts or ends it. A variable that holds only white space is
    not empty: the file is then not read and the token is empty. [Load]
    returns no error, and never an empty database path or port. *)
Theorem Load_token (ParseDuration : string -> option Z) (o : os) :
  let '(cfg, err) := Load ParseDuration o in
  err = None /\
  HackerOneToken cfg =
  TrimSpace (if bool_decide (Getenv o "HACKERONE_TOKEN" = "")
             then default "" (ReadFile o ".hackerone_token")
             else Getenv o "HACKERONE_TOKEN") /\
  trimmed (bytes (HackerOneToken cfg)) /\
  DatabasePath cfg <> "" /\ WebPort cfg <> "".
Proof.
  unfold Load. cbn [HackerOneToken DatabasePath WebPort]. split; [done|].
  assert (forall key d, d <> "" -> getEnv o key d <> "") as Hne.
  { intros key d Hd. unfold getEnv. by case_bool_decide. }
  split; [|split; [|split; by apply Hne]].
  - unfold getEnv. cbv zeta.
    destruct (bool_decide (Getenv o "HACKERONE_TOKEN" = "")) eqn:E; cbn [negb].
    + rewrite bool_decide_eq_true_2 by done.
      destruct (ReadFile o ".hackerone_token"); simpl; [apply TrimSpace_idem|done].
    + apply bool_decide_eq_false in E. by rewrite bool_decide_eq_false_2.
  - rewrite TrimSpace_bytes. apply trim_trimmed.
Qed.

Lemma no_workers_events net sched p :
  workers p = [] -> resultChan p = [] -> probed p = [] ->
  let p' := foldl (pool_event net) p sched in
  workers p' = [] /\ resultChan p' = [] /\ probed p' = [].
Proof.
  revert p. induction sched as [|e sched IH]; intros p Hw Hr Hp; simpl; [done|].
  apply IH; destruct e as [|i]; simpl; try done; unfold run_worker; by rewrite Hw.
Qed.

(** X17 -- [Load] accepts any integer for HEALTH_CHECK_WORKERS, zero and
    negative numbers included. With such a number [CheckDomains] starts
    no worker: it probes no domain and reports every requested domain as
    unknown, whatever the network. *)
Theorem CheckDomains_without_workers (ParseDuration : string -> option Z) (o : os)
    (net : network) (sched : list event) (domains : list string) :
  let workers := HealthCheckWorkers (Load ParseDuration o).1 in
  (workers <= 0)%Z ->
  CheckDomains net workers sched domains =
  map (fun domain => mkCheckResult domain "unknown" None) domains /\
  probed_domains net workers sched domains = [].
Proof.
  intros workers Hw. unfold CheckDomains, probed_domains, run_pool.
  destruct (no_workers_events net sched (start workers domains))
    as (Hws & Hr & Hp); try done.
  { unfold start. simpl. by replace (Z.to_nat workers) with 0 by lia. }
  set (p := foldl _ _ sched) in *.
  assert (wait net p = p) as -> by (unfold wait; by rewrite Hws).
  rewrite Hr, Hp. split; [|done].
  unfold collect. simpl. apply map_ext. intros d. by rewrite lookup_empty.
Qed.

Lemma CheckDomains_without_workers_witness :
  let o := env_of [("HEALTH_CHECK_WORKERS", "0")] in
  (HealthCheckWorkers (Load (fun _ => None) o).1 <= 0)%Z /\
  CheckDomains unavailable (HealthCheckWorkers (Load (fun _ => None) o).1)
    [Run 0; Cancel] ["example.com"] =
  [mkCheckResult "example.com" "unknown" None].
Proof.
  assert (HealthCheckWorkers
            (Load (fun _ => None) (env_of [("HEALTH_CHECK_WORKERS", "0")])).1 <= 0)%Z
    as Hw by (vm_compute; discriminate).
  split; [exact Hw|].
  exact (proj1 (CheckDomains_without_workers (fun _ => None)
                  (env_of [("HEALTH_CHECK_WORKERS", "0")]) unavailable
                  [Run 0; Cancel] ["example.com"] Hw)).
Defined.

End ConfigFacts.

(** ** The registry client *)
Module HackeroneFacts.
Import GoStrings GoStd StringFacts GoStdFacts DomainQueryFacts Hackerone.

(** The index of a byte: where it first occurs. *)
Lemma index_byte_cases c l :
  ((c ∉ l) /\ index_bytes l [c] = (-1)%Z) \/
  (exists pre post, l = pre ++ c :: post /\ (c ∉ pre) /\
                    index_bytes l [c] = Z.of_nat (length pre)).
Proof.
  induction l as [|x l IH]; simpl.
  - left. split; [apply not_elem_of_nil|done].
  - case_bool_decide as E.
    + apply prefix_cons_inv_1 in E as ->. right. exists [], l.
      split; [done|]. split; [apply not_elem_of_nil|done].
    + assert (x <> c) as Hne by (intros ->; apply E, prefix_cons, prefix_nil).
      destruct IH as [[Hn ->]|(pre & post & -> & Hpre & ->)].
      * left. split; [|done]. rewrite not_elem_of_cons. by split.
      * right. exists (x :: pre), post. split; [done|].
        split; [rewrite not_elem_of_cons; by split|].
        destruct (Z.eqb_spec (Z.of_nat (length pre)) (-1)); simpl length; lia.
Qed.

(** X18 -- [setAuth] sends no header for an empty token; a token with a
    colon is cut at its first colon into the user name and the password
    of Basic authentication, so that the user name holds no colon and
    user name, colon and password make up the token again; any other
    token is sent as a Bearer token. The Bearer fallback for a token with
    a colon is never taken. *)
Theorem setAuth_cases (c : Client) :
  match setAuth c with
  | NoAuthorization => token c = ""
  | BasicAuth username password =>
      token c = username +:+ ":" +:+ password /\ ":"%char ∉ bytes username
  | Bearer t => t = token c /\ token c <> "" /\ ":"%char ∉ bytes (token c)
  end.
Proof.
  unfold setAuth, Contains, SplitN2, Index.
  case_bool_decide as Hempty; [done|].
  change (bytes ":") with [":"%char].
  destruct (index_byte_cases ":"%char (bytes (token c)))
    as [[Hn ->]|(pre & post & E & Hpre & ->)]; [done|].
  destruct (Z.leb_spec 0 (Z.of_nat (length pre))) as [_|]; [|lia].
  destruct (Z.ltb_spec (Z.of_nat (length pre)) 0) as [|_]; [lia|].
  unfold slice_to, slice_from. change (len ":") with 1%Z. rewrite E.
  replace (Z.to_nat (Z.of_nat (length pre) + 1)) with (length (pre ++ [":"%char]))
    by (rewrite length_app; simpl; lia).
  rewrite Nat2Z.id, take_app_length.
  rewrite (cons_middle ":"%char pre post), app_assoc, drop_app_length.
  split; [|by rewrite bytes_of_bytes].
  apply bytes_inj. rewrite !bytes_app, !bytes_of_bytes, E.
  by rewrite (cons_middle ":"%char pre post).
Qed.

(** *** The pages of [GetAllPrograms] *)

Lemma fetch_pages_more fuel c url acc r :
  fetch_pages fuel c url acc = Some r -> fetch_pages (S fuel) c url acc = Some r.
Proof.
  revert url acc. induction fuel as [|fuel IH]; intros url acc.
  - simpl. by case_bool_decide.
  - intros H. remember (S fuel) as n eqn:En in |- *. simpl. subst n.
    simpl in H. case_bool_decide; [done|].
    destruct (get_programs c (setAuth c) url) as [err|code body [err|page]]; try done.
    destruct (negb _); [done|]. by apply IH.
Qed.

Lemma fetch_pages_mono fuel fuel' c url acc r :
  fuel <= fuel' -> fetch_pages fuel c url acc = Some r ->
  fetch_pages fuel' c url acc = Some r.
Proof.
  intros Hle. induction Hle as [|fuel' _ IH]; [done|].
  intros Hr. by apply fetch_pages_more, IH.
Qed.

Lemma fetch_pages_error fuel c url acc programs err :
  fetch_pages fuel c url acc = Some (programs, Some err) -> programs = [].
Proof.
  revert url acc. induction fuel as [|fuel IH]; intros url acc; simpl.
  - by case_bool_decide.
  - case_bool_decide; [done|].
    destruct (get_programs c (setAuth c) url) as [e|code body [e|page]].
    + by intros [= <- _].
    + destruct (negb _); [destruct (_ =? 401)%Z|]; by intros [= <- _].
    + destruct (negb _); [destruct (_ =? 401)%Z; by intros [= <- _]|]. apply IH.
Qed.

Lemma fetch_pages_chain fuel c url acc programs :
  fetch_pages fuel c url acc = Some (programs, None) ->
  exists pages, pages_from c url pages /\ programs = acc ++ concat (map Data pages).
Proof.
  revert url acc. induction fuel as [|fuel IH]; intros url acc; simpl.
  - case_bool_decide as E; [|done]. intros [= <-]. exists []. rewrite E.
    split; [constructor|by rewrite app_nil_r].
  - case_bool_decide as E.
    { intros [= <-]. exists []. rewrite E. split; [constructor|by rewrite app_nil_r]. }
    destruct (get_programs c (setAuth c) url) as [e|code body [e|page]] eqn:Hget; [done|..].
    + by destruct (negb _); [destruct (_ =? 401)%Z|].
    + destruct (Z.eqb_spec code 200) as [->|]; simpl; [|by destruct (_ =? 401)%Z].
      intros (pages & Hpages & ->)%IH. exists (page :: pages).
      split; [by eapply pages_next|]. simpl. by rewrite app_assoc.
Qed.

Lemma pages_from_fetch c url pages acc :
  pages_from c url pages ->
  fetch_pages (length pages) c url acc = Some (acc ++ concat (map Data pages), None).
Proof.
  intros H. revert acc. induction H as [|url body page rest Hne Hget _ IH]; intros acc; simpl.
  - by rewrite app_nil_r.
  - rewrite bool_decide_eq_false_2, Hget by done. simpl. by rewrite IH, app_assoc.
Qed.

(** X19 -- [GetAllPrograms] succeeds exactly when the pages linked from
    the first one can all be fetched and decoded up to a page without
    next link, and then returns the programs of these pages, in order.
    An error on a later page discards the programs of the pages before
    it. What the call returns does not depend on the fuel it is given
    beyond what the run needs. *)
Theorem GetAllPrograms_pages (c : Client) :
  (forall programs,
     (exists fuel, GetAllPrograms fuel c = Some (programs, None)) <->
     (exists pages, pages_from c (baseURL c +:+ "/hackers/programs") pages /\
                    programs = concat (map Data pages))) /\
  (forall fuel programs err,
     GetAllPrograms fuel c = Some (programs, Some err) -> programs = []) /\
  (forall fuel fuel' r,
     fuel <= fuel' -> GetAllPrograms fuel c = Some r -> GetAllPrograms fuel' c = Some r).
Proof.
  unfold GetAllPrograms. split; [|split].
  - intros programs. split.
    + intros (fuel & H). by apply fetch_pages_chain in H.
    + intros (pages & H & ->). exists (length pages).
      by rewrite (pages_from_fetch _ _ _ [] H).
  - intros fuel programs err. apply fetch_pages_error.
  - intros fuel fuel' r. apply fetch_pages_mono.
Qed.

(** X20 -- [GetAllPrograms] follows the next links without looking back:
    when every page of a set of URLs is answered with a next link into
    the set -- a page that links to itself, a cycle of pages -- the loop
    started on one of them does not end, however many pages it may
    fetch. *)
Theorem fetch_pages_never_returns (c : Client) (S : string -> Prop) :
  (forall url, S url ->
     url <> "" /\
     exists body page next,
       get_programs c (setAuth c) url = Answer 200 body (inr page) /\
       Next page = Some next /\ S next) ->
  forall fuel url allPrograms, S url -> fetch_pages fuel c url allPrograms = None.
Proof.
  intros HS fuel. induction fuel as [|fuel IH]; intros url acc Hurl;
    destruct (HS url Hurl) as (Hne & body & page & next & Hget & Hnext & Hin); simpl;
    rewrite bool_decide_eq_false_2 by done; [done|].
  rewrite Hget, Hnext. simpl. by apply IH.
Qed.

Lemma fetch_pages_never_returns_witness :
  GetAllPrograms 1000 looping = None.
Proof.
  apply (fetch_pages_never_returns looping (fun url => url <> "")); [|done].
  intros url Hurl. split; [exact Hurl|].
  exists "", (mkProgramsResponse [] (Some url)), url.
  split; [reflexivity|]. split; [reflexivity|exact Hurl].
Defined.

(** *** The scope of a program *)

Lemma scopeMap_of_lookup l id scope :
  scopeMap_of l !! id = Some scope ->
  exists inc, inc ∈ l /\ included_Type inc = "structured-scope" /\
              included_ID inc = id /\ included_Attributes inc = scope.
Proof.
  unfold scopeMap_of.
  enough (forall m : gmap string Hackerone.scope,
            foldl (fun m inc =>
                     if bool_decide (included_Type inc = "structured-scope")
                     then <[included_ID inc := included_Attributes inc]> m
                     else m) m l !! id = Some scope ->
            m !! id = Some scope \/
            exists inc, inc ∈ l /\ included_Type inc = "structured-scope" /\
                        included_ID inc = id /\ included_Attributes inc = scope) as H.
  { intros [Hm|Hinc]%H; [by rewrite lookup_empty in Hm|done]. }
  induction l as [|inc l IH]; intros m; simpl; [by left|].
  intros [Hm|(inc' & Hin & ?)]%IH.
  - case_bool_decide as Ht; [|by left].
    destruct (decide (included_ID inc = id)) as [Hid|Hid].
    + rewrite Hid, lookup_insert_eq in Hm. right. exists inc.
      split; [left|]. split; [done|]. split; [done|congruence].
    + rewrite lookup_insert_ne in Hm by done. by left.
  - right. exists inc'. split; [by right|done].
Qed.

(** X21 -- [GetProgramScope] returns only identifiers of assets of type
    URL, DOMAIN or WILDCARD that the registry listed: assets of the
    direct endpoint, or structured scopes included with the program and
    referred to by it. When the direct endpoint gives such an asset its
    answer is final. An error of the direct endpoint is never reported:
    the function returns an error, and then no domain, exactly when the
    direct endpoint gave no domain and the request of the fallback
    fails or is answered 401. *)
Theorem GetProgramScope_assets (c : Client) (handle : string) :
  let direct :=
    get_scopes c (setAuth c)
      (baseURL c +:+ "/hackers/programs/" +:+ handle +:+ "/structured_scopes") in
  let fallback :=
    get_program c (setAuth c)
      (baseURL c +:+ "/hackers/programs/" +:+ handle +:+ "?include=structured_scopes") in
  let '(domains, err) := GetProgramScope c handle in
  (forall d, d ∈ domains ->
     exists scope,
       AssetIdentifier scope = d /\ is_domain_asset (AssetType scope) = true /\
       ((exists body scopes, direct = Answer 200 body (inr scopes) /\ scope ∈ scopes) \/
        (exists body program inc,
           fallback = Answer 200 body (inr program) /\
           inc ∈ Included program /\ included_Type inc = "structured-scope" /\
           included_ID inc ∈ StructuredScopes program /\
           included_Attributes inc = scope))) /\
  ((getProgramScopesDirect c handle).1 <> [] ->
   domains = (getProgramScopesDirect c handle).1 /\ err = None) /\
  (err <> None <->
   (getProgramScopesDirect c handle).1 = [] /\
   ((exists e, fallback = Failed e) \/ (exists body decoded, fallback = Answer 401 body decoded))) /\
  (err <> None -> domains = []).
Proof.
  intros direct fallback.
  assert (forall d, d ∈ (getProgramScopesDirect c handle).1 ->
            exists scope,
              AssetIdentifier scope = d /\ is_domain_asset (AssetType scope) = true /\
              exists body scopes, direct = Answer 200 body (inr scopes) /\ scope ∈ scopes)
    as Hdirect.
  { unfold getProgramScopesDirect. fold direct.
    destruct direct as [e|code body [e|scopes]]; simpl; try by intros d ?%elem_of_nil.
    - destruct (negb _); by intros d ?%elem_of_nil.
    - destruct (Z.eqb_spec code 200) as [->|]; simpl; [|by intros d ?%elem_of_nil].
      intros d (scope & -> & [Hin Hty]%QueriesFacts.elem_of_filter_list)%elem_of_map_list.
      exists scope. split; [done|]. split; [done|]. by exists body, scopes. }
  assert ((getProgramScopesDirect c handle).2 <> None ->
          (getProgramScopesDirect c handle).1 = []) as Hderr.
  { unfold getProgramScopesDirect.
    destruct (get_scopes _ _ _) as [e|code body [e|scopes]]; simpl; try done;
      by destruct (negb _). }
  unfold GetProgramScope.
  destruct (getProgramScopesDirect c handle) as [domains derr]. cbn [fst snd] in *.
  destruct domains as [|d0 domains].
  - (* the fallback *)
    assert ((match derr with None => true | Some _ => false end && (0 <? length (@nil string)))
            = false) as -> by (by destruct derr).
    fold fallback.
    destruct fallback as [e|code body [e|program]] eqn:Hfb; simpl.
    + split; [by intros d ?%elem_of_nil|]. split; [done|]. split; [|done].
      split; [intros _; split; [done|left; by exists e]|done].
    + destruct (Z.eqb_spec code 200) as [->|Hcode]; simpl.
      * split; [by intros d ?%elem_of_nil|]. split; [done|]. split; [|done].
        split; [done|]. by intros (_ & [(? & ?)|(? & ? & ?)]).
      * destruct (Z.eqb_spec code 401) as [->|Hcode'].
        -- split; [by intros d ?%elem_of_nil|]. split; [done|]. split; [|done].
           split; [intros _; split; [done|right; by eexists _, _]|done].
        -- split; [by intros d ?%elem_of_nil|]. split; [done|]. split; [|done].
           split; [done|]. intros (_ & [(? & ?)|(? & ? & ?)]); congruence.
    + destruct (Z.eqb_spec code 200) as [->|Hcode]; simpl.
      * split; [|split; [done|split; [|done]]].
        -- intros d (ds & Hds & Hd)%list_elem_of_In%in_concat.
           apply in_map_iff in Hds as (scopeRef & <- & Href%list_elem_of_In).
           apply list_elem_of_In in Hd.
           destruct (scopeMap_of (Included program) !! scopeRef) as [scope|] eqn:Hlook;
             [|by apply elem_of_nil in Hd].
           destruct (is_domain_asset (AssetType scope)) eqn:Hty; [|by apply elem_of_nil in Hd].
           apply list_elem_of_singleton in Hd as ->.
           apply scopeMap_of_lookup in Hlook as (inc & Hinc & Hit & Hid & Hattr).
           exists scope. split; [done|]. split; [done|]. right.
           exists body, program, inc. rewrite Hid. by repeat split.
        -- split; [done|]. by intros (_ & [(? & ?)|(? & ? & ?)]).
      * destruct (Z.eqb_spec code 401) as [->|Hcode'].
        -- split; [by intros d ?%elem_of_nil|]. split; [done|]. split; [|done].
           split; [intros _; split; [done|right; by eexists _, _]|done].
        -- split; [by intros d ?%elem_of_nil|]. split; [done|]. split; [|done].
           split; [done|]. intros (_ & [(? & ?)|(? & ? & ?)]); congruence.
  - (* the direct endpoint gave a domain *)
    destruct derr as [e|]; [by specialize (Hderr ltac:(done))|]. simpl.
    split; [|split; [done|split; [|done]]].
    + intros d Hd. destruct (Hdirect d Hd) as (scope & ? & ? & ?). exists scope. by auto.
    + split; [done|]. by intros [? _].
Qed.

End HackeroneFacts.

(** ** The httpx adapter *)
Module EnrichmentFacts.
Import GoStrings Enrichment.

Lemma enrichDomainHTTP_cases h domain :
  exists details,
    enrichDomainHTTP h domain = (Some details, None) /\
    match result_of h ("http://" +:+ domain) with
    | Some r => details = up domain r
    | None => details = only_status domain "down" \/ details = only_status domain "unknown"
    end.
Proof.
  unfold enrichDomainHTTP, result_of.
  destruct (httpx h ("http://" +:+ domain)) as [output [err|]]; [by eexists; split; [|left]|].
  destruct (len output =? 0)%Z; [by eexists; split; [|left]|].
  destruct (Unmarshal h output) as [r|]; eexists; (split; [done|]); [done|by right].
Qed.

(** X22 -- [EnrichDomain] returns an error, and no details, exactly when
    httpx is not found in the PATH. Otherwise it returns details for the
    domain asked, with status up, down or unknown. The status is up
    exactly when the run on the https URL or, failing that, the run on
    the http URL succeeded and printed a JSON object; the details are
    then those of the first such run, the https one first, whatever
    status code httpx reports in them. *)
Theorem EnrichDomain_status (h : host) (domain : string) :
  let '(details, err) := EnrichDomain h domain in
  (err <> None <-> LookPath h "httpx" = None) /\
  (err <> None -> details = None) /\
  (err = None ->
   exists d,
     details = Some d /\ Domain d = domain /\
     (Status d = "up" \/ Status d = "down" \/ Status d = "unknown") /\
     (Status d = "up" <->
      is_Some (result_of h ("https://" +:+ domain)) \/
      is_Some (result_of h ("http://" +:+ domain))) /\
     match result_of h ("https://" +:+ domain), result_of h ("http://" +:+ domain) with
     | Some r, _ => d = up domain r
     | None, Some r => d = up domain r
     | None, None => StatusCode d = 0%Z /\ Title d = "" /\ Technologies d = []
     end).
Proof.
  unfold EnrichDomain.
  destruct (LookPath h "httpx") as [path|]; [|by repeat split].
  assert (forall r, result_of h ("https://" +:+ domain) = None ->
            enrichDomainHTTP h domain = r ->
            let '(details, err) := r in
            (err <> None <-> Some path = None) /\ (err <> None -> details = None) /\
            (err = None ->
             exists d,
               details = Some d /\ Domain d = domain /\
               (Status d = "up" \/ Status d = "down" \/ Status d = "unknown") /\
               (Status d = "up" <->
                is_Some (@None httpxResult) \/
                is_Some (result_of h ("http://" +:+ domain))) /\
               match @None httpxResult, result_of h ("http://" +:+ domain) with
               | Some r, _ => d = up domain r
               | None, Some r => d = up domain r
               | None, None => StatusCode d = 0%Z /\ Title d = "" /\ Technologies d = []
               end)) as Hhttp.
  { intros r _ <-. destruct (enrichDomainHTTP_cases h domain) as (d & -> & Hd).
    split; [done|]. split; [done|]. intros _. exists d. split; [done|].
    destruct (result_of h ("http://" +:+ domain)) as [r|].
    - subst d. split; [done|]. split; [by left|]. split; [|done].
      split; [by right|done].
    - destruct Hd as [-> | ->]; (split; [done|]); (split; [by auto|]);
        (split; [|done]); (split; [done|]); by intros [[? [=]]|[? [=]]]. }
  unfold result_of in *.
  destruct (httpx h ("https://" +:+ domain)) as [output [err|]]; [by apply Hhttp|].
  destruct (len output =? 0)%Z; [by apply Hhttp|].
  destruct (Unmarshal h output) as [r|]; [|by apply Hhttp].
  split; [done|]. split; [done|]. intros _. exists (up domain r).
  split; [done|]. split; [done|]. split; [by left|]. split; [|done].
  split; [by left|done].
Qed.

Lemma EnrichDomains_lookup h (order : list nat) (domains : list string)
    (results : gmap string DomainDetails) d :
  foldl (fun results i =>
           match domains !! i with
           | Some d =>
               match EnrichDomain h d with
               | (Some details, None) => <[d := details]> results
               | _ => results
               end
           | None => results
           end) results order !! d =
  match EnrichDomain h d with
  | (Some details, None) =>
      if bool_decide (d ∈ omap (fun i => domains !! i) order) then Some details
      else results !! d
  | _ => results !! d
  end.
Proof.
  revert results. induction order as [|i order IH]; intros results.
  - simpl. by destruct (EnrichDomain h d) as [[details|] [e|]].
  - cbn [foldl]. rewrite IH. clear IH. cbn [omap list_omap].
    destruct (domains !! i) as [d'|]; [|done].
    destruct (decide (d' = d)) as [->|Hne].
    + destruct (EnrichDomain h d) as [[details|] [e|]]; try done.
      rewrite lookup_insert_eq, (bool_decide_eq_true_2 (_ ∈ _ :: _)) by left.
      by case_bool_decide.
    + assert (forall details : DomainDetails,
                <[d' := details]> results !! d = results !! d) as Hins
        by (intros; by apply lookup_insert_ne).
      assert (bool_decide (d ∈ d' :: omap (fun i => domains !! i) order) =
              bool_decide (d ∈ omap (fun i => domains !! i) order)) as ->.
      { apply bool_decide_ext. rewrite elem_of_cons. split; [by intros [?|?]|by right]. }
      destruct (EnrichDomain h d') as [[details'|] [e'|]]; by rewrite ?Hins.
Qed.

(** X23 -- [EnrichDomains] waits for every goroutine: whatever the order
    in which they store their result, the map returned holds, for each
    requested domain and for no other name, the details [EnrichDomain]
    gives for it. When httpx is not found the map is empty. *)
Theorem EnrichDomains_covers (h : host) (order : list nat) (domains : list string) :
  order ≡ₚ seq 0 (length domains) ->
  let results := EnrichDomains h order domains in
  (forall d,
     results !! d =
     if bool_decide (d ∈ domains) then
       match EnrichDomain h d with
       | (Some details, None) => Some details
       | _ => None
       end
     else None) /\
  (LookPath h "httpx" = None -> results = ∅).
Proof.
  intros Hperm results.
  assert (forall d,
            results !! d =
            if bool_decide (d ∈ domains) then
              match EnrichDomain h d with
              | (Some details, None) => Some details
              | _ => None
              end
            else None) as Hlook.
  { intros d. subst results. unfold EnrichDomains. rewrite EnrichDomains_lookup.
    rewrite lookup_empty.
    assert (d ∈ omap (fun i => domains !! i) order <-> d ∈ domains) as Hex.
    { rewrite list_elem_of_omap, list_elem_of_lookup.
      split; [intros (i & _ & Hi); by exists i|].
      intros (i & Hi). exists i. split; [|done]. rewrite Hperm.
      apply elem_of_seq. apply lookup_lt_Some in Hi. lia. }
    rewrite (bool_decide_ext _ _ Hex).
    destruct (EnrichDomain h d) as [[details|] [e|]]; by case_bool_decide. }
  split; [done|]. intros Hno. apply map_eq. intros d. rewrite Hlook, lookup_empty.
  unfold EnrichDomain. rewrite Hno. by case_bool_decide.
Qed.

Lemma EnrichDomains_covers_witness :
  let h := mkHost (fun _ => Some "/usr/bin/httpx") (fun _ => ("", None)) (fun _ => None) in
  EnrichDomains h [1; 0] ["a.example"; "b.example"] !! "a.example" =
  Some (only_status "a.example" "down").
Proof.
  intros h.
  exact (proj1 (EnrichDomains_covers h [1; 0] ["a.example"; "b.example"]
                  (perm_swap 0 1 [])) "a.example").
Defined.

End EnrichmentFacts.

(** ** The asset expansion adapter *)
Module DiscoveryFacts.
Import GoStrings StringFacts Discovery DomainQueryFacts QueriesFacts.

Lemma len_zero s : (len s =? 0)%Z = bool_decide (s = "").
Proof.
  destruct s as [|c s]; [done|]. transitivity false.
  - apply Z.eqb_neq. unfold len. simpl. lia.
  - symmetry. by apply bool_decide_eq_false_2.
Qed.

(** X24 -- [DiscoverSubdomains] returns no subdomain with an error, and
    returns an error exactly when subfinder is not found, when the run
    failed and either its deadline had passed or it had printed nothing,
    or when a line is too long for the scanner. A run that failed but
    printed something is parsed like a successful one. Every subdomain
    returned is a line of the output with the white space around it
    removed, and none is empty. *)
Theorem DiscoverSubdomains_result (h : host) (domain : string) :
  let out := subfinder h domain in
  let '(subdomains, err) := DiscoverSubdomains h domain in
  (err <> None -> subdomains = []) /\
  (err = None <->
   LookPath h "subfinder" <> None /\
   scanner_err (stdout out) = None /\
   (run_err out = None \/ (deadline_exceeded out = false /\ stdout out <> ""))) /\
  Forall (fun s => s <> "" /\ trimmed (bytes s) /\
                   exists line, line ∈ scan_lines (stdout out) /\ s = TrimSpace line)
         subdomains.
Proof.
  intros out. unfold DiscoverSubdomains. fold out.
  destruct (LookPath h "subfinder") as [path|]; [|split; [done|split; [|done]]].
  2: { split; [done|]. by intros [? _]. }
  assert (let '(subdomains, err) :=
            match scanner_err (stdout out) with
            | Some err => ([], Some err)
            | None =>
                (List.filter (fun line => negb (bool_decide (line = "")))
                             (map TrimSpace (scan_lines (stdout out))), None)
            end in
          (err <> None -> subdomains = []) /\
          (err = None <-> scanner_err (stdout out) = None) /\
          Forall (fun s => s <> "" /\ trimmed (bytes s) /\
                           exists line, line ∈ scan_lines (stdout out) /\ s = TrimSpace line)
                 subdomains) as Hparse.
  { destruct (scanner_err (stdout out)) as [e|]; [done|].
    split; [done|]. split; [done|]. apply Forall_forall.
    intros s [(line & -> & Hline)%elem_of_map_list Hs]%elem_of_filter_list.
    split; [by apply negb_true_iff, bool_decide_eq_false in Hs|].
    split; [rewrite TrimSpace_bytes; apply trim_trimmed|by exists line]. }
  destruct (run_err out) as [e|].
  - destruct (deadline_exceeded out).
    { split; [done|]. split; [|done]. split; [done|]. by intros (_ & _ & [?|[? _]]). }
    rewrite len_zero. case_bool_decide as Hout.
    { split; [done|]. split; [|done]. split; [done|]. by intros (_ & _ & [?|[_ ?]]). }
    destruct (match scanner_err (stdout out) with
              | Some err => _ | None => _ end) as [subdomains err].
    destruct Hparse as (H1 & H2 & H3). split; [done|]. split; [|done].
    rewrite H2. split; [intros ?; split; [done|split; [done|by right]]|by intros (_ & ? & _)].
  - destruct (match scanner_err (stdout out) with
              | Some err => _ | None => _ end) as [subdomains err].
    destruct Hparse as (H1 & H2 & H3). split; [done|]. split; [|done].
    rewrite H2. split; [intros ?; split; [done|split; [done|by left]]|by intros (_ & ? & _)].
Qed.

Lemma dedup_spec unique l :
  NoDup (dedup unique l) /\
  forall x, x ∈ dedup unique l <-> x ∈ l /\ x ∉ unique.
Proof.
  revert unique. induction l as [|y l IH]; intros unique; simpl.
  - split; [constructor|]. intros x. split; [by intros ?%elem_of_nil|by intros [?%elem_of_nil _]].
  - case_bool_decide as Hy.
    + destruct (IH unique) as [Hnd Hin]. split; [done|]. intros x. rewrite Hin, elem_of_cons.
      split; [by intros [? ?]; auto|]. intros [[->|?] ?]; done.
    + destruct (IH ({[y]} ∪ unique)) as [Hnd Hin]. split.
      * apply NoDup_cons. split; [|done]. rewrite Hin. intros [_ Hn]. apply Hn.
        apply elem_of_union. left. by apply elem_of_singleton.
      * intros x. rewrite !elem_of_cons, Hin, not_elem_of_union, not_elem_of_singleton.
        split.
        -- intros [->|(? & ? & ?)]; [by auto|by auto].
        -- intros [[->|?] ?]; [by left|].
           destruct (decide (x = y)) as [->|]; [by left|by right].
Qed.

(** X25 -- [DiscoverDomains] never returns an error and never returns a
    name twice. It returns exactly the subdomains found by the runs of
    [DiscoverSubdomains] that ended without error before the call
    stopped waiting; a run that failed contributes nothing, and without
    subfinder nothing is returned. *)
Theorem DiscoverDomains_result (h : host) (finished : list nat) (domains : list string) :
  let '(result, err) := DiscoverDomains h finished domains in
  err = None /\ NoDup result /\
  forall s,
    s ∈ result <->
    LookPath h "subfinder" <> None /\
    exists i d, i ∈ finished /\ domains !! i = Some d /\
                (DiscoverSubdomains h d).2 = None /\ s ∈ (DiscoverSubdomains h d).1.
Proof.
  unfold DiscoverDomains.
  destruct (LookPath h "subfinder") as [path|] eqn:Hpath.
  2: { split; [done|]. split; [constructor|]. intros s.
       split; [by intros ?%elem_of_nil|by intros [? _]]. }
  split; [done|]. set (all := concat _).
  destruct (dedup_spec ∅ all) as [Hnd Hin]. split; [done|].
  intros s. rewrite Hin. split.
  - intros [Hs _]. split; [done|]. subst all.
    apply list_elem_of_In, in_concat in Hs as (l & Hl & Hs).
    apply in_map_iff in Hl as (i & <- & Hi). apply list_elem_of_In in Hs.
    destruct (domains !! i) as [d|] eqn:Hd; [|by apply elem_of_nil in Hs].
    exists i, d. split; [by apply list_elem_of_In|]. split; [done|].
    unfold DiscoverSubdomains in *. rewrite Hpath in *.
    destruct (match run_err (subfinder h d) with Some _ => _ | None => _ end)
      as [subdomains [e|]]; [by apply elem_of_nil in Hs|done].
  - intros (_ & i & d & Hi & Hd & He & Hs). split; [|apply not_elem_of_empty].
    subst all. apply list_elem_of_In, in_concat.
    exists (DiscoverSubdomains h d).1. split; [|by apply list_elem_of_In].
    apply in_map_iff. exists i. split; [|by apply list_elem_of_In].
    rewrite Hd. destruct (DiscoverSubdomains h d) as [subdomains [e|]]; [done|done].
Qed.

End DiscoveryFacts.

(** ** What a scan keeps *)
Module ScanFacts.
Import Database Queries DatabaseFacts QueriesFacts DomainQueryFacts StoreQueryFacts
       StatusChangeFacts ProgramFacts Scheduler.

(** What [SaveProgram] and the calls of [SaveDomain] for the program keep,
    [processProgram] keeps. *)
Lemma processProgram_preserves (P : DB -> Prop) w now program :
  (forall db p now, Program_Handle p = Handle program -> P db -> P (SaveProgram db p now).1) ->
  (forall db o now, Domain_Program o = Handle program -> P db -> P (SaveDomain db o now).1) ->
  forall db, P db -> P (processProgram w now db program).1.
Proof.
  intros Hprogram Hdomain db HP. unfold processProgram.
  pose proof (Hprogram db (dbProgram w program) now eq_refl HP) as HP1.
  destruct (SaveProgram db (dbProgram w program) now) as [db1 [err|]]; [done|].
  destruct (base_scope w program) as [scopeDomains|]; [|done].
  cbn [fst] in *. unfold probe_and_save, save_results.
  generalize (Healthcheck.CheckDomains (net w) (HealthCheckWorkers w)
                (pool_schedule w
                   (finalDomains ∅
                      (scopeDomains ++
                       match Discovery.DiscoverDomains (host w)
                               (discovery_finished w scopeDomains) scopeDomains with
                       | (_, Some _) => []
                       | (discoveredDomains, None) => discoveredDomains
                       end)))
                (finalDomains ∅
                   (scopeDomains ++
                    match Discovery.DiscoverDomains (host w)
                            (discovery_finished w scopeDomains) scopeDomains with
                    | (_, Some _) => []
                    | (discoveredDomains, None) => discoveredDomains
                    end))).
  intros results. revert db1 HP1.
  induction results as [|r results IH]; intros db1 HP1; simpl; [done|].
  apply IH. by apply Hdomain.
Qed.

Lemma RunScan_preserves (P : DB -> Prop) w now :
  (forall db p now, P db -> P (SaveProgram db p now).1) ->
  (forall db o now, P db -> P (SaveDomain db o now).1) ->
  forall db, P db -> P (RunScan w now db).1.
Proof.
  intros Hprogram Hdomain db HP. unfold RunScan, RunScan_run.
  destruct (GetAllPrograms w) as [err|programs]; [done|].
  unfold process_all.
  enough (forall log, P (foldl (fun st p =>
                                  let '(db, err) := processProgram w now st.1 p in
                                  (db, st.2 ++ [(Handle p, err)]))
                               (db, log) programs).1) as H.
  { specialize (H []). by destruct (foldl _ _ programs). }
  revert db HP. induction programs as [|p programs IH]; intros db HP log; simpl; [done|].
  pose proof (processProgram_preserves P w now p
                (fun db p now _ => Hprogram db p now)
                (fun db o now _ => Hdomain db o now) db HP) as HP1.
  destruct (processProgram w now db p) as [db1 err]. by apply IH.
Qed.

Lemma SaveProgram_tables db p now :
  domains (SaveProgram db p now).1 = domains db /\
  status_changes (SaveProgram db p now).1 = status_changes db.
Proof.
  destruct (SaveProgram_spec db p now) as (db1 & (_ & _ & Hd & _ & Hc & _) & ->).
  by destruct (fault_at 0 db).
Qed.

Lemma filter_map_fixed {A} (p : A -> bool) (f : A -> A) l :
  (forall x, x ∈ l -> p (f x) = p x /\ (p x = true -> f x = x)) ->
  List.filter p (map f l) = List.filter p l.
Proof.
  induction l as [|x l IH]; simpl; [done|]. intros H.
  destruct (H x ltac:(left)) as [E Hfix]. rewrite E.
  rewrite IH by (intros y Hy; apply H; by right).
  destruct (p x); [by rewrite Hfix|done].
Qed.

(** [SaveDomain] leaves the rows of other programs alone. *)
Lemma SaveDomain_other_programs db o now :
  unique_ids db ->
  List.filter (fun r => negb (bool_decide (d_program r = Domain_Program o)))
              (domains (SaveDomain db o now).1) =
  List.filter (fun r => negb (bool_decide (d_program r = Domain_Program o))) (domains db) /\
  List.filter (fun r => negb (bool_decide (sc_program r = Domain_Program o)))
              (status_changes (SaveDomain db o now).1) =
  List.filter (fun r => negb (bool_decide (sc_program r = Domain_Program o)))
              (status_changes db).
Proof.
  intros Hu. split.
  - destruct (SaveDomain_domains db o now)
      as [E|[(_ & row & Hk & _ & _ & E)|(r & Hr & E)]]; rewrite E; [done|..].
    + rewrite List.filter_app. simpl.
      assert (d_program row = Domain_Program o) as -> by (by inversion Hk).
      rewrite bool_decide_eq_true_2 by done. simpl. apply app_nil_r.
    + apply find_domain_Some in Hr as [Hin Hkr]. unfold updated.
      apply filter_map_fixed. intros x Hx. cbv beta.
      destruct (bool_decide (d_id x = d_id r)) eqn:Hid; [|by split].
      apply bool_decide_eq_true in Hid.
      assert (x = r) as -> by (by apply (NoDup_map_inj d_id (domains db))).
      simpl. assert (d_program r = Domain_Program o) as -> by (by inversion Hkr).
      by rewrite bool_decide_eq_true_2.
  - rewrite SaveDomain_created, List.filter_app.
    destruct (find_domain db (Domain_Domain o) (Domain_Program o)) as [r|];
      [|by rewrite app_nil_r].
    case_bool_decide; [by rewrite app_nil_r|].
    destruct (fault_at 0 db || fault_at 1 db); [by rewrite app_nil_r|].
    simpl. rewrite bool_decide_eq_true_2 by done. simpl. apply app_nil_r.
Qed.

(** X26 -- [processProgram] writes for its own program only: the rows of
    [domains] and of [status_changes] that belong to other programs are
    after the call what they were before it, whatever the registry,
    discovery and the network answer and whichever statements fail. *)
Theorem processProgram_other_programs (w : world) (now : Time) (db : DB)
    (program : Scheduler.Program) :
  unique_ids db ->
  let db' := (processProgram w now db program).1 in
  let other := fun handle => negb (bool_decide (handle = Handle program)) in
  List.filter (fun r => other (d_program r)) (domains db') =
  List.filter (fun r => other (d_program r)) (domains db) /\
  List.filter (fun r => other (sc_program r)) (status_changes db') =
  List.filter (fun r => other (sc_program r)) (status_changes db).
Proof.
  intros Hu db' other.
  enough (unique_ids db' /\
          List.filter (fun r => other (d_program r)) (domains db') =
          List.filter (fun r => other (d_program r)) (domains db) /\
          List.filter (fun r => other (sc_program r)) (status_changes db') =
          List.filter (fun r => other (sc_program r)) (status_changes db)) as [_ H]
    by done.
  subst db'.
  apply (processProgram_preserves
           (fun db' => unique_ids db' /\
                       List.filter (fun r => other (d_program r)) (domains db') =
                       List.filter (fun r => other (d_program r)) (domains db) /\
                       List.filter (fun r => other (sc_program r)) (status_changes db') =
                       List.filter (fun r => other (sc_program r)) (status_changes db)));
    [| |done].
  - intros db1 p now1 _ (Hu1 & Hd & Hc).
    destruct (SaveProgram_tables db1 p now1) as [Ed Ec].
    unfold unique_ids. by rewrite Ed, Ec.
  - intros db1 o now1 Ho (Hu1 & Hd & Hc).
    split; [by apply SaveDomain_unique_ids|].
    destruct (SaveDomain_other_programs db1 o now1 Hu1) as [Ed Ec].
    subst other. cbv beta. rewrite <- Ho, Ed, Ec. by rewrite Ho.
Qed.

Lemma processProgram_other_programs_witness :
  unique_ids sample_db /\
  List.filter (fun r => negb (bool_decide (d_program r = "globex")))
    (domains (processProgram sample_world 30 sample_db
                (mkProgram "Globex" "globex" "https://hackerone.com/globex"
                   "globex.example" false "open")).1) =
  [sample_row].
Proof.
  assert (unique_ids sample_db) as Hu by (apply NoDup_singleton).
  split; [exact Hu|].
  exact (proj1 (processProgram_other_programs sample_world 30 sample_db
                  (mkProgram "Globex" "globex" "https://hackerone.com/globex"
                     "globex.example" false "open") Hu)).
Defined.

Lemma SaveProgram_handles db p now :
  NoDup (map p_handle (programs db)) ->
  NoDup (map p_handle (programs (SaveProgram db p now).1)) /\
  forall h, h ∈ map p_handle (programs db) ->
            h ∈ map p_handle (programs (SaveProgram db p now).1).
Proof.
  intros Hnd. destruct (SaveProgram_spec db p now) as (db1 & (Hp & _) & ->).
  destruct (fault_at 0 db); cbn zeta; cbn [fst set_programs programs]; [by rewrite Hp|].
  rewrite map_app. split.
  - apply NoDup_app. split; [by apply NoDup_map_filter|]. split; [|apply NoDup_singleton].
    intros h (r & -> & [_ Hne]%elem_of_filter_list)%elem_of_map_list Hh.
    apply list_elem_of_singleton in Hh. apply negb_true_iff, bool_decide_eq_false in Hne.
    by destruct Hne.
  - intros h (r & -> & Hr)%elem_of_map_list. apply elem_of_app.
    destruct (decide (p_handle r = Program_Handle p)) as [E|E].
    + right. rewrite E. by apply list_elem_of_singleton.
    + left. apply elem_of_map_list. exists r. split; [done|].
      apply elem_of_filter_list. split; [done|].
      by apply negb_true_iff, bool_decide_eq_false.
Qed.

Lemma SaveDomain_keeps_keys db o now k :
  k ∈ map key (domains db) -> k ∈ map key (domains (SaveDomain db o now).1).
Proof.
  destruct (SaveDomain_domains db o now)
    as [E|[(_ & row & _ & _ & _ & E)|(r & _ & E)]]; rewrite E; [done| |by rewrite updated_keys].
  rewrite map_app, elem_of_app. by left.
Qed.

Lemma SaveDomain_programs db o now : programs (SaveDomain db o now).1 = programs db.
Proof.
  assert (forall db0 d p s t1 t2,
            programs (insert_domain db0 d p s t1 t2 now).1 = programs db0) as Hins.
  { intros db0 d p s t1 t2. unfold insert_domain.
    destruct (driver_cases db0) as (db1 & -> & (Hp & _) & _).
    destruct (fault_at 0 db0); [done|]. by destruct (existsb _ _). }
  assert (forall db0 s t id,
            programs (update_domain db0 s t false id).1 = programs db0) as Hup.
  { intros db0 s t id. unfold update_domain.
    destruct (driver_cases db0) as (db1 & -> & (Hp & _) & _).
    by destruct (fault_at 0 db0). }
  assert (forall db0 d p old new t,
            programs (insert_status_change db0 d p old new t now).1 = programs db0) as Hch.
  { intros db0 d p old new t. unfold insert_status_change.
    destruct (driver_cases db0) as (db1 & -> & (Hp & _) & _).
    by destruct (fault_at 0 db0). }
  unfold SaveDomain.
  pose proof (select_domain_spec db (Domain_Domain o) (Domain_Program o)) as Hsel.
  destruct (select_domain db (Domain_Domain o) (Domain_Program o)) as [db2 found].
  destruct Hsel as (Hp2 & _).
  destruct found as [[]|[[id is_new] status]]; try done.
  - by rewrite Hins.
  - rewrite Hup. destruct (negb _); [|done]. by rewrite Hch.
Qed.

(** X27 -- A scan keeps the tables well formed and deletes nothing: when
    the (domain, program) pairs and the row ids of [domains] and the
    handles of [programs] are unique before [RunScan], they are unique
    after it; every pair and every handle stored before is still stored;
    and the status changes recorded before are still there, unchanged
    and followed by the new ones. *)
Theorem RunScan_keeps_tables (w : world) (now : Time) (db : DB) :
  unique_keys db -> unique_ids db -> NoDup (map p_handle (programs db)) ->
  let db' := (RunScan w now db).1 in
  unique_keys db' /\ unique_ids db' /\ NoDup (map p_handle (programs db')) /\
  (forall k, k ∈ map key (domains db) -> k ∈ map key (domains db')) /\
  (forall h, h ∈ map p_handle (programs db) -> h ∈ map p_handle (programs db')) /\
  status_changes db `prefix_of` status_changes db'.
Proof.
  intros Hk Hi Hh db'. subst db'.
  apply (RunScan_preserves
           (fun db' =>
              unique_keys db' /\ unique_ids db' /\ NoDup (map p_handle (programs db')) /\
              (forall k, k ∈ map key (domains db) -> k ∈ map key (domains db')) /\
              (forall h, h ∈ map p_handle (programs db) -> h ∈ map p_handle (programs db')) /\
              status_changes db `prefix_of` status_changes db')).
  - intros db1 p now1 (Hk1 & Hi1 & Hh1 & Hkeys & Hhandles & Hpre).
    destruct (SaveProgram_tables db1 p now1) as [Ed Ec].
    destruct (SaveProgram_handles db1 p now1 Hh1) as [Hnd Hkeep].
    unfold unique_keys, unique_ids. rewrite Ed, Ec. by auto 10.
  - intros db1 o now1 (Hk1 & Hi1 & Hh1 & Hkeys & Hhandles & Hpre).
    split; [by apply SaveDomain_unique_keys|]. split; [by apply SaveDomain_unique_ids|].
    pose proof (SaveDomain_programs db1 o now1) as Hp.
    rewrite Hp. split; [done|]. split; [|split; [done|]].
    + intros k Hin. by apply SaveDomain_keeps_keys, Hkeys.
    + rewrite SaveDomain_created. by apply prefix_app_r.
  - by repeat split.
Qed.

Lemma RunScan_keeps_tables_witness :
  unique_keys sample_db /\ unique_ids sample_db /\
  status_changes sample_db `prefix_of` status_changes (RunScan sample_world 30 sample_db).1.
Proof.
  assert (unique_keys sample_db) as Hk by (apply NoDup_singleton).
  assert (unique_ids sample_db) as Hi by (apply NoDup_singleton).
  split; [exact Hk|]. split; [exact Hi|].
  exact (proj2 (proj2 (proj2 (proj2 (proj2
           (RunScan_keeps_tables sample_world 30 sample_db Hk Hi (NoDup_nil_2))))))).
Defined.

(** X28 -- Nothing in a scan marks a status change as notified: when no
    recorded change is marked before [RunScan], none is after it, and
    [GetStatusChanges] then returns for the unnotified changes just what
    it returns for all changes. *)
Theorem RunScan_never_notifies (w : world) (now : Time) (db : DB) :
  Forall (fun r => sc_notified r = false) (status_changes db) ->
  let db' := (RunScan w now db).1 in
  Forall (fun r => sc_notified r = false) (status_changes db') /\
  forall limit, GetStatusChanges db' limit true = GetStatusChanges db' limit false.
Proof.
  intros Hall db'.
  assert (Forall (fun r => sc_notified r = false) (status_changes db')) as Hall'.
  { subst db'.
    apply (RunScan_preserves
             (fun db' => Forall (fun r => sc_notified r = false) (status_changes db')));
      [| |done].
    - intros db1 p now1 H1. by rewrite (proj2 (SaveProgram_tables db1 p now1)).
    - intros db1 o now1 H1. rewrite SaveDomain_created. apply Forall_app. split; [done|].
      destruct (find_domain db1 (Domain_Domain o) (Domain_Program o)) as [r|]; [|done].
      case_bool_decide; [done|]. destruct (_ || _); [done|]. by repeat constructor. }
  split; [done|]. intros limit. unfold GetStatusChanges.
  destruct (driver_cases db') as (db1 & -> & Hs1 & _).
  destruct (fault_at 0 db'); [done|].
  destruct (driver_cases db1) as (db2 & -> & Hs2 & _).
  destruct (fault_at 0 db1); [done|].
  assert (status_changes db2 = status_changes db') as ->.
  { destruct Hs1 as (_ & _ & _ & _ & <- & _). by destruct Hs2 as (_ & _ & _ & _ & <- & _). }
  assert (List.filter (fun r => negb (sc_notified r)) (status_changes db') =
          List.filter (fun _ => true) (status_changes db')) as E.
  { apply filter_ext_in. intros r Hr%list_elem_of_In.
    rewrite Forall_forall in Hall'. by rewrite (Hall' r Hr). }
  cbv beta iota. by rewrite E.
Qed.

Lemma RunScan_never_notifies_witness :
  Forall (fun r => sc_notified r = false) (status_changes sample_db) /\
  Forall (fun r => sc_notified r = false)
         (status_changes (RunScan sample_world 30 sample_db).1).
Proof.
  split; [apply Forall_nil_2|].
  exact (proj1 (RunScan_never_notifies sample_world 30 sample_db (Forall_nil_2 _))).
Defined.

(** *** Every program of the list is processed *)



















(** *** The domains a run saves *)












End ScanFacts.

(** ** The handlers of the web interface *)
Module ServerFacts.
Import GoStrings Database Queries Server DatabaseFacts QueriesFacts DomainQueryFacts
       StatusChangeFacts.

(** With a syntax error [strconv.Atoi] returns 0. *)
Lemma Atoi_syntax s :
  (GoStd.Atoi s).2 = Some GoStd.ErrSyntax -> (GoStd.Atoi s).1 = 0%Z.
Proof.
  unfold GoStd.Atoi.
  destruct (match bytes s with
            | [] => (false, [])
            | c :: rest =>
                if bool_decide (c = "-"%char) then (true, rest)
                else if bool_decide (c = "+"%char) then (false, rest)
                else (false, c :: rest)
            end) as [neg ds].
  destruct ds as [|d ds]; [done|].
  destruct (GoStd.digits 0 (d :: ds)) as [n|]; [|done].
  destruct (GoStd.maxInt <? _)%Z; [by intros [=]|].
  destruct (_ <? GoStd.minInt)%Z; [by intros [=]|]. by intros [=].
Qed.


(** X29 -- A [limit] parameter that is not a number: the JSON handlers of
    the domains answer as for the limit 100, but the page of domains
    asks the database for no row at all and, unless the query fails,
    shows an empty list. *)
Theorem domains_unparsable_limit (db : DB) (c : Context) :
  (GoStd.Atoi (DefaultQuery c "limit" "100")).2 = Some GoStd.ErrSyntax ->
  getNewDomains db c = reply (GetNewDomains db 100) /\
  getDomainsByProgram db c = reply (GetDomainsByProgram db (Param c "program") 100) /\
  getDomains db c =
  (if bool_decide (Query c "program" = "") then reply (GetNewDomains db 100)
   else reply (GetDomainsByProgram db (Query c "program") 100)) /\
  match (domainsPage db c).2 with
  | StatusOK (domains, _, selected) =>
      domains = [] /\ selected = Query c "program" /\ fault_at 0 db = false
  | StatusInternalServerError _ => fault_at 0 db = true
  end.
Proof.
  intros Herr. pose proof (Atoi_syntax _ Herr) as Hzero.
  assert (limit_or c "100" 100 = 100%Z) as Hlimit.
  { unfold limit_or. destruct (GoStd.Atoi (DefaultQuery c "limit" "100")) as [v [e|]]; done. }
  unfold getNewDomains, getDomainsByProgram, getDomains, domainsPage, limit_unchecked.
  rewrite Hlimit, Hzero. split; [done|]. split; [done|].
  split; [by case_bool_decide|].
  assert (forall cond,
            select_domains db cond 0 =
            ((driver db).2, if fault_at 0 db then ([], Some ErrDriver) else ([], None)))
    as Hsel.
  { intros cond. rewrite select_domains_spec. by destruct (fault_at 0 db). }
  unfold GetDomainsByProgram, GetNewDomains. rewrite !Hsel.
  destruct (negb (bool_decide (Query c "program" = "")));
    destruct (fault_at 0 db); try done;
    by destruct (GetPrograms (driver db).2) as [db2 [programs err]].
Qed.

Lemma domains_unparsable_limit_witness :
  let c := mkContext (fun key => if bool_decide (key = "limit") then Some "ten" else None)
                     (fun _ => "") in
  (GoStd.Atoi (DefaultQuery c "limit" "100")).2 = Some GoStd.ErrSyntax /\
  getNewDomains sample_db c = reply (GetNewDomains sample_db 100).
Proof.
  intros c. split; [reflexivity|].
  exact (proj1 (domains_unparsable_limit sample_db c eq_refl)).
Defined.

Lemma GetStatusChanges_rows db limit onlyUnnotified :
  let result := (GetStatusChanges db limit onlyUnnotified).2 in
  (fault_at 0 db = true \/ fault_at 1 db = true -> result = ([], None)) /\
  (result.2 <> None ->
   result.1 = [] /\ fault_at 0 db = false /\ fault_at 1 db = false /\ limit <> 0%Z /\
   exists n, fault_at (2 + n) db = true) /\
  (faults db = [] -> result.2 = None) /\
  ((0 <= limit)%Z -> length result.1 <= Z.to_nat limit) /\
  (onlyUnnotified = true ->
   Forall (fun ch => StatusChange_Notified ch = false) result.1).
Proof.
  destruct (GetStatusChanges_spec db limit onlyUnnotified) as (db' & _ & ->).
  cbn [fst snd].
  set (cond := fun r => if onlyUnnotified then negb (sc_notified r) else true).
  destruct (top_rows sc_changed_at limit (List.filter cond (status_changes db)))
    as (_ & rest & Hp & _ & _ & Hpos).
  set (rows := limit_rows limit _) in *.
  destruct (fault_at 0 db || fault_at 1 db) eqn:Hf.
  { split; [done|]. split; [done|]. split; [done|]. by split; [simpl; lia|]. }
  apply orb_false_iff in Hf as [Hf0 Hf1].
  split; [by intros [?|?]; congruence|].
  destruct (existsb _ (take (length rows) (drop 2 (faults db)))) eqn:Hscan.
  - split.
    { intros _. split; [done|]. split; [done|]. split; [done|]. split.
      - intros E0. assert (length rows = 0) as Hlen0.
        { rewrite Hpos by lia. by rewrite E0. }
        by rewrite Hlen0 in Hscan.
      - apply existsb_exists in Hscan as (b & Hb%list_elem_of_In & Hid).
        unfold id in Hid. subst b.
        apply list_elem_of_lookup in Hb as (n & Hn).
        apply lookup_take_Some in Hn as [Hn _]. rewrite lookup_drop in Hn.
        exists n. by rewrite fault_at_lookup, Hn. }
    split; [intros E; by rewrite E, drop_nil, take_nil in Hscan|].
    by split; [simpl; lia|].
  - split; [done|]. split; [done|]. split.
    + intros Hl. cbn [fst]. rewrite length_map, (Hpos Hl). lia.
    + intros ->. cbn [fst]. apply Forall_forall.
      intros ch (r & -> & Hr)%elem_of_map_list.
      assert (r ∈ List.filter cond (status_changes db)) as Hin
        by (rewrite <- Hp; apply elem_of_app; by left).
      apply elem_of_filter_list in Hin as [_ Hc]. simpl. by apply negb_true_iff.
Qed.

(** X30 -- The handlers of the status changes do not show a failure of
    the check for the table or of the query: they answer 200 with an
    empty list. They answer 500 only when the Scan of a row fails, and
    never when the driver fails nothing. The JSON handlers return at most
    the limit asked, at most 50 when it is not a number, and the
    unnotified one only changes not yet notified. With a limit that is
    not a number the page asks for no row: it answers 200 with an empty
    list whatever the driver does. *)
Theorem status_change_handlers (db : DB) (c : Context) :
  (fault_at 0 db = true \/ fault_at 1 db = true ->
   (getStatusChanges db c).2 = StatusOK [] /\
   (getUnnotifiedStatusChanges db c).2 = StatusOK [] /\
   (statusChangesPage db c).2 = StatusOK []) /\
  match (getStatusChanges db c).2 with
  | StatusOK changes =>
      ((0 <= limit_or c "50" 50)%Z -> length changes <= Z.to_nat (limit_or c "50" 50)) /\
      ((GoStd.Atoi (DefaultQuery c "limit" "50")).2 <> None -> length changes <= 50)
  | StatusInternalServerError _ =>
      fault_at 0 db = false /\ fault_at 1 db = false /\
      exists n, fault_at (2 + n) db = true
  end /\
  match (getUnnotifiedStatusChanges db c).2 with
  | StatusOK changes => Forall (fun ch => StatusChange_Notified ch = false) changes
  | StatusInternalServerError _ =>
      fault_at 0 db = false /\ fault_at 1 db = false /\
      exists n, fault_at (2 + n) db = true
  end /\
  match (statusChangesPage db c).2 with
  | StatusOK changes =>
      (GoStd.Atoi (DefaultQuery c "limit" "100")).2 = Some GoStd.ErrSyntax -> changes = []
  | StatusInternalServerError _ =>
      (GoStd.Atoi (DefaultQuery c "limit" "100")).2 <> Some GoStd.ErrSyntax /\
      fault_at 0 db = false /\ fault_at 1 db = false /\
      exists n, fault_at (2 + n) db = true
  end.
Proof.
  unfold getStatusChanges, getUnnotifiedStatusChanges, statusChangesPage.
  split; [|split; [|split]].
  - intros Hf.
    destruct (GetStatusChanges_rows db (limit_or c "50" 50) false) as (E1 & _).
    destruct (GetStatusChanges_rows db (limit_or c "50" 50) true) as (E2 & _).
    destruct (GetStatusChanges_rows db (limit_unchecked c "100") false) as (E3 & _).
    specialize (E1 Hf). specialize (E2 Hf). specialize (E3 Hf). cbv zeta in E1, E2, E3.
    destruct (GetStatusChanges db (limit_or c "50" 50) false) as [db1 r1].
    destruct (GetStatusChanges db (limit_or c "50" 50) true) as [db2 r2].
    destruct (GetStatusChanges db (limit_unchecked c "100") false) as [db3 r3].
    cbn [snd] in *. by subst.
  - destruct (GetStatusChanges_rows db (limit_or c "50" 50) false)
      as (_ & Herr & _ & Hlen & _).
    destruct (GetStatusChanges db (limit_or c "50" 50) false) as [db' [changes [err|]]];
      cbn [fst snd reply] in *.
    + by destruct (Herr ltac:(done)) as (_ & ? & ? & _ & ?).
    + split; [done|]. revert Hlen. unfold limit_or.
      destruct (GoStd.Atoi (DefaultQuery c "limit" "50")) as [v [e|]]; [|done].
      intros Hlen _. apply (Hlen ltac:(lia)).
  - destruct (GetStatusChanges_rows db (limit_or c "50" 50) true)
      as (_ & Herr & _ & _ & Hun).
    destruct (GetStatusChanges db (limit_or c "50" 50) true) as [db' [changes [err|]]];
      cbn [fst snd reply] in *.
    + by destruct (Herr ltac:(done)) as (_ & ? & ? & _ & ?).
    + by apply Hun.
  - destruct (GetStatusChanges_rows db (limit_unchecked c "100") false)
      as (_ & Herr & _ & Hlen & _).
    unfold limit_unchecked in *.
    destruct (GetStatusChanges db (GoStd.Atoi (DefaultQuery c "limit" "100")).1 false)
      as [db' [changes [err|]]]; cbn [fst snd reply] in *.
    + destruct (Herr ltac:(done)) as (_ & ? & ? & Hl & ?).
      split; [|done]. by intros Hz%Atoi_syntax.
    + intros Hz%Atoi_syntax. rewrite Hz in Hlen.
      specialize (Hlen (Z.le_refl 0)). destruct changes as [|ch changes]; [done|].
      simpl in Hlen. lia.
Qed.

End ServerFacts.
